(** * Meliora: chunk capture, hallucination filter, transcript and summary routes

    A shallow embedding of the audio-chunk pipeline of the Meliora
    repository:

    - the client hook [useRealTimeTranscription] ([checkAudioVolume] and
      [transcribeAudio]);
    - the route [POST /api/transcribe] (blob upload, speech-to-text call,
      hallucination filter);
    - the routes [POST] and [GET /api/sessions/:id/transcriptions];
    - the route [POST /api/sessions/:id/summary] and the service
      [AISummaryService] of [lib/ai-summary.ts].

    Conventions of the model.
    - A JavaScript string is a [string] of 8-bit code units; the model
      covers ASCII text: [toLowerCase] maps A-Z only and [trim] removes
      the six ASCII white-space characters.
    - A JavaScript number holding an amplitude, a confidence or a duration
      is a rational [Q] (a finite number, never NaN); an instant
      ([Date.now()], an ISO time stamp) is a [Z] of milliseconds since the
      epoch, read from one wall clock shared by the client and the server.
    - The relational store and the blob store are fields of a [World]
      threaded through a state-and-exception monad; store queries
      themselves do not fail, except the blob upload, whose refusal the
      route handles explicitly.
    - The speech-to-text and text-generation capabilities and [JSON.parse]
      are parameters of the development. *)

From stdpp Require Import gmap strings list sorting.
From Stdlib Require Import ZArith QArith Qabs Qround Ascii String Lia Bool.
From Stdlib.Strings Require Import Byte.

Local Open Scope string_scope.

(** String concatenation unfolds under [simpl], as list concatenation does. *)
#[local] Arguments String.append !s1 s2 : simpl nomatch.

(** ** JavaScript string primitives *)

Module JS.

Definition is_upper (c : ascii) : bool :=
  (65 <=? nat_of_ascii c)%nat && (nat_of_ascii c <=? 90)%nat.

Definition lower_char (c : ascii) : ascii :=
  if is_upper c then ascii_of_nat (nat_of_ascii c + 32) else c.

(** [String.prototype.toLowerCase] *)
Fixpoint toLowerCase (s : string) : string :=
  match s with
  | EmptyString => EmptyString
  | String c r => String (lower_char c) (toLowerCase r)
  end.

(** White space removed by [trim]: TAB, LF, VT, FF, CR and SPACE. *)
Definition is_ws (c : ascii) : bool :=
  let n := nat_of_ascii c in ((9 <=? n)%nat && (n <=? 13)%nat) || (n =? 32)%nat.

Fixpoint trimStart (s : string) : string :=
  match s with
  | EmptyString => EmptyString
  | String c r => if is_ws c then trimStart r else s
  end.

Fixpoint trimEnd (s : string) : string :=
  match s with
  | EmptyString => EmptyString
  | String c r =>
      match trimEnd r with
      | EmptyString => if is_ws c then EmptyString else String c EmptyString
      | r' => String c r'
      end
  end.

(** [String.prototype.trim] *)
Definition trim (s : string) : string := trimEnd (trimStart s).

(** [s.startsWith(p)] *)
Fixpoint startsWith (p s : string) : bool :=
  match p, s with
  | EmptyString, _ => true
  | String _ _, EmptyString => false
  | String a p', String b s' => Ascii.eqb a b && startsWith p' s'
  end.

(** [s.includes(p)] *)
Fixpoint includes (s p : string) : bool :=
  startsWith p s ||
  match s with
  | EmptyString => false
  | String _ r => includes r p
  end.

(** [s.indexOf(p)]; [None] stands for -1. *)
Fixpoint indexOf (s p : string) : option nat :=
  if startsWith p s then Some 0%nat
  else match s with
       | EmptyString => None
       | String _ r => S <$> indexOf r p
       end.

(** [s.lastIndexOf(p)]; [None] stands for -1. *)
Fixpoint lastIndexOf (s p : string) : option nat :=
  match s with
  | EmptyString => if startsWith p s then Some 0%nat else None
  | String _ r =>
      match lastIndexOf r p with
      | Some i => Some (S i)
      | None => if startsWith p s then Some 0%nat else None
      end
  end.

Fixpoint drop (n : nat) (s : string) : string :=
  match n, s with
  | O, _ => s
  | S n', EmptyString => EmptyString
  | S n', String _ r => drop n' r
  end.

Fixpoint take (n : nat) (s : string) : string :=
  match n, s with
  | O, _ => EmptyString
  | S n', EmptyString => EmptyString
  | S n', String c r => String c (take n' r)
  end.

(** [s.slice(i, j)] for non-negative [i] and [j]. *)
Definition slice (s : string) (i j : nat) : string := take (j - i) (drop i s).

(** Case-insensitive comparison of one code unit, as the [i] flag of a
    regular expression does on ASCII. *)
Definition eqb_i (a b : ascii) : bool := Ascii.eqb (lower_char a) (lower_char b).

Fixpoint startsWith_i (p s : string) : bool :=
  match p, s with
  | EmptyString, _ => true
  | String _ _, EmptyString => false
  | String a p', String b s' => eqb_i a b && startsWith_i p' s'
  end.

(** Scan of [s.match(/p/gi)] for a literal, non-empty pattern [p]: matches
    are searched left to right and the search resumes after the end of each
    match. [skip] counts the code units of the current match still to pass. *)
Fixpoint matchAll_i_from (p s : string) (skip : nat) : nat :=
  match s with
  | EmptyString => 0
  | String _ r =>
      match skip with
      | S k => matchAll_i_from p r k
      | O => if startsWith_i p s
             then S (matchAll_i_from p r (String.length p - 1))
             else matchAll_i_from p r 0
      end
  end.

(** [(s.match(/p/gi) || []).length] *)
Definition matchCount_i (p s : string) : nat := matchAll_i_from p s 0.

(** [a.join(sep)] *)
Fixpoint join (sep : string) (l : list string) : string :=
  match l with
  | [] => EmptyString
  | [x] => x
  | x :: r => x ++ sep ++ join sep r
  end.

(** Truthiness of a string: the empty string is falsy. *)
Definition truthy (s : string) : bool :=
  match s with EmptyString => false | _ => true end.

(** Decimal rendering of a non-negative integer in a template literal. *)
Definition digit (n : nat) : ascii := ascii_of_nat (48 + n).

Fixpoint decimal_fuel (fuel : nat) (n : N) (acc : string) : string :=
  match fuel with
  | O => acc
  | S f =>
      let acc' := String (digit (N.to_nat (n mod 10))) acc in
      if (n <? 10)%N then acc' else decimal_fuel f (n / 10)%N acc'
  end.

Definition decimal (n : N) : string := decimal_fuel (S (N.to_nat (N.log2 n))) n EmptyString.

Definition Z_toString (z : Z) : string :=
  if (z <? 0)%Z then String "-"%char (decimal (Z.to_N (- z))) else decimal (Z.to_N z).

End JS.

(** ** Hallucination filter ([POST /api/transcribe]) *)

(** The phrase list of the route, in source order. *)
Definition hallucinations : list string :=
  [ "thank you";
    "thanks for watching";
    "bye";
    "bye-bye";
    "transcribed by";
    "otter.ai";
    "thanks";
    "thank you very much";
    "goodbye";
    "see you later";
    "have a great day";
    "take care";
    "beadaholique.com";
    "beading supplies";
    "go to beadaholique";
    "for all of your";
    "supplies needs" ].

(** [transcription.text.toLowerCase().trim()] *)
Definition transcriptionLower (text : string) : string :=
  JS.trim (JS.toLowerCase text).

(** [(transcriptionLower.match(/thank you/gi) || []).length] *)
Definition thankYouCount (text : string) : nat :=
  JS.matchCount_i "thank you" (transcriptionLower text).

Definition isLikelyHallucination (text : string) : bool :=
  let lower := transcriptionLower text in
  ((String.length text <? 100)%nat &&
   existsb (fun phrase => JS.includes lower (JS.toLowerCase phrase)) hallucinations)
  || (3 <=? thankYouCount text)%nat
  || JS.includes lower "otter.ai"
  || JS.includes lower "transcribed by"
  || (JS.includes lower ".com" && JS.includes lower "for all")
  || JS.includes lower "beadaholique"
  || (JS.includes lower "go to" && JS.includes lower ".com")
  || JS.includes lower "supplies needs".

(** *** Vocabulary of the filter's specification *)

(** [p] occurs in [s] as a substring. *)
Definition Contains (s p : string) : Prop := exists a b, s = a ++ p ++ b.

(** Number of positions of [s] at which [p] starts. *)
Fixpoint occurrences (p s : string) : nat :=
  (if JS.startsWith p s then 1 else 0) +
  match s with
  | EmptyString => 0
  | String _ r => occurrences p r
  end.

(** A string that [toLowerCase] leaves as it is. *)
Definition lowered (s : string) : Prop := JS.toLowerCase s = s.

(** Case-insensitive containment of a phrase. *)
Definition ContainsPhrase (text phrase : string) : Prop :=
  Contains (JS.toLowerCase text) (JS.toLowerCase phrase).

(** The advertising pattern of the filter: a [.com] together with
    [for all] or [go to], or the advertiser's name. *)
Definition AdvertisingPattern (text : string) : Prop :=
  (ContainsPhrase text ".com" /\ ContainsPhrase text "for all")
  \/ ContainsPhrase text "beadaholique"
  \/ (ContainsPhrase text "go to" /\ ContainsPhrase text ".com").

(** ** Signal gate ([checkAudioVolume] of the recording hook) *)

(** [a > b] on numbers. *)
Definition Qgtb (a b : Q) : bool := negb (Qle_bool a b).

(** [Math.max(a, b)] *)
Definition Math_max (a b : Q) : Q := if Qle_bool a b then b else a.

(** A recorded chunk: a [Blob] with its MIME type and bytes. *)
Record Blob := { blob_type : string; blob_bytes : list byte }.

Definition blob_size (b : Blob) : nat := List.length (blob_bytes b).

(** The three accumulators of the analysis loop. *)
Record VolumeStats := {
  sum : Q;
  maxAmplitude : Q;
  samplesAboveThreshold : nat
}.

(** [const threshold = 0.005] *)
Definition threshold : Q := 5 # 1000.

Section SignalGate.

(** Rounding of an arithmetic result to a double. Comparisons, [Math.abs]
    and [Math.max] are exact and need none. *)
Context (fl : Q -> Q).

(** Browser capabilities: whether [new AudioContext()] succeeds, what the
    [FileReader] delivers ([None]: [onerror] fires) and what
    [decodeAudioData] followed by [getChannelData(0)] yields ([None]: one of
    them throws). [audioContext.close()] is taken to succeed. *)
Context (audioContextSupported : bool)
        (readAsArrayBuffer : Blob -> option (list byte))
        (decodeAudioData : list byte -> option (list Q)).

(** One iteration of [for (let i = 0; i < channelData.length; i++)]. *)
Definition analyse_sample (st : VolumeStats) (x : Q) : VolumeStats :=
  let amplitude := Qabs x in
  {| sum := fl (sum st + amplitude);
     maxAmplitude := Math_max (maxAmplitude st) amplitude;
     samplesAboveThreshold :=
       if Qgtb amplitude threshold
       then S (samplesAboveThreshold st)
       else samplesAboveThreshold st |}.

Definition analyse (channelData : list Q) : VolumeStats :=
  fold_left analyse_sample channelData
    {| sum := 0; maxAmplitude := 0; samplesAboveThreshold := 0 |}.

Definition averageAmplitude (channelData : list Q) : Q :=
  fl (sum (analyse channelData) / inject_Z (Z.of_nat (List.length channelData))).

Definition percentageAboveThreshold (channelData : list Q) : Q :=
  fl (fl (inject_Z (Z.of_nat (samplesAboveThreshold (analyse channelData)))
          / inject_Z (Z.of_nat (List.length channelData))) * 100).

(** The literals 0.01 and 0.001 stand for the rationals they denote. On an
    empty buffer JavaScript divides 0 by 0 and every comparison with the
    resulting NaN is false; here, rounding apart, the quotient is 0 and the
    comparisons with the positive thresholds are false as well. *)
Definition hasSignificantAudio (channelData : list Q) : bool :=
  Qgtb (maxAmplitude (analyse channelData)) (1 # 100)
  || Qgtb (averageAmplitude channelData) (1 # 1000)
  || Qgtb (percentageAboveThreshold channelData) 1.

(** [checkAudioVolume]: the promise resolves to the decision of the
    analysis, and to [true] in each of the three error handlers. *)
Definition checkAudioVolume (audioBlob : Blob) : bool :=
  if negb audioContextSupported then true          (* outer [catch] *)
  else
    match readAsArrayBuffer audioBlob with
    | None => true                                 (* [fileReader.onerror] *)
    | Some arrayBuffer =>
        match decodeAudioData arrayBuffer with
        | None => true                             (* inner [catch] *)
        | Some channelData => hasSignificantAudio channelData
        end
    end.

End SignalGate.

(** The gate's verdicts. *)
Definition PASS : bool := true.
Definition REJECT : bool := false.

(** Peak absolute amplitude of a decoded chunk exceeds [b]. *)
Definition PeakExceeds (channelData : list Q) (b : Q) : Prop :=
  exists x, In x channelData /\ (b < Qabs x)%Q.

(** Decoding or analysis fails with an error. *)
Definition AnalysisFails (audioContextSupported : bool)
    (readAsArrayBuffer : Blob -> option (list byte))
    (decodeAudioData : list byte -> option (list Q)) (audioBlob : Blob) : Prop :=
  audioContextSupported = false
  \/ readAsArrayBuffer audioBlob = None
  \/ exists arrayBuffer, readAsArrayBuffer audioBlob = Some arrayBuffer
                         /\ decodeAudioData arrayBuffer = None.

(** ** JSON values *)

(** A number keeps its lexeme. *)
#[warning="-register-all"] Inductive Json :=
| JNull
| JBool (b : bool)
| JNumber (lexeme : string)
| JString (s : string)
| JArray (items : list Json)
| JObject (fields : list (string * Json)).

(** [o[key]]; [None] stands for [undefined]. *)
Fixpoint assoc_get (fields : list (string * Json)) (key : string) : option Json :=
  match fields with
  | [] => None
  | (k, v) :: r => if String.eqb k key then Some v else assoc_get r key
  end.

Definition Json_get (j : Json) (key : string) : option Json :=
  match j with
  | JObject fields => assoc_get fields key
  | _ => None
  end.

Fixpoint assoc_set (fields : list (string * Json)) (key : string) (v : Json)
  : list (string * Json) :=
  match fields with
  | [] => [(key, v)]
  | (k, v0) :: r =>
      if String.eqb k key then (k, v) :: r else (k, v0) :: assoc_set r key v
  end.

(** [o[key] = v] in a module (strict mode): a [TypeError] on [null] and on
    primitives ([None]). A property set on an array does not show among its
    items. *)
Definition Json_set (j : Json) (key : string) (v : Json) : option Json :=
  match j with
  | JObject fields => Some (JObject (assoc_set fields key v))
  | JArray items => Some (JArray items)
  | _ => None
  end.

(** ** The world: clock, stores and the calls made to outside capabilities *)

(** Row of [sessions], keyed by its [id]. *)
Record SessionRow := {
  scenario_type : string;
  clerk_user_id : string;
  status : string
}.

(** Row of [transcriptions]. *)
Record TranscriptionRow := {
  session_id : string;
  text : string;
  confidence : Q;
  timestamp : Z;
  speaker : string;
  duration : option Q;
  chunk_index : option Z;
  audio_url : option string;
  created_at : Z
}.

(** Row of [session_summaries], keyed by its unique [session_id]. *)
Record SummaryRow := {
  key_topics : Json;
  main_concerns : Json;
  progress_notes : Json;
  next_steps : Json;
  risk_assessment : Json;
  overall_summary : Json;
  session_duration_minutes : Json;
  transcript_length : Json;
  transcription_count : nat;
  summary_confidence : Q;
  summary_created_at : Z;
  summary_updated_at : Z
}.

(** Calls to capabilities outside the process, in the order they are made. *)
Inductive Call :=
| StorageUpload (key : string) (bytes : list byte)
| WhisperTranscribe (audio : Blob)
| ChatCompletion (prompt : string).

Record World := {
  w_now : Z;                                  (* wall clock, ms *)
  w_storage_up : bool;                        (* the bucket accepts requests *)
  w_blobs : gmap string (list byte);          (* bucket [audio-recordings] *)
  w_sessions : gmap string SessionRow;
  w_transcriptions : list TranscriptionRow;   (* in insertion order *)
  w_summaries : gmap string SummaryRow;
  w_calls : list Call
}.

(** Result of a computation that may throw [new Error(msg)]. *)
Inductive Res (A : Type) : Type :=
| Ok (a : A)
| Throw (msg : string).
Arguments Ok {A} a.
Arguments Throw {A} msg.

(** Computations over the world. State changes made before a throw stay. *)
Definition M (A : Type) : Type := World -> Res A * World.

Definition ret {A} (a : A) : M A := fun w => (Ok a, w).

Definition bind {A B} (m : M A) (k : A -> M B) : M B :=
  fun w => match m w with
           | (Ok a, w') => k a w'
           | (Throw e, w') => (Throw e, w')
           end.

Definition throw {A} (msg : string) : M A := fun w => (Throw msg, w).

(** [try { m } catch (e) { h(e.message) }] *)
Definition try_catch {A} (m : M A) (h : string -> M A) : M A :=
  fun w => match m w with
           | (Ok a, w') => (Ok a, w')
           | (Throw e, w') => h e w'
           end.

Declare Scope world_scope.
Delimit Scope world_scope with world.
Notation "'let*' x ':=' m 'in' k" := (bind m (fun x => k))
  (at level 10, x name, m at level 100, k at level 200) : world_scope.

Local Open Scope world_scope.

Definition gets {A} (f : World -> A) : M A := fun w => (Ok (f w), w).

Definition modify (f : World -> World) : M unit := fun w => (Ok tt, f w).

(** [Date.now()], [new Date()] *)
Definition Date_now : M Z := gets w_now.

Definition set_now (t : Z) (w : World) : World :=
  {| w_now := t; w_storage_up := w_storage_up w; w_blobs := w_blobs w;
     w_sessions := w_sessions w; w_transcriptions := w_transcriptions w;
     w_summaries := w_summaries w; w_calls := w_calls w |}.

Definition set_blobs (b : gmap string (list byte)) (w : World) : World :=
  {| w_now := w_now w; w_storage_up := w_storage_up w; w_blobs := b;
     w_sessions := w_sessions w; w_transcriptions := w_transcriptions w;
     w_summaries := w_summaries w; w_calls := w_calls w |}.

Definition set_transcriptions (t : list TranscriptionRow) (w : World) : World :=
  {| w_now := w_now w; w_storage_up := w_storage_up w; w_blobs := w_blobs w;
     w_sessions := w_sessions w; w_transcriptions := t;
     w_summaries := w_summaries w; w_calls := w_calls w |}.

Definition set_summaries (s : gmap string SummaryRow) (w : World) : World :=
  {| w_now := w_now w; w_storage_up := w_storage_up w; w_blobs := w_blobs w;
     w_sessions := w_sessions w; w_transcriptions := w_transcriptions w;
     w_summaries := s; w_calls := w_calls w |}.

Definition set_calls (c : list Call) (w : World) : World :=
  {| w_now := w_now w; w_storage_up := w_storage_up w; w_blobs := w_blobs w;
     w_sessions := w_sessions w; w_transcriptions := w_transcriptions w;
     w_summaries := w_summaries w; w_calls := c |}.

(** A response built with [NextResponse.json]. *)
Inductive Http (A : Type) : Type :=
| Json200 (body : A)
| JsonError (status : nat) (error : string).
Arguments Json200 {A} body.
Arguments JsonError {A} status error.

(** ** Route [POST /api/transcribe] *)

Record Word := { word : string; word_start : Q; word_end : Q }.

(** What the speech-to-text capability returns ([verbose_json]). *)
Record Transcription := {
  tr_text : string;
  tr_duration : option Q;
  tr_words : option (list Word)
}.

Record Analysis := {
  an_length : nat;
  an_thankYouCount : nat;
  an_containsOtter : bool
}.

Record Debug := {
  skipped : option string;
  originalText : option string;
  audioSize : nat;
  audioType : option string;
  savedAs : string;
  audioUrl : option string;
  analysis : option Analysis
}.

(** Body of a successful response of the route. *)
Record TranscribeResult := {
  res_text : string;
  res_confidence : Q;
  res_timestamp : Z;
  res_duration : option Q;
  res_words : list Word;
  res_debug : Debug
}.

(** The multipart form of a request. *)
Record TranscribeForm := {
  form_audio : option Blob;
  form_sessionId : option string
}.

(** Body of [POST /api/sessions/:id/transcriptions]. *)
Record SaveBody := {
  body_text : string;
  body_confidence : option Q;
  body_timestamp : option Z;
  body_speaker : option string;
  body_duration : option Q;
  body_chunkIndex : option Z;
  body_audioUrl : option string
}.

(** Body of [POST /api/sessions/:id/summary]. *)
Record SummaryRequest := {
  includeMetadata : option bool;
  forceRegenerate : option bool
}.

Record SummaryMetadata := { isExisting : bool; meta_sessionId : string }.

Record SummaryResponse := {
  success : bool;
  summary : SummaryRow;
  message : option string;
  metadata : option SummaryMetadata
}.

(** [a || b] on an optional, possibly empty string. *)
Definition or_string (a : option string) (b : string) : string :=
  match a with
  | Some s => if JS.truthy s then s else b
  | None => b
  end.

(** [a || b] on an optional number: 0 is falsy. *)
Definition or_number (a : option Q) (b : Q) : Q :=
  match a with
  | Some q => if Qeq_bool q 0 then b else q
  | None => b
  end.

(** White space of the regular-expression class [\s] (ASCII). *)
Definition skip_ws (s : string) : string := JS.trimStart s.

(** The lazy group [([\s\S]*?)] followed by [\s*```]: the shortest prefix
    of [body] after which optional white space and a closing fence come. *)
Fixpoint lazy_until_fence (body : string) : option string :=
  if JS.startsWith "```" (skip_ws body) then Some EmptyString
  else match body with
       | EmptyString => None
       | String c r => String c <$> lazy_until_fence r
       end.

(** Group 1 of [aiResponse.match(/```json\s*([\s\S]*?)\s*```/)]: the
    leftmost opening fence from which the whole pattern matches. *)
Fixpoint match_json_fence (s : string) : option string :=
  match (if JS.startsWith "```json" s
         then lazy_until_fence (skip_ws (JS.drop 7 s))
         else None) with
  | Some group1 => Some group1
  | None => match s with
            | EmptyString => None
            | String _ r => match_json_fence r
            end
  end.

(** [s.replace(a, b)] for a literal [a]: the first occurrence only. *)
Fixpoint replace_first (a b s : string) : string :=
  if JS.startsWith a s then b ++ JS.drop (String.length a) s
  else match s with
       | EmptyString => EmptyString
       | String c r => String c (replace_first a b r)
       end.

(** [transcriptions.map(t => t.text).filter(Boolean).join(' ')] *)
Definition fullTranscript_of (rows : list TranscriptionRow) : string :=
  JS.join " " (List.filter JS.truthy (List.map text rows)).

(** Order of two rows by their [timestamp] column. *)
Definition timestamp_le (a b : TranscriptionRow) : Prop :=
  (timestamp a <= timestamp b)%Z.

#[global] Instance timestamp_le_dec : RelDecision timestamp_le :=
  fun a b => decide (timestamp a <= timestamp b)%Z.

(** [.order('timestamp', { ascending: true })] *)
Definition order_by_timestamp (rows : list TranscriptionRow) : list TranscriptionRow :=
  merge_sort timestamp_le rows.

(** [Math.floor(Date.now() / 1000)] *)
Definition unix_seconds (now : Z) : Z := (now / 1000)%Z.

Section Server.

(** Outside capabilities: the time each call takes, the speech-to-text
    result ([None]: the call throws), the content of the first choice of
    a chat completion (outer [None]: the call throws; inner [None]: no
    content), [JSON.parse] ([None]: it throws) and the fixed text of the
    summary prompt around its three holes. *)
Context (latency : Call -> N)
        (whisper : Blob -> option Transcription)
        (chat : string -> option (option string))
        (JSON_parse : string -> option Json)
        (promptText : string -> Z -> string -> string).

(** An awaited call to an outside capability: logged, and time passes. *)
Definition external (c : Call) : M unit :=
  modify (fun w => set_now (w_now w + Z.of_N (latency c))
                     (set_calls (w_calls w ++ [c]) w)).

(** The world after the call to the text-generation capability. *)
Definition after_chat (prompt : string) (w : World) : World :=
  set_now (w_now w + Z.of_N (latency (ChatCompletion prompt)))
    (set_calls (w_calls w ++ [ChatCompletion prompt]) w).

(** [storage.from('audio-recordings').upload(key, bytes, { upsert: false })]:
    [true] when the object was stored, [false] when the result carries an
    error (bucket unavailable, or the key is taken). *)
Definition storage_upload (key : string) (bytes : list byte) : M bool :=
  let* _ := external (StorageUpload key bytes) in
  let* up := gets w_storage_up in
  let* blobs := gets w_blobs in
  if up then
    match blobs !! key with
    | Some _ => ret false
    | None => let* _ := modify (set_blobs (<[key := bytes]> blobs)) in ret true
    end
  else ret false.

(** [openai.audio.transcriptions.create({ file, model: 'whisper-1', ... })] *)
Definition transcriptions_create (audioFile : Blob) : M Transcription :=
  let* _ := external (WhisperTranscribe audioFile) in
  match whisper audioFile with
  | Some t => ret t
  | None => throw "speech-to-text call failed"
  end.

(** The key of a chunk in the bucket:
    [`${sessionId}/audio-${timestamp}.webm`]. *)
Definition audioFileName_of (sessionId : string) (timestamp : Z) : string :=
  sessionId ++ "/audio-" ++ JS.Z_toString timestamp ++ ".webm".

Definition transcribe_POST (userId : option string) (form : TranscribeForm)
  : M (Http TranscribeResult) :=
  try_catch
    (match userId with
     | None => ret (JsonError 401 "Unauthorized")
     | Some _ =>
         match form_audio form, form_sessionId form with
         | Some audioFile, Some sessionId =>
             if negb (JS.truthy sessionId)
             then ret (JsonError 400 "Audio file and session ID are required")
             else
               let* timestamp := Date_now in
               let audioFileName := audioFileName_of sessionId timestamp in
               let* audioUrl :=
                 try_catch
                   (let* stored := storage_upload audioFileName (blob_bytes audioFile) in
                    ret (if stored then Some audioFileName else None))
                   (fun _ => ret None) in
               let* transcription := transcriptions_create audioFile in
               let original := tr_text transcription in
               if isLikelyHallucination original then
                 let* now := Date_now in
                 ret (Json200
                   {| res_text := "";
                      res_confidence := 0;
                      res_timestamp := now;
                      res_duration := tr_duration transcription;
                      res_words := [];
                      res_debug :=
                        {| skipped := Some "hallucination_detected";
                           originalText := Some original;
                           audioSize := blob_size audioFile;
                           audioType := None;
                           savedAs := audioFileName;
                           audioUrl := audioUrl;
                           analysis :=
                             Some {| an_length := String.length original;
                                     an_thankYouCount := thankYouCount original;
                                     an_containsOtter :=
                                       JS.includes (transcriptionLower original) "otter.ai" |}
                        |} |})
               else
                 let* now := Date_now in
                 ret (Json200
                   {| res_text := original;
                      res_confidence := 95 # 100;
                      res_timestamp := now;
                      res_duration := tr_duration transcription;
                      res_words := default [] (tr_words transcription);
                      res_debug :=
                        {| skipped := None;
                           originalText := None;
                           audioSize := blob_size audioFile;
                           audioType := Some (blob_type audioFile);
                           savedAs := audioFileName;
                           audioUrl := audioUrl;
                           analysis := None |} |})
         | _, _ => ret (JsonError 400 "Audio file and session ID are required")
         end
     end)
    (fun _ => ret (JsonError 500 "Failed to transcribe audio")).

(** ** Routes [/api/sessions/:id/transcriptions] *)

(** [from('sessions').select(..).eq('id', sessionId)
      .eq('clerk_user_id', userId).single()]: the row, or [None] when the
    result carries an error (no such row). *)
Definition select_session (sessionId userId : string) : M (option SessionRow) :=
  gets (fun w =>
          match w_sessions w !! sessionId with
          | Some s => if String.eqb (clerk_user_id s) userId then Some s else None
          | None => None
          end).

(** [from('transcriptions').select(..).eq('session_id', sessionId)
      .order('timestamp', { ascending: true })] *)
Definition select_transcriptions (sessionId : string) : M (list TranscriptionRow) :=
  gets (fun w =>
          order_by_timestamp
            (List.filter (fun r => String.eqb (session_id r) sessionId)
               (w_transcriptions w))).

Definition transcriptions_POST (userId : option string) (sessionId : string)
    (body : SaveBody) : M (Http TranscriptionRow) :=
  try_catch
    (match userId with
     | None => ret (JsonError 401 "Unauthorized")
     | Some userId =>
         let* session := select_session sessionId userId in
         match session with
         | None => ret (JsonError 404 "Session not found or unauthorized")
         | Some _ =>
             let* now := Date_now in
             let row :=
               {| session_id := sessionId;
                  text := body_text body;
                  confidence := or_number (body_confidence body) (95 # 100);
                  timestamp := default now (body_timestamp body);
                  speaker := or_string (body_speaker body) "user";
                  duration := body_duration body;
                  chunk_index := body_chunkIndex body;
                  audio_url := body_audioUrl body;
                  created_at := now |} in
             let* _ := modify (fun w => set_transcriptions (w_transcriptions w ++ [row]) w) in
             ret (Json200 row)
         end
     end)
    (fun _ => ret (JsonError 500 "Failed to save transcription")).

Definition transcriptions_GET (userId : option string) (sessionId : string)
  : M (Http (list TranscriptionRow)) :=
  try_catch
    (match userId with
     | None => ret (JsonError 401 "Unauthorized")
     | Some userId =>
         let* transcriptions := select_transcriptions sessionId in
         if (0 <? List.length transcriptions)%nat then
           let* session := select_session sessionId userId in
           match session with
           | None => ret (JsonError 404 "Session not found or unauthorized")
           | Some _ => ret (Json200 transcriptions)
           end
         else ret (Json200 transcriptions)
     end)
    (fun _ => ret (JsonError 500 "Failed to fetch transcriptions")).

(** ** [AISummaryService] ([lib/ai-summary.ts]) *)

Definition buildSummaryPrompt (scenarioType fullTranscript : string)
    (durationMinutes : Z) : string :=
  promptText (replace_first "_" " " scenarioType) durationMinutes fullTranscript.

(** [openai.chat.completions.create(..)] followed by
    [completion.choices[0]?.message?.content]. *)
Definition chat_create (prompt : string) : M (option string) :=
  let* _ := external (ChatCompletion prompt) in
  match chat prompt with
  | Some content => ret content
  | None => throw "text-generation call failed"
  end.

(** The brace fallback: the text from the first [{] to the last [}]. *)
Definition brace_substring (aiResponse : string) : option string :=
  match JS.indexOf aiResponse "{", JS.lastIndexOf aiResponse "}" with
  | Some jsonStart, Some jsonEnd =>
      if (jsonStart <? jsonEnd)%nat
      then Some (JS.slice aiResponse jsonStart (jsonEnd + 1))
      else None
  | _, _ => None
  end.

(** [JSON.parse(s)] as a computation. *)
Definition parse_json (s : string) : Res Json :=
  match JSON_parse s with
  | Some v => Ok v
  | None => Throw "SyntaxError"
  end.

(** The body of the inner [try] of [callOpenAIWithTranscript]. *)
Definition parse_fallback (aiResponse : string) : Res Json :=
  match match_json_fence aiResponse with
  | Some group1 =>
      if JS.truthy group1 then parse_json group1
      else
        match brace_substring aiResponse with
        | Some jsonContent => parse_json jsonContent
        | None => Throw "No valid JSON found in response"
        end
  | None =>
      match brace_substring aiResponse with
      | Some jsonContent => parse_json jsonContent
      | None => Throw "No valid JSON found in response"
      end
  end.

(** The parsing of the model's answer in [callOpenAIWithTranscript]. *)
Definition parseAIResponse (aiResponse : string) : Res Json :=
  match parse_json aiResponse with
  | Ok parsedResponse => Ok parsedResponse
  | Throw _ =>
      match parse_fallback aiResponse with
      | Ok parsedResponse => Ok parsedResponse
      | Throw _ => Throw "Invalid response format from AI"
      end
  end.

Definition lift_res {A} (r : Res A) : M A := fun w => (r, w).

Definition callOpenAIWithTranscript (session : SessionRow) (fullTranscript : string)
  : M Json :=
  let prompt := buildSummaryPrompt (scenario_type session) fullTranscript 0 in
  let* aiResponse := chat_create prompt in
  if negb (JS.truthy (default "" aiResponse)) then throw "No response from OpenAI"
  else
    let* parsedResponse := lift_res (parseAIResponse (default "" aiResponse)) in
    match Json_set parsedResponse "session_duration_minutes" (JNumber "0") with
    | None => throw "TypeError"
    | Some p1 =>
        match Json_set p1 "transcript_length"
                (JNumber (JS.decimal (N.of_nat (String.length fullTranscript)))) with
        | None => throw "TypeError"
        | Some p2 => ret p2
        end
    end.

(** The row that [saveSummary] inserts; [None] when a column that may not
    be null would be. Column types are not checked further. *)
Definition summary_row (summary : Json) (transcriptionCount : nat) (now : Z)
  : option SummaryRow :=
  match Json_get summary "key_topics", Json_get summary "main_concerns",
        Json_get summary "progress_notes", Json_get summary "next_steps",
        Json_get summary "risk_assessment", Json_get summary "overall_summary",
        Json_get summary "session_duration_minutes",
        Json_get summary "transcript_length" with
  | Some kt, Some mc, Some pn, Some ns, Some ra, Some os, Some sdm, Some tl =>
      Some {| key_topics := kt; main_concerns := mc; progress_notes := pn;
              next_steps := ns; risk_assessment := ra; overall_summary := os;
              session_duration_minutes := sdm; transcript_length := tl;
              transcription_count := transcriptionCount;
              summary_confidence := 90 # 100;
              summary_created_at := now; summary_updated_at := now |}
  | _, _, _, _, _, _, _, _ => None
  end.

(** [saveSummary]: an insert; the store refuses a second row for a
    session ([session_id] is unique). *)
Definition saveSummary (sessionId : string) (summary : Json)
    (transcriptionCount : nat) : M SummaryRow :=
  let* now := Date_now in
  let* summaries := gets w_summaries in
  match summary_row summary transcriptionCount now, summaries !! sessionId with
  | Some row, None =>
      let* _ := modify (set_summaries (<[sessionId := row]> summaries)) in
      ret row
  | _, _ => throw "Failed to save summary"
  end.

Definition generateSessionSummaryFromTranscript (sessionId userId fullTranscript : string)
    (transcriptionCount : nat) : M SummaryRow :=
  let* session := select_session sessionId userId in
  match session with
  | None => throw "Session not found or unauthorized"
  | Some session =>
      let* existingSummary := gets (fun w => w_summaries w !! sessionId) in
      match existingSummary with
      | Some existing => ret existing
      | None =>
          let* aiSummary := callOpenAIWithTranscript session fullTranscript in
          saveSummary sessionId aiSummary transcriptionCount
      end
  end.

Definition getSessionSummary (sessionId userId : string) : M (option SummaryRow) :=
  let* session := select_session sessionId userId in
  match session with
  | None => throw "Session not found or unauthorized"
  | Some _ => gets (fun w => w_summaries w !! sessionId)
  end.

(** ** Route [POST /api/sessions/:id/summary] *)

Definition summary_metadata (req : SummaryRequest) (sessionId : string)
  : option SummaryMetadata :=
  if default true (includeMetadata req)
  then Some {| isExisting := true; meta_sessionId := sessionId |}
  else None.

(** The part of the route after the existing-summary shortcut. *)
Definition summary_generate (userId sessionId : string) : M (Http SummaryResponse) :=
  let* transcriptions := select_transcriptions sessionId in
  let fullTranscript := fullTranscript_of transcriptions in
  if negb (JS.truthy fullTranscript)
  then throw "No transcriptions available for summary generation"
  else
    let* result := generateSessionSummaryFromTranscript sessionId userId
                     fullTranscript (List.length transcriptions) in
    ret (Json200 {| success := true; summary := result;
                    message := None; metadata := None |}).

Definition summary_POST (userId : option string) (sessionId : string)
    (req : SummaryRequest) : M (Http SummaryResponse) :=
  try_catch
    (match userId with
     | None => ret (JsonError 401 "Unauthorized")
     | Some userId =>
         if negb (JS.truthy sessionId) then ret (JsonError 400 "Session ID required")
         else if negb (default false (forceRegenerate req)) then
           let* existingSummary := getSessionSummary sessionId userId in
           match existingSummary with
           | Some existing =>
               ret (Json200 {| success := true; summary := existing;
                               message := Some "Summary already exists";
                               metadata := summary_metadata req sessionId |})
           | None => summary_generate userId sessionId
           end
         else summary_generate userId sessionId
     end)
    (fun msg => ret (JsonError 500 msg)).

End Server.

(** ** The recording hook ([useRealTimeTranscription]) *)

(** [response.statusText] for the statuses the routes answer with. *)
Definition statusText (status : nat) : string :=
  if (status =? 400)%nat then "Bad Request"
  else if (status =? 401)%nat then "Unauthorized"
  else if (status =? 404)%nat then "Not Found"
  else if (status =? 500)%nat then "Internal Server Error"
  else "".

(** What [onTranscription] receives. *)
Record TranscriptionResult := {
  ui_id : string;
  ui_text : string;
  ui_confidence : Q;
  ui_timestamp : Z;
  ui_duration : option Q
}.

(** State of the hook that the pipeline writes: [error] and the calls made
    to [onTranscription], oldest first. *)
Record Hook := {
  hook_error : option string;
  hook_delivered : list TranscriptionResult
}.



Section Recording.

Context (fl : Q -> Q)
        (audioContextSupported : bool)
        (readAsArrayBuffer : Blob -> option (list byte))
        (decodeAudioData : list byte -> option (list Q)).

Context (latency : Call -> N)
        (whisper : Blob -> option Transcription).

(** The signed-in user ([getToken]) and the session of the hook. *)
Context (token : option string) (sessionId : string).

(** [transcribeAudio] up to the [fetch] of [/api/transcribe]: the request
    sent, or [None] when the chunk is empty or the gate rejects it. *)
Definition transcribeAudio_request (audioBlob : Blob) : option TranscribeForm :=
  if (blob_size audioBlob =? 0)%nat then None
  else if negb (checkAudioVolume fl audioContextSupported readAsArrayBuffer
                  decodeAudioData audioBlob)
  then None
  else Some {| form_audio := Some audioBlob; form_sessionId := Some sessionId |}.

(** The body that the hook posts to save a transcription. *)
Definition save_body (transcription : TranscriptionResult) (now : Z)
    (result : TranscribeResult) : SaveBody :=
  {| body_text := ui_text transcription;
     body_confidence := Some (ui_confidence transcription);
     body_timestamp := Some (ui_timestamp transcription);
     body_speaker := Some "user";
     body_duration := ui_duration transcription;
     body_chunkIndex := Some (unix_seconds now);
     body_audioUrl := audioUrl (res_debug result) |}.

(** [transcribeAudio] from the moment the response of [/api/transcribe]
    arrives. The hook's own state is returned next to the world. *)
Definition transcribeAudio_response (response : Http TranscribeResult) (hook : Hook)
  : M Hook :=
  match response with
  | JsonError status _ =>
      (* [!response.ok]: thrown and caught by the outer [catch] *)
      ret {| hook_error := Some ("Transcription failed: " ++ statusText status);
             hook_delivered := hook_delivered hook |}
  | Json200 result =>
      if JS.truthy (res_text result) && JS.truthy (JS.trim (res_text result)) then
        let* now := Date_now in
        let transcription :=
          {| ui_id := "transcription-" ++ JS.Z_toString now;
             ui_text := res_text result;
             ui_confidence := or_number (Some (res_confidence result)) (9 # 10);
             ui_timestamp := res_timestamp result;
             ui_duration := res_duration result |} in
        let* _ :=
          try_catch
            (let* saveResponse :=
               transcriptions_POST token sessionId
                 (save_body transcription now result) in
             ret tt)
            (fun _ => ret tt) in
        ret {| hook_error := hook_error hook;
               hook_delivered := hook_delivered hook ++ [transcription] |}
      else ret hook
  end.

(** One chunk through the whole pipeline, with nothing else in between. *)
Definition transcribeAudio (audioBlob : Blob) (hook : Hook) : M Hook :=
  match transcribeAudio_request audioBlob with
  | None => ret hook
  | Some form =>
      let* response := transcribe_POST latency whisper token form in
      transcribeAudio_response response hook
  end.




End Recording.


(** ** A reading of [JSON.parse]

    A recursive-descent reader of the JSON grammar (ECMA-404) on ASCII
    text, used where a concrete [JSON.parse] is needed. *)

Module JsonText.

Definition dquote : ascii := "034"%char.
Definition backslash : ascii := "092"%char.

(** JSON white space: space, TAB, LF and CR. *)
Definition is_json_ws (c : ascii) : bool :=
  let n := nat_of_ascii c in
  (n =? 32)%nat || (n =? 9)%nat || (n =? 10)%nat || (n =? 13)%nat.

Fixpoint skip (s : string) : string :=
  match s with
  | EmptyString => EmptyString
  | String c r => if is_json_ws c then skip r else s
  end.

Definition is_digit (c : ascii) : bool :=
  (48 <=? nat_of_ascii c)%nat && (nat_of_ascii c <=? 57)%nat.

Definition is_hex (c : ascii) : bool :=
  let n := nat_of_ascii c in
  is_digit c || ((65 <=? n)%nat && (n <=? 70)%nat) || ((97 <=? n)%nat && (n <=? 102)%nat).

(** The longest prefix of digits, and the rest. *)
Fixpoint digits (s : string) : string * string :=
  match s with
  | EmptyString => (EmptyString, EmptyString)
  | String c r =>
      if is_digit c then let '(d, rest) := digits r in (String c d, rest)
      else (EmptyString, s)
  end.

(** [int]: a single 0, or a digit 1-9 followed by digits. *)
Definition read_int (s : string) : option (string * string) :=
  match s with
  | String c r =>
      if Ascii.eqb c "0"%char then Some (String c EmptyString, r)
      else if is_digit c then let '(d, rest) := digits r in Some (String c d, rest)
      else None
  | EmptyString => None
  end.

Definition read_frac (s : string) : option (string * string) :=
  match s with
  | String c r =>
      if Ascii.eqb c "."%char then
        match digits r with
        | (EmptyString, _) => None
        | (d, rest) => Some (String c d, rest)
        end
      else Some (EmptyString, s)
  | EmptyString => Some (EmptyString, s)
  end.

Definition read_sign (s : string) : string * string :=
  match s with
  | String c r =>
      if Ascii.eqb c "+"%char || Ascii.eqb c "-"%char
      then (String c EmptyString, r) else (EmptyString, s)
  | EmptyString => (EmptyString, s)
  end.

Definition read_exp (s : string) : option (string * string) :=
  match s with
  | String c r =>
      if Ascii.eqb c "e"%char || Ascii.eqb c "E"%char then
        let '(sg, r1) := read_sign r in
        match digits r1 with
        | (EmptyString, _) => None
        | (d, rest) => Some (String c (sg ++ d), rest)
        end
      else Some (EmptyString, s)
  | EmptyString => Some (EmptyString, s)
  end.

Definition read_number (s : string) : option (string * string) :=
  let '(minus, r0) :=
    match s with
    | String c r => if Ascii.eqb c "-"%char then (String c EmptyString, r) else (EmptyString, s)
    | EmptyString => (EmptyString, s)
    end in
  match read_int r0 with
  | None => None
  | Some (i, r1) =>
      match read_frac r1 with
      | None => None
      | Some (f, r2) =>
          match read_exp r2 with
          | None => None
          | Some (e, r3) => Some (minus ++ i ++ f ++ e, r3)
          end
      end
  end.

Definition hex_value (c : ascii) : nat :=
  let n := nat_of_ascii c in
  if is_digit c then n - 48
  else if (97 <=? n)%nat then n - 87 else n - 55.

(** The characters of a string after its opening quote, up to the closing
    quote. A code unit above 255 written as [\uXXXX] is kept modulo 256. *)
Fixpoint read_chars (s : string) : option (string * string) :=
  match s with
  | EmptyString => None
  | String c r =>
      if Ascii.eqb c dquote then Some (EmptyString, r)
      else if (nat_of_ascii c <? 32)%nat then None
      else if Ascii.eqb c backslash then
        match r with
        | String e r' =>
            let simple (x : ascii) :=
              match read_chars r' with
              | Some (t, rest) => Some (String x t, rest)
              | None => None
              end in
            if Ascii.eqb e dquote then simple dquote
            else if Ascii.eqb e backslash then simple backslash
            else if Ascii.eqb e "/"%char then simple "/"%char
            else if Ascii.eqb e "b"%char then simple "008"%char
            else if Ascii.eqb e "f"%char then simple "012"%char
            else if Ascii.eqb e "n"%char then simple "010"%char
            else if Ascii.eqb e "r"%char then simple "013"%char
            else if Ascii.eqb e "t"%char then simple "009"%char
            else if Ascii.eqb e "u"%char then
              match r' with
              | String h1 (String h2 (String h3 (String h4 r''))) =>
                  if is_hex h1 && is_hex h2 && is_hex h3 && is_hex h4 then
                    match read_chars r'' with
                    | Some (t, rest) =>
                        Some (String (ascii_of_nat (16 * hex_value h3 + hex_value h4)) t, rest)
                    | None => None
                    end
                  else None
              | _ => None
              end
            else None
        | EmptyString => None
        end
      else
        match read_chars r with
        | Some (t, rest) => Some (String c t, rest)
        | None => None
        end
  end.

Fixpoint read_value (fuel : nat) (s : string) : option (Json * string) :=
  match fuel with
  | O => None
  | S f =>
      match skip s with
      | EmptyString => None
      | String c r as s' =>
          if Ascii.eqb c "{"%char then
            match skip r with
            | String c' r' =>
                if Ascii.eqb c' "}"%char then Some (JObject [], r')
                else read_members f (skip r) []
            | EmptyString => None
            end
          else if Ascii.eqb c "["%char then
            match skip r with
            | String c' r' =>
                if Ascii.eqb c' "]"%char then Some (JArray [], r')
                else read_elements f (skip r) []
            | EmptyString => None
            end
          else if Ascii.eqb c dquote then
            match read_chars r with
            | Some (t, rest) => Some (JString t, rest)
            | None => None
            end
          else if JS.startsWith "true" s' then Some (JBool true, JS.drop 4 s')
          else if JS.startsWith "false" s' then Some (JBool false, JS.drop 5 s')
          else if JS.startsWith "null" s' then Some (JNull, JS.drop 4 s')
          else
            match read_number s' with
            | Some (lexeme, rest) => Some (JNumber lexeme, rest)
            | None => None
            end
      end
  end
with read_elements (fuel : nat) (s : string) (acc : list Json) : option (Json * string) :=
  match fuel with
  | O => None
  | S f =>
      match read_value f s with
      | Some (v, rest) =>
          match skip rest with
          | String c r =>
              if Ascii.eqb c ","%char then read_elements f r (acc ++ [v])
              else if Ascii.eqb c "]"%char then Some (JArray (acc ++ [v]), r)
              else None
          | EmptyString => None
          end
      | None => None
      end
  end
with read_members (fuel : nat) (s : string) (acc : list (string * Json))
  : option (Json * string) :=
  match fuel with
  | O => None
  | S f =>
      match skip s with
      | String q r =>
          if Ascii.eqb q dquote then
            match read_chars r with
            | Some (key, rest) =>
                match skip rest with
                | String c r1 =>
                    if Ascii.eqb c ":"%char then
                      match read_value f r1 with
                      | Some (v, rest') =>
                          match skip rest' with
                          | String c' r2 =>
                              if Ascii.eqb c' ","%char
                              then read_members f r2 (assoc_set acc key v)
                              else if Ascii.eqb c' "}"%char
                              then Some (JObject (assoc_set acc key v), r2)
                              else None
                          | EmptyString => None
                          end
                      | None => None
                      end
                    else None
                | EmptyString => None
                end
            | None => None
            end
          else None
      | EmptyString => None
      end
  end.

(** The whole text is one value between optional white space. Every call
    but the first consumes a character, so the fuel suffices. *)
Definition json_parse (s : string) : option Json :=
  match read_value (2 * String.length s + 4) s with
  | Some (v, rest) =>
      match skip rest with
      | EmptyString => Some v
      | String _ _ => None
      end
  | None => None
  end.

End JsonText.

(** ** Vocabulary of the statements about the routes *)

(** The bucket takes an upload under [key]: it is available and the key is
    free. *)
Definition upload_accepted (w : World) (key : string) : bool :=
  w_storage_up w && bool_decide (w_blobs w !! key = None).

(** The caller does not own the session: there is no such session, or it
    belongs to someone else. *)
Definition NotOwned (w : World) (sessionId userId : string) : Prop :=
  forall s, w_sessions w !! sessionId = Some s -> clerk_user_id s <> userId.

(** The rows of a session, in insertion order. *)
Definition rows_of (w : World) (sessionId : string) : list TranscriptionRow :=
  List.filter (fun r => String.eqb (session_id r) sessionId) (w_transcriptions w).

(** The row with its chunk index replaced. *)
Definition with_chunk_index (f : TranscriptionRow -> option Z) (r : TranscriptionRow)
  : TranscriptionRow :=
  {| session_id := session_id r; text := text r; confidence := confidence r;
     timestamp := timestamp r; speaker := speaker r; duration := duration r;
     chunk_index := f r; audio_url := audio_url r; created_at := created_at r |}.

(** Playback order as the specification words it: chunk index ascending,
    then time stamp ascending; rows without an index come last. *)
Definition playback_le (a b : TranscriptionRow) : Prop :=
  match chunk_index a, chunk_index b with
  | Some i, Some j => (i < j)%Z \/ (i = j /\ (timestamp a <= timestamp b)%Z)
  | Some _, None => True
  | None, Some _ => False
  | None, None => (timestamp a <= timestamp b)%Z
  end.

(** Every character of [s] is white space. *)
Definition all_ws (s : string) : Prop := JS.trimStart s = EmptyString.

(** [s] holds a fenced block whose content, white space apart, is [g]. *)
Definition FencedJson (s g : string) : Prop :=
  exists a ws1 ws2 b,
    s = a ++ "```json" ++ ws1 ++ g ++ ws2 ++ "```" ++ b /\ all_ws ws1 /\ all_ws ws2.

(** [c] is the part of [s] from its first opening brace to its last closing
    brace. *)
Definition BraceDelimited (s c : string) : Prop :=
  exists a body b,
    s = a ++ c ++ b /\ c = "{" ++ body ++ "}"
    /\ ~ Contains a "{" /\ ~ Contains b "}".



(** The value of a computation, and the world it leaves. *)
Definition value_of {A} (m : M A) (w : World) : Res A := fst (m w).
Definition world_after {A} (m : M A) (w : World) : World := snd (m w).

(** ** A concrete setting for the examples *)

Module Lab.

(** Upload, speech-to-text and chat take 40 ms, 900 ms and 2500 ms. *)
Definition latency (c : Call) : N :=
  match c with
  | StorageUpload _ _ => 40
  | WhisperTranscribe _ => 900
  | ChatCompletion _ => 2500
  end%N.

(** A chunk whose bytes spell [label]. *)
Definition chunk (label : string) : Blob :=
  {| blob_type := "audio/webm"; blob_bytes := list_byte_of_string label |}.

(** A speech-to-text capability that hears [said] in every chunk. *)
Definition whisper_says (said : string) (audio : Blob) : option Transcription :=
  Some {| tr_text := said; tr_duration := Some 3; tr_words := None |}.

(** A speech-to-text capability that hears what the bytes spell. *)
Definition whisper_reads (audio : Blob) : option Transcription :=
  Some {| tr_text := string_of_list_byte (blob_bytes audio);
          tr_duration := Some 3; tr_words := None |}.

(** A browser that decodes every chunk to two loud samples. *)
Definition fl (q : Q) : Q := q.
Definition readAsArrayBuffer (b : Blob) : option (list byte) := Some (blob_bytes b).
Definition decodeAudioData (_ : list byte) : option (list Q) := Some [1 # 2; - (1 # 4)]%Q.

Definition form (audio : Blob) (sessionId : string) : TranscribeForm :=
  {| form_audio := Some audio; form_sessionId := Some sessionId |}.

Definition session_of (userId : string) : SessionRow :=
  {| scenario_type := "in_person"; clerk_user_id := userId; status := "active" |}.

(** User [u1] owns session [s1]; the stores are otherwise empty. *)
Definition world0 : World :=
  {| w_now := 1700000000000;
     w_storage_up := true;
     w_blobs := ∅;
     w_sessions := {[ "s1" := session_of "u1" ]};
     w_transcriptions := [];
     w_summaries := ∅;
     w_calls := [] |}.

Definition hook0 : Hook := {| hook_error := None; hook_delivered := [] |}.

Definition row (sessionId said : string) (chunkIndex at_ : Z) : TranscriptionRow :=
  {| session_id := sessionId; text := said; confidence := 95 # 100;
     timestamp := at_; speaker := "user"; duration := Some 3%Q;
     chunk_index := Some chunkIndex; audio_url := None; created_at := at_ |}.

(** Session [s1] with two rows whose time stamps run against their chunk
    indices, and session [s2] of user [u2] with one row. *)
Definition world_rows : World :=
  {| w_now := 1700000020000;
     w_storage_up := true;
     w_blobs := ∅;
     w_sessions := {[ "s1" := session_of "u1"; "s2" := session_of "u2" ]};
     w_transcriptions :=
       [ row "s1" "first" 1700000001 1700000009000;
         row "s2" "private" 1700000003 1700000003000;
         row "s1" "second" 1700000004 1700000006000 ];
     w_summaries := ∅;
     w_calls := [] |}.

Definition summary0 : SummaryRow :=
  {| key_topics := JArray [JString "housing"];
     main_concerns := JArray [JString "rent arrears"];
     progress_notes := JString "Client met the landlord.";
     next_steps := JArray [JString "Call the housing office"];
     risk_assessment := JString "Low";
     overall_summary := JString "A first meeting about housing.";
     session_duration_minutes := JNumber "0";
     transcript_length := JNumber "31";
     transcription_count := 1;
     summary_confidence := 90 # 100;
     summary_created_at := 1700000010000;
     summary_updated_at := 1700000010000 |}.

(** Session [s1] has a stored summary and no transcript record. *)
Definition world_summary_only : World :=
  {| w_now := 1700000020000;
     w_storage_up := true;
     w_blobs := ∅;
     w_sessions := {[ "s1" := session_of "u1" ]};
     w_transcriptions := [];
     w_summaries := {[ "s1" := summary0 ]};
     w_calls := [] |}.

(** Session [s1] has a stored summary and one transcript record. *)
Definition world_summary : World :=
  {| w_now := 1700000020000;
     w_storage_up := true;
     w_blobs := ∅;
     w_sessions := {[ "s1" := session_of "u1" ]};
     w_transcriptions :=
       [ row "s1" "I met the landlord on Tuesday." 1700000001 1700000001000 ];
     w_summaries := {[ "s1" := summary0 ]};
     w_calls := [] |}.

(** Session [s1] has one transcript record and no summary yet. *)
Definition world_transcript : World :=
  {| w_now := 1700000020000;
     w_storage_up := true;
     w_blobs := ∅;
     w_sessions := {[ "s1" := session_of "u1" ]};
     w_transcriptions :=
       [ row "s1" "I met the landlord on Tuesday." 1700000001 1700000001000 ];
     w_summaries := ∅;
     w_calls := [] |}.

(** A text-generation capability that answers [answer] to every prompt,
    and a prompt text that is the transcript alone. *)
Definition chat_says (answer : string) (prompt : string) : option (option string) :=
  Some (Some answer).

Definition promptText (scenario : string) (minutes : Z) (transcript : string) : string :=
  transcript.

Definition forced : SummaryRequest :=
  {| includeMetadata := None; forceRegenerate := Some true |}.

Definition unforced : SummaryRequest :=
  {| includeMetadata := None; forceRegenerate := None |}.






End Lab.

(** ** The other handlers of the summary route and of [AISummaryService] *)

(** The fields a manual edit may carry
    ([Partial<Omit<AISummary, 'session_duration_minutes' | 'transcript_length'>>]);
    [None] stands for a key that is absent. *)
Record SummaryUpdates := {
  upd_key_topics : option Json;
  upd_main_concerns : option Json;
  upd_progress_notes : option Json;
  upd_next_steps : option Json;
  upd_risk_assessment : option Json;
  upd_overall_summary : option Json
}.

(** [{ ...updates, updated_at: new Date().toISOString() }] applied to a row. *)
Definition apply_updates (updates : SummaryUpdates) (now : Z) (row : SummaryRow)
  : SummaryRow :=
  {| key_topics := default (key_topics row) (upd_key_topics updates);
     main_concerns := default (main_concerns row) (upd_main_concerns updates);
     progress_notes := default (progress_notes row) (upd_progress_notes updates);
     next_steps := default (next_steps row) (upd_next_steps updates);
     risk_assessment := default (risk_assessment row) (upd_risk_assessment updates);
     overall_summary := default (overall_summary row) (upd_overall_summary updates);
     session_duration_minutes := session_duration_minutes row;
     transcript_length := transcript_length row;
     transcription_count := transcription_count row;
     summary_confidence := summary_confidence row;
     summary_created_at := summary_created_at row;
     summary_updated_at := now |}.

Definition is_null (j : option Json) : bool :=
  match j with Some JNull => true | _ => false end.

(** The store refuses [null] in a column that may not be null. *)
Definition updates_storable (updates : SummaryUpdates) : bool :=
  negb (is_null (upd_key_topics updates) || is_null (upd_main_concerns updates)
        || is_null (upd_progress_notes updates) || is_null (upd_next_steps updates)
        || is_null (upd_risk_assessment updates) || is_null (upd_overall_summary updates)).

Definition set_sessions (s : gmap string SessionRow) (w : World) : World :=
  {| w_now := w_now w; w_storage_up := w_storage_up w; w_blobs := w_blobs w;
     w_sessions := s; w_transcriptions := w_transcriptions w;
     w_summaries := w_summaries w; w_calls := w_calls w |}.

(** The session is found for the user, as [select_session] finds it. *)
Definition owns (w : World) (userId sessionId : string) : bool :=
  match w_sessions w !! sessionId with
  | Some s => String.eqb (clerk_user_id s) userId
  | None => false
  end.

Section SummaryService.

Context (latency : Call -> N) (chat : string -> option (option string))
        (JSON_parse : string -> option Json)
        (promptText : string -> Z -> string -> string).

(** [updateSessionSummary]: [.update(..).eq('session_id', ..).select().single()]
    carries an error when no row matches. *)
Definition updateSessionSummary (sessionId userId : string) (updates : SummaryUpdates)
  : M SummaryRow :=
  let* session := select_session sessionId userId in
  match session with
  | None => throw "Session not found or unauthorized"
  | Some _ =>
      let* now := Date_now in
      let* summaries := gets w_summaries in
      match summaries !! sessionId with
      | Some row =>
          if updates_storable updates then
            let updated := apply_updates updates now row in
            let* _ := modify (set_summaries (<[sessionId := updated]> summaries)) in
            ret updated
          else throw "Failed to update summary"
      | None => throw "Failed to update summary"
      end
  end.

(** [deleteSessionSummary]: deleting no row is no error. *)
Definition deleteSessionSummary (sessionId userId : string) : M unit :=
  let* session := select_session sessionId userId in
  match session with
  | None => throw "Session not found or unauthorized"
  | Some _ =>
      modify (fun w => set_summaries (delete sessionId (w_summaries w)) w)
  end.

(** [GET /api/sessions/:id/summary] *)
Definition summary_GET (userId : option string) (sessionId : string)
  : M (Http SummaryResponse) :=
  try_catch
    (match userId with
     | None => ret (JsonError 401 "Unauthorized")
     | Some userId =>
         if negb (JS.truthy sessionId) then ret (JsonError 400 "Session ID required")
         else
           let* found := getSessionSummary sessionId userId in
           match found with
           | None => ret (JsonError 404 "Summary not found")
           | Some row =>
               ret (Json200 {| success := true; summary := row;
                               message := None; metadata := None |})
           end
     end)
    (fun msg => ret (JsonError 500 msg)).

(** [PATCH /api/sessions/:id/summary]; [updates] is [None] when the body has
    no [updates] object. *)
Definition summary_PATCH (userId : option string) (sessionId : string)
    (updates : option SummaryUpdates) : M (Http SummaryResponse) :=
  try_catch
    (match userId with
     | None => ret (JsonError 401 "Unauthorized")
     | Some userId =>
         if negb (JS.truthy sessionId) then ret (JsonError 400 "Session ID required")
         else
           match updates with
           | None => ret (JsonError 400 "Updates object required")
           | Some updates =>
               let* updatedSummary := updateSessionSummary sessionId userId updates in
               ret (Json200 {| success := true; summary := updatedSummary;
                               message := None; metadata := None |})
           end
     end)
    (fun msg => ret (JsonError 500 msg)).

(** [DELETE /api/sessions/:id/summary]; the body of a success is its
    message. *)
Definition summary_DELETE (userId : option string) (sessionId : string)
  : M (Http string) :=
  try_catch
    (match userId with
     | None => ret (JsonError 401 "Unauthorized")
     | Some userId =>
         if negb (JS.truthy sessionId) then ret (JsonError 400 "Session ID required")
         else
           let* _ := deleteSessionSummary sessionId userId in
           ret (Json200 "Summary deleted successfully")
     end)
    (fun msg => ret (JsonError 500 msg)).

End SummaryService.

(** ** [calculateSessionDuration] *)

(** [TranscriptionData] of [lib/ai-summary.ts]. *)
Record TranscriptionData := {
  td_text : string;
  td_timestamp : Z;
  td_speaker : string
}.

(** [Math.round]: the nearest integer, halves upwards. *)
Definition Math_round (q : Q) : Z := Qfloor (q + (1 # 2)).

(** Minutes between the first and the last transcription. *)
Definition calculateSessionDuration (transcriptions : list TranscriptionData) : Z :=
  match transcriptions with
  | [] => 0
  | first :: _ =>
      let firstTimestamp := td_timestamp first in
      let lastTimestamp := td_timestamp (List.last transcriptions first) in
      Math_round (inject_Z (lastTimestamp - firstTimestamp) / inject_Z (1000 * 60))
  end.

(** ** [DELETE /api/sessions/:id] *)

(** Deleting a session row deletes the rows that refer to it
    ([onDelete: Cascade] of the schema). *)
Definition delete_session_cascade (sessionId : string) (w : World) : World :=
  set_sessions (delete sessionId (w_sessions w))
    (set_transcriptions
       (List.filter (fun r => negb (String.eqb (session_id r) sessionId))
          (w_transcriptions w))
       (set_summaries (delete sessionId (w_summaries w)) w)).

(** [.delete().eq('id', sessionId).eq('clerk_user_id', userId)]: a delete
    that matches no row is no error. The body of a success is
    [{ success: true }]. *)
Definition session_DELETE (userId : option string) (sessionId : string)
  : M (Http bool) :=
  try_catch
    (match userId with
     | None => ret (JsonError 401 "Unauthorized")
     | Some userId =>
         let* _ := modify (fun w => if owns w userId sessionId
                                    then delete_session_cascade sessionId w
                                    else w) in
         ret (Json200 true)
     end)
    (fun _ => ret (JsonError 500 "Failed to delete session")).

(** ** The noise gate of [startRecording] *)

(** [a < b] on numbers. *)
Definition Qltb (a b : Q) : bool := negb (Qle_bool b a).

Section NoiseGate.

(** Rounding of a literal or of an arithmetic result to a double, and
    [Math.sqrt]. *)
Context (fl : Q -> Q) (sqrt : Q -> Q).

(** [const noiseGateThreshold = 0.01] *)
Definition noiseGateThreshold : Q := fl (1 # 100).

Definition sum_of_squares (inputData : list Q) : Q :=
  fold_left (fun sum x => fl (sum + fl (x * x))) inputData 0.

(** [Math.sqrt(sum / inputData.length)]; [None] stands for the NaN of an
    empty buffer, with which every comparison is false. *)
Definition rms (inputData : list Q) : option Q :=
  match inputData with
  | [] => None
  | _ :: _ =>
      Some (sqrt (fl (sum_of_squares inputData
                      / inject_Z (Z.of_nat (List.length inputData)))))
  end.

(** The gate after a buffer: it opens above the threshold, closes below
    half of it, and keeps its state in between. *)
Definition gate_after (isGateOpen : bool) (inputData : list Q) : bool :=
  match rms inputData with
  | None => isGateOpen
  | Some r =>
      if Qgtb r noiseGateThreshold then true
      else if Qltb r (fl (noiseGateThreshold * (1 # 2))) then false
      else isGateOpen
  end.

(** [processor.onaudioprocess]: the new state of the gate and the output
    buffer. *)
Definition onaudioprocess (isGateOpen : bool) (inputData : list Q) : bool * list Q :=
  let gate := gate_after isGateOpen inputData in
  (gate, List.map (fun x => if gate then x else 0) inputData).

(** The output buffers of a run of input buffers, and the gate at the end. *)
Fixpoint process_buffers (isGateOpen : bool) (buffers : list (list Q))
  : bool * list (list Q) :=
  match buffers with
  | [] => (isGateOpen, [])
  | inputData :: rest =>
      let '(gate, outputData) := onaudioprocess isGateOpen inputData in
      let '(final, outputs) := process_buffers gate rest in
      (final, outputData :: outputs)
  end.

End NoiseGate.

(** A buffer of silence of the length of [inputData]. *)
Definition silence (inputData : list Q) : list Q := List.map (fun _ => 0) inputData.

(** ** The capture loop of [startRecording] and [stopRecording] *)

Inductive RecordingState := inactive | recording.

(** The media recorder with the data it has gathered since [start()], the
    chunks of [chunksRef], whether the interval is set, and the blobs handed
    to [transcribeAudio], oldest first. *)
Record Capture := {
  mr_state : RecordingState;
  mr_data : list byte;
  cap_chunks : list (list byte);
  cap_interval : bool;
  cap_emitted : list Blob
}.

Inductive CaptureEvent :=
| Audio (bytes : list byte)      (* the stream delivers encoded audio *)
| IntervalTick                   (* [chunkDuration] has passed *)
| StopRecording.                 (* [stopRecording()] *)

(** [mediaRecorder.ondataavailable] *)
Definition ondataavailable (data : list byte) (c : Capture) : Capture :=
  {| mr_state := mr_state c; mr_data := mr_data c;
     cap_chunks := if (0 <? List.length data)%nat then cap_chunks c ++ [data]
                   else cap_chunks c;
     cap_interval := cap_interval c; cap_emitted := cap_emitted c |}.

(** [mediaRecorder.onstop] *)
Definition onstop (c : Capture) : Capture :=
  if (0 <? List.length (cap_chunks c))%nat then
    {| mr_state := mr_state c; mr_data := mr_data c;
       cap_chunks := [];
       cap_interval := cap_interval c;
       cap_emitted := cap_emitted c
                      ++ [{| blob_type := "audio/webm";
                             blob_bytes := List.concat (cap_chunks c) |}] |}
  else c.

(** [mediaRecorder.stop()]: the recorder becomes inactive and delivers the
    gathered data, then the stop event. *)
Definition mr_stop (c : Capture) : Capture :=
  onstop (ondataavailable (mr_data c)
            {| mr_state := inactive; mr_data := [];
               cap_chunks := cap_chunks c; cap_interval := cap_interval c;
               cap_emitted := cap_emitted c |}).

(** [mediaRecorder.start()] *)
Definition mr_start (c : Capture) : Capture :=
  {| mr_state := recording; mr_data := [];
     cap_chunks := cap_chunks c; cap_interval := cap_interval c;
     cap_emitted := cap_emitted c |}.

(** The state [startRecording] leaves. *)
Definition startRecording : Capture :=
  {| mr_state := recording; mr_data := []; cap_chunks := [];
     cap_interval := true; cap_emitted := [] |}.

Definition capture_step (c : Capture) (e : CaptureEvent) : Capture :=
  match e with
  | Audio bytes =>
      match mr_state c with
      | recording =>
          {| mr_state := recording; mr_data := mr_data c ++ bytes;
             cap_chunks := cap_chunks c; cap_interval := cap_interval c;
             cap_emitted := cap_emitted c |}
      | inactive => c
      end
  | IntervalTick =>
      if cap_interval c then
        match mr_state c with
        | recording => mr_start (mr_stop c)
        | inactive => c
        end
      else c
  | StopRecording =>
      let c' := {| mr_state := mr_state c; mr_data := mr_data c;
                   cap_chunks := cap_chunks c; cap_interval := false;
                   cap_emitted := cap_emitted c |} in
      match mr_state c with
      | recording => mr_stop c'
      | inactive => c'
      end
  end.

Definition capture_run (c : Capture) (events : list CaptureEvent) : Capture :=
  fold_left capture_step events c.

(** The audio delivered while the recorder records: everything before the
    first [StopRecording]. *)
Fixpoint captured (events : list CaptureEvent) : list byte :=
  match events with
  | [] => []
  | Audio bytes :: rest => bytes ++ captured rest
  | IntervalTick :: rest => captured rest
  | StopRecording :: _ => []
  end.

(** ** [formatDuration] of the session room *)

(** [s.padStart(2, '0')] *)
Definition padStart2 (s : string) : string :=
  match String.length s with
  | O => "00"
  | S O => "0" ++ s
  | S (S _) => s
  end.

Definition formatDuration (seconds : N) : string :=
  let hours := (seconds / 3600)%N in
  let minutes := ((seconds mod 3600) / 60)%N in
  let secs := (seconds mod 60)%N in
  if (0 <? hours)%N then
    JS.decimal hours ++ ":" ++ padStart2 (JS.decimal minutes) ++ ":"
      ++ padStart2 (JS.decimal secs)
  else JS.decimal minutes ++ ":" ++ padStart2 (JS.decimal secs).

(** ** Vocabulary of the further statements *)

(** The number a string of decimal digits denotes. *)
Definition digit_value (c : ascii) : N := N.of_nat (nat_of_ascii c - 48).

Fixpoint decimal_value_from (acc : N) (s : string) : N :=
  match s with
  | EmptyString => acc
  | String c r => decimal_value_from (10 * acc + digit_value c) r
  end.

Definition decimal_value (s : string) : N := decimal_value_from 0 s.

(** Reading back a formatted duration: the fields between the colons, as
    hours, minutes and seconds. *)
Fixpoint split_colon (cur : string) (s : string) : list string :=
  match s with
  | EmptyString => [cur]
  | String c r =>
      if Ascii.eqb c ":"%char then cur :: split_colon EmptyString r
      else split_colon (cur ++ String c EmptyString) r
  end.

Definition parseDuration (s : string) : option N :=
  match split_colon EmptyString s with
  | [m; sec] => Some (60 * decimal_value m + decimal_value sec)%N
  | [h; m; sec] => Some (3600 * decimal_value h + 60 * decimal_value m + decimal_value sec)%N
  | _ => None
  end.

(** The worlds a summary generation can leave: the one it found, the one
    after the call to the text-generation capability, or that one with a
    row added for a session that had none. *)
Definition after_generation (latency : Call -> N) (sessionId : string)
    (w w' : World) : Prop :=
  w' = w
  \/ exists prompt,
       w' = after_chat latency prompt w
       \/ (w_summaries w !! sessionId = None
           /\ exists row,
                w' = set_summaries (<[sessionId := row]> (w_summaries w))
                       (after_chat latency prompt w)).

(** A phrase that is not empty and neither begins nor ends with white
    space. *)
Fixpoint last_char (s : string) : option ascii :=
  match s with
  | EmptyString => None
  | String c EmptyString => Some c
  | String _ r => last_char r
  end.

Definition solid (p : string) : bool :=
  match p, last_char p with
  | String a _, Some z => negb (JS.is_ws a) && negb (JS.is_ws z)
  | _, _ => false
  end.

(** The rule of the hallucination filter, in words: a short text with a
    listed phrase, three times "thank you", a marker of a captioning
    product, an advertising pattern, or the advertiser's phrase. *)
Definition FilterRule (text : string) : Prop :=
  ((String.length text < 100)%nat
   /\ exists phrase, In phrase hallucinations /\ ContainsPhrase text phrase)
  \/ (3 <= occurrences "thank you" (JS.toLowerCase text))%nat
  \/ ContainsPhrase text "otter.ai"
  \/ ContainsPhrase text "transcribed by"
  \/ AdvertisingPattern text
  \/ ContainsPhrase text "supplies needs".

(** ** Further examples *)

Module Examples.

(** A JSON text written with single quotes for readability. *)
Definition json_text (s : string) : string :=
  JS.join EmptyString
    (List.map (fun c => String (if Ascii.eqb c "'"%char then JsonText.dquote else c)
                          EmptyString)
       (list_ascii_of_string s)).

(** An answer of the text-generation capability, wrapped in a sentence. *)
Definition answer : string :=
  json_text "Here is the summary: {'key_topics': ['housing'], 'main_concerns': ['rent arrears'], 'progress_notes': 'Client met the landlord.', 'next_steps': ['Call the housing office'], 'risk_assessment': 'Low', 'overall_summary': 'A first meeting about housing.', 'session_duration_minutes': 45} I hope this helps.".

Definition answer_fields : list (string * Json) :=
  [ ("key_topics", JArray [JString "housing"]);
    ("main_concerns", JArray [JString "rent arrears"]);
    ("progress_notes", JString "Client met the landlord.");
    ("next_steps", JArray [JString "Call the housing office"]);
    ("risk_assessment", JString "Low");
    ("overall_summary", JString "A first meeting about housing.");
    ("session_duration_minutes", JNumber "45") ].

(** No edit. *)
Definition no_updates : SummaryUpdates :=
  {| upd_key_topics := None; upd_main_concerns := None;
     upd_progress_notes := None; upd_next_steps := None;
     upd_risk_assessment := None; upd_overall_summary := None |}.

(** [Math.sqrt] to six decimals, rounded down. *)
Definition sqrt6 (q : Q) : Q :=
  Z.sqrt (Qnum q * 10 ^ 12 / Z.pos (Qden q)) # 10 ^ 6.

(** A loud buffer, a faint one and a quiet one. *)
Definition loud : list Q := [1 # 2; -1 # 2; 1 # 4; -1 # 4].
Definition faint : list Q := [1 # 125; -1 # 125; 1 # 125; -1 # 125].
Definition quiet : list Q := [1 # 1000; 0; -1 # 1000; 0].

End Examples.


(** * Properties *)

(** ** Strings *)

Example toLowerCase_ex : JS.toLowerCase "Thank YOU, Bye!" = "thank you, bye!".
Proof. reflexivity. Qed.

Example trim_ex : JS.trim "  a b  " = "a b".
Proof. reflexivity. Qed.

Example matchCount_ex :
  JS.matchCount_i "thank you" "thank you thank youthank you." = 3%nat.
Proof. reflexivity. Qed.

Example decimal_ex : JS.Z_toString 1700000000123 = "1700000000123".
Proof. vm_compute. reflexivity. Qed.

Example lastIndexOf_ex : JS.lastIndexOf "a{b}c}" "}" = Some 5%nat.
Proof. reflexivity. Qed.

Lemma append_assoc (a b c : string) : (a ++ b) ++ c = a ++ (b ++ c).
Proof. induction a as [|x a IH]; simpl; [reflexivity | f_equal; exact IH]. Qed.

Lemma startsWith_iff (p s : string) :
  JS.startsWith p s = true <-> exists b, s = p ++ b.
Proof.
  revert s. induction p as [|a p IH]; intros s; simpl.
  - split; [intros _; now exists s | reflexivity].
  - destruct s as [|c s].
    + split; [discriminate | intros [b Hb]; discriminate].
    + rewrite andb_true_iff, Ascii.eqb_eq, IH. split.
      * intros [-> [b ->]]. now exists b.
      * intros [b Hb]. injection Hb as -> ->. split; [reflexivity | now exists b].
Qed.

Lemma startsWith_app (p s b : string) :
  JS.startsWith p s = true -> JS.startsWith p (s ++ b) = true.
Proof.
  rewrite !startsWith_iff. intros [x ->]. exists (x ++ b). apply append_assoc.
Qed.

(** [includes] decides containment. *)
Lemma includes_iff (s p : string) : JS.includes s p = true <-> Contains s p.
Proof.
  unfold Contains. induction s as [|c s IH].
  - simpl. rewrite orb_false_r, startsWith_iff. split.
    + intros [b Hb]. now exists "", b.
    + intros [a [b Hab]]. destruct a; [now exists b | discriminate].
  - cbn [JS.includes]. rewrite orb_true_iff, IH, startsWith_iff. split.
    + intros [[b Hb] | [a [b Hab]]].
      * now exists "", b.
      * exists (String c a), b. simpl. now rewrite Hab.
    + intros [a [b Hab]]. destruct a as [|x a].
      * left. now exists b.
      * right. simpl in Hab. injection Hab as _ ->. now exists a, b.
Qed.

Lemma Contains_inside (a s b p : string) : Contains s p -> Contains (a ++ s ++ b) p.
Proof.
  intros [x [y ->]]. exists (a ++ x), (y ++ b).
  now rewrite !append_assoc.
Qed.

Lemma trimStart_decomp (s : string) : exists a, s = a ++ JS.trimStart s.
Proof.
  induction s as [|c s [a IH]]; simpl.
  - now exists "".
  - destruct (JS.is_ws c).
    + exists (String c a). simpl. now rewrite <- IH.
    + now exists "".
Qed.

Lemma trimEnd_decomp (s : string) : exists b, s = JS.trimEnd s ++ b.
Proof.
  induction s as [|c s [b IH]]; simpl.
  - now exists "".
  - destruct (JS.trimEnd s) as [|x t] eqn:E.
    + destruct (JS.is_ws c).
      * now exists (String c s).
      * exists s. reflexivity.
    + exists b. simpl. simpl in IH. now rewrite <- IH.
Qed.

(** [trim] keeps a middle part of the string. *)
Lemma trim_decomp (s : string) : exists a b, s = a ++ JS.trim s ++ b.
Proof.
  unfold JS.trim. destruct (trimStart_decomp s) as [a Ha].
  destruct (trimEnd_decomp (JS.trimStart s)) as [b Hb].
  exists a, b. now rewrite <- Hb.
Qed.

Lemma Contains_trim (s p : string) : Contains (JS.trim s) p -> Contains s p.
Proof.
  intros H. destruct (trim_decomp s) as [a [b Hs]].
  rewrite Hs. now apply Contains_inside.
Qed.

Lemma lower_char_idem (c : ascii) : JS.lower_char (JS.lower_char c) = JS.lower_char c.
Proof. destruct c as [[] [] [] [] [] [] [] []]; reflexivity. Qed.

Lemma toLowerCase_idem (s : string) : JS.toLowerCase (JS.toLowerCase s) = JS.toLowerCase s.
Proof.
  induction s as [|c s IH]; simpl; [reflexivity|].
  now rewrite lower_char_idem, IH.
Qed.

Lemma lowered_cons (c : ascii) (s : string) :
  lowered (String c s) <-> JS.lower_char c = c /\ lowered s.
Proof.
  unfold lowered. simpl. split.
  - intros H. now injection H.
  - intros [-> ->]. reflexivity.
Qed.

Lemma lowered_trimStart (s : string) : lowered s -> lowered (JS.trimStart s).
Proof.
  induction s as [|c s IH]; simpl; [easy|].
  intros H. destruct (JS.is_ws c); [|exact H].
  apply IH. now apply lowered_cons in H.
Qed.

Lemma lowered_trimEnd (s : string) : lowered s -> lowered (JS.trimEnd s).
Proof.
  induction s as [|c s IH]; simpl; [easy|].
  intros H. apply lowered_cons in H as [Hc Hs]. specialize (IH Hs).
  destruct (JS.trimEnd s) as [|x t].
  - destruct (JS.is_ws c); [reflexivity|]. now apply lowered_cons.
  - now apply lowered_cons.
Qed.

Lemma lowered_trim (s : string) : lowered s -> lowered (JS.trim s).
Proof. intros H. now apply lowered_trimEnd, lowered_trimStart. Qed.

(** On lowered strings the case-insensitive prefix test is the exact one. *)
Lemma startsWith_i_lowered (p s : string) :
  lowered p -> lowered s -> JS.startsWith_i p s = JS.startsWith p s.
Proof.
  revert s. induction p as [|a p IH]; intros s Hp Hs; [reflexivity|].
  destruct s as [|c s]; [reflexivity|].
  apply lowered_cons in Hp as [Ha Hp]. apply lowered_cons in Hs as [Hc Hs].
  simpl. unfold JS.eqb_i. now rewrite Ha, Hc, IH.
Qed.

(** The scan of the global match finds at most the occurrences. *)
Lemma matchAll_le_occurrences (p s : string) (skip : nat) :
  lowered p -> lowered s -> (JS.matchAll_i_from p s skip <= occurrences p s)%nat.
Proof.
  intros Hp. revert skip. induction s as [|c s IH]; intros skip Hs.
  - simpl. lia.
  - pose proof (startsWith_i_lowered p (String c s) Hp Hs) as Hi.
    apply lowered_cons in Hs as [_ Hs].
    cbn [JS.matchAll_i_from occurrences]. destruct skip as [|k].
    + rewrite Hi. destruct (JS.startsWith p (String c s)).
      * specialize (IH (String.length p - 1)%nat Hs). lia.
      * specialize (IH 0%nat Hs). lia.
    + specialize (IH k Hs). lia.
Qed.

Lemma occurrences_app_l (p a s : string) :
  (occurrences p s <= occurrences p (a ++ s))%nat.
Proof. induction a as [|x a IH]; simpl; lia. Qed.

Lemma occurrences_app_r (p s b : string) :
  (occurrences p s <= occurrences p (s ++ b))%nat.
Proof.
  induction s as [|c s IH].
  - simpl. destruct p; simpl; [|lia].
    destruct b; simpl; lia.
  - cbn [occurrences append].
    destruct (JS.startsWith p (String c s)) eqn:E.
    + apply (startsWith_app _ _ b) in E. cbn [append] in E. rewrite E. lia.
    + destruct (JS.startsWith p (String c (s ++ b))); lia.
Qed.

Lemma occurrences_trim (p s : string) :
  (occurrences p (JS.trim s) <= occurrences p s)%nat.
Proof.
  destruct (trim_decomp s) as [a [b Hs]]. rewrite Hs at 2.
  etransitivity; [apply (occurrences_app_r p _ b)|]. apply occurrences_app_l.
Qed.

(** ** The transcribe route on its main path *)

Example filter_suppresses_signoff :
  isLikelyHallucination "Thank you so much, bye bye!" = true.
Proof. reflexivity. Qed.

Example filter_keeps_speech :
  isLikelyHallucination "I met the landlord on Tuesday." = false.
Proof. reflexivity. Qed.

Section TranscribeRoute.

Context (latency : Call -> N) (whisper : Blob -> option Transcription).
Context (userId sessionId : string) (audioFile : Blob) (w : World).
Hypothesis sessionId_given : JS.truthy sessionId = true.

Let form := {| form_audio := Some audioFile; form_sessionId := Some sessionId |}.
Let key := audioFileName_of sessionId (w_now w).
Let w' := world_after (transcribe_POST latency whisper (Some userId) form) w.

(** The upload is requested first, under the chunk's key, and the
    speech-to-text call second; nothing else is called. *)
Lemma transcribe_POST_calls :
  w_calls w' =
  (w_calls w ++ [StorageUpload key (blob_bytes audioFile); WhisperTranscribe audioFile])%list.
Proof.
  subst w' key form. unfold world_after, transcribe_POST, try_catch, bind. simpl.
  rewrite sessionId_given. simpl.
  unfold storage_upload, transcriptions_create, external, bind, modify, gets, ret,
    throw, Date_now, try_catch. simpl.
  destruct (w_storage_up w); simpl;
    [destruct (w_blobs w !! _); simpl|];
    (destruct (whisper audioFile) as [t|]; simpl;
     [destruct (isLikelyHallucination (tr_text t)); simpl|]);
    now rewrite <- app_assoc.
Qed.

(** The bucket after the request: the chunk is added when the upload is
    accepted, and nothing is removed, whatever the transcript. *)
Lemma transcribe_POST_blobs :
  w_blobs w' =
  if upload_accepted w key
  then <[key := blob_bytes audioFile]> (w_blobs w)
  else w_blobs w.
Proof.
  subst w' key form. unfold world_after, transcribe_POST, try_catch, bind, upload_accepted.
  simpl. rewrite sessionId_given. simpl.
  unfold storage_upload, transcriptions_create, external, bind, modify, gets, ret,
    throw, Date_now, try_catch. simpl.
  destruct (w_storage_up w); simpl;
    [destruct (w_blobs w !! _) eqn:E; simpl|];
    (destruct (whisper audioFile) as [t|]; simpl;
     [destruct (isLikelyHallucination (tr_text t)); simpl|]);
    reflexivity.
Qed.

(** The route writes to neither table. *)
Lemma transcribe_POST_tables :
  w_transcriptions w' = w_transcriptions w
  /\ w_sessions w' = w_sessions w
  /\ w_summaries w' = w_summaries w.
Proof.
  subst w' key form. unfold world_after, transcribe_POST, try_catch, bind.
  simpl. rewrite sessionId_given. simpl.
  unfold storage_upload, transcriptions_create, external, bind, modify, gets, ret,
    throw, Date_now, try_catch. simpl.
  destruct (w_storage_up w); simpl;
    [destruct (w_blobs w !! _) eqn:E; simpl|];
    (destruct (whisper audioFile) as [t|]; simpl;
     [destruct (isLikelyHallucination (tr_text t)); simpl|]);
    auto.
Qed.

(** The response: a failure of the speech-to-text call is a 500; a flagged
    transcript is answered with an empty text and confidence 0; any other
    transcript is answered as it came. The audio path is reported when
    the upload was accepted. *)
Lemma transcribe_POST_response :
  value_of (transcribe_POST latency whisper (Some userId) form) w =
  Ok match whisper audioFile with
     | None => JsonError 500 "Failed to transcribe audio"
     | Some t =>
         let stored := if upload_accepted w key then Some key else None in
         Json200
           (if isLikelyHallucination (tr_text t) then
              {| res_text := "";
                 res_confidence := 0;
                 res_timestamp := w_now w';
                 res_duration := tr_duration t;
                 res_words := [];
                 res_debug :=
                   {| skipped := Some "hallucination_detected";
                      originalText := Some (tr_text t);
                      audioSize := blob_size audioFile;
                      audioType := None;
                      savedAs := key;
                      audioUrl := stored;
                      analysis :=
                        Some {| an_length := String.length (tr_text t);
                                an_thankYouCount := thankYouCount (tr_text t);
                                an_containsOtter :=
                                  JS.includes (transcriptionLower (tr_text t)) "otter.ai" |}
                   |} |}
            else
              {| res_text := tr_text t;
                 res_confidence := 95 # 100;
                 res_timestamp := w_now w';
                 res_duration := tr_duration t;
                 res_words := default [] (tr_words t);
                 res_debug :=
                   {| skipped := None;
                      originalText := None;
                      audioSize := blob_size audioFile;
                      audioType := Some (blob_type audioFile);
                      savedAs := key;
                      audioUrl := stored;
                      analysis := None |} |})
     end.
Proof.
  subst w' key form.
  unfold value_of, world_after, transcribe_POST, try_catch, bind, upload_accepted.
  simpl. rewrite sessionId_given. simpl.
  unfold storage_upload, transcriptions_create, external, bind, modify, gets, ret,
    throw, Date_now, try_catch. simpl.
  destruct (w_storage_up w); simpl;
    [destruct (w_blobs w !! _) eqn:E; simpl|];
    (destruct (whisper audioFile) as [t|]; simpl;
     [destruct (isLikelyHallucination (tr_text t)); simpl|]);
    reflexivity.
Qed.

End TranscribeRoute.

(** ** Hallucination filter *)

Lemma includes_lower_phrase (txt p : string) :
  lowered p ->
  JS.includes (transcriptionLower txt) p = true -> ContainsPhrase txt p.
Proof.
  intros Hp H. unfold ContainsPhrase. rewrite Hp.
  apply Contains_trim. now apply includes_iff.
Qed.

Lemma hallucinations_lowered (p : string) : In p hallucinations -> lowered p.
Proof.
  unfold hallucinations. simpl.
  intros H. repeat (destruct H as [<- | H]; [reflexivity|]). destruct H.
Qed.

Lemma thankYouCount_le_occurrences (txt : string) :
  (thankYouCount txt <= occurrences "thank you" (JS.toLowerCase txt))%nat.
Proof.
  unfold thankYouCount, JS.matchCount_i, transcriptionLower.
  etransitivity; [|apply occurrences_trim].
  apply matchAll_le_occurrences; [reflexivity|].
  apply lowered_trim, toLowerCase_idem.
Qed.

(** Text with no listed phrase, fewer than three "thank you" and no
    advertising pattern is not flagged. *)
Lemma clean_text_not_flagged (txt : string) :
  (forall phrase, In phrase hallucinations -> ~ ContainsPhrase txt phrase) ->
  (occurrences "thank you" (JS.toLowerCase txt) < 3)%nat ->
  ~ AdvertisingPattern txt ->
  isLikelyHallucination txt = false.
Proof.
  intros Hlist Hcount Hads.
  assert (Hno : forall p, In p hallucinations ->
                  JS.includes (transcriptionLower txt) p = false).
  { intros p Hin. destruct (JS.includes _ p) eqn:E; [|reflexivity].
    exfalso. apply (Hlist p Hin).
    apply includes_lower_phrase; [now apply hallucinations_lowered | exact E]. }
  assert (Hex : existsb (fun phrase => JS.includes (transcriptionLower txt)
                                         (JS.toLowerCase phrase)) hallucinations = false).
  { destruct (existsb _ _) eqn:E; [|reflexivity].
    apply existsb_exists in E as [p [Hin Hp]].
    rewrite (hallucinations_lowered p Hin) in Hp.
    rewrite (Hno p Hin) in Hp. discriminate. }
  assert (Hty : (3 <=? thankYouCount txt)%nat = false).
  { apply Nat.leb_gt. pose proof (thankYouCount_le_occurrences txt). lia. }
  assert (Hbead : JS.includes (transcriptionLower txt) "beadaholique" = false).
  { destruct (JS.includes _ "beadaholique") eqn:E; [|reflexivity].
    exfalso. apply Hads. right. left. now apply includes_lower_phrase. }
  assert (Hcom : JS.includes (transcriptionLower txt) ".com"
                 && JS.includes (transcriptionLower txt) "for all" = false).
  { destruct (JS.includes _ ".com") eqn:E1; [|reflexivity].
    destruct (JS.includes _ "for all") eqn:E2; [|reflexivity].
    exfalso. apply Hads. left. split; now apply includes_lower_phrase. }
  assert (Hgo : JS.includes (transcriptionLower txt) "go to"
                && JS.includes (transcriptionLower txt) ".com" = false).
  { destruct (JS.includes _ "go to") eqn:E1; [|reflexivity].
    destruct (JS.includes _ ".com") eqn:E2; [|reflexivity].
    exfalso. apply Hads. right. right. split; now apply includes_lower_phrase. }
  unfold isLikelyHallucination. cbv zeta.
  rewrite Hex, Hty, Hbead, Hcom, Hgo, andb_false_r.
  rewrite (Hno "otter.ai"), (Hno "transcribed by"), (Hno "supplies needs");
    [reflexivity | | |]; unfold hallucinations; simpl; tauto.
Qed.

(** C7, as amended. Text that contains none of the listed phrases
    (case-insensitive substring match), fewer than three occurrences of
    "thank you" and no advertising pattern (".com" with "for all" or
    "go to", or "beadaholique") is returned by the transcribe route
    unchanged, with the default confidence 0.95. *)
Theorem filter_returns_clean_text_unchanged
    (latency : Call -> N) (whisper : Blob -> option Transcription)
    (userId sessionId : string) (audioFile : Blob) (w : World) (t : Transcription) :
  JS.truthy sessionId = true ->
  whisper audioFile = Some t ->
  (forall phrase, In phrase hallucinations -> ~ ContainsPhrase (tr_text t) phrase) ->
  (occurrences "thank you" (JS.toLowerCase (tr_text t)) < 3)%nat ->
  ~ AdvertisingPattern (tr_text t) ->
  exists r,
    value_of (transcribe_POST latency whisper (Some userId)
                {| form_audio := Some audioFile; form_sessionId := Some sessionId |}) w
    = Ok (Json200 r)
    /\ res_text r = tr_text t
    /\ res_confidence r = (95 # 100)%Q.
Proof.
  intros Hsid Hw Hlist Hcount Hads.
  rewrite (transcribe_POST_response latency whisper userId sessionId audioFile w Hsid).
  rewrite Hw. cbv zeta.
  rewrite (clean_text_not_flagged _ Hlist Hcount Hads).
  eexists. split; [reflexivity|]. split; reflexivity.
Qed.

Lemma not_Contains_by_includes (s p : string) :
  JS.includes s p = false -> ~ Contains s p.
Proof. intros H C. apply includes_iff in C. congruence. Qed.

Lemma no_listed_phrase_by_includes (txt : string) :
  forallb (fun p => negb (JS.includes (JS.toLowerCase txt) (JS.toLowerCase p)))
    hallucinations = true ->
  forall phrase, In phrase hallucinations -> ~ ContainsPhrase txt phrase.
Proof.
  intros H phrase Hin. rewrite forallb_forall in H.
  apply not_Contains_by_includes. specialize (H phrase Hin).
  now apply negb_true_iff in H.
Qed.

Lemma filter_returns_clean_text_unchanged_witness :
  exists r,
    value_of (transcribe_POST Lab.latency
                (Lab.whisper_says "I met the landlord on Tuesday.") (Some "u1")
                (Lab.form (Lab.chunk "chunk-a") "s1")) Lab.world0
    = Ok (Json200 r)
    /\ res_text r = "I met the landlord on Tuesday."
    /\ res_confidence r = (95 # 100)%Q.
Proof.
  apply (filter_returns_clean_text_unchanged Lab.latency
           (Lab.whisper_says "I met the landlord on Tuesday.") "u1" "s1"
           (Lab.chunk "chunk-a") Lab.world0
           {| tr_text := "I met the landlord on Tuesday.";
              tr_duration := Some 3%Q; tr_words := None |}).
  - reflexivity.
  - reflexivity.
  - apply no_listed_phrase_by_includes. vm_compute. reflexivity.
  - vm_compute. lia.
  - intros [[H _] | [H | [H _]]]; revert H;
      apply not_Contains_by_includes; vm_compute; reflexivity.
Defined.

(** C7, as stated, fails: a text with none of the listed phrases and no
    "thank you" is flagged by the advertising pattern and comes back
    empty. *)
Lemma filter_flags_text_without_listed_phrase :
  let said := "Visit example.com for all the details." in
  (forall phrase, In phrase hallucinations -> ~ ContainsPhrase said phrase)
  /\ (occurrences "thank you" (JS.toLowerCase said) < 3)%nat
  /\ exists r,
       value_of (transcribe_POST Lab.latency (Lab.whisper_says said) (Some "u1")
                   (Lab.form (Lab.chunk "chunk-a") "s1")) Lab.world0
       = Ok (Json200 r)
       /\ res_text r = ""
       /\ res_text r <> said.
Proof.
  cbv zeta. split; [|split].
  - apply no_listed_phrase_by_includes. vm_compute. reflexivity.
  - vm_compute. lia.
  - eexists. split; [vm_compute; reflexivity|]. split; [reflexivity | discriminate].
Qed.

(** ** Flagged chunks and the retention of audio *)

Lemma run_eq {A} (m : M A) (w : World) : m w = (value_of m w, world_after m w).
Proof. unfold value_of, world_after. now destruct (m w). Qed.

(** A request leaves the hook only with the chunk and the hook's session. *)
Lemma transcribeAudio_request_form
    (fl : Q -> Q) (acs : bool) (rd : Blob -> option (list byte))
    (dec : list byte -> option (list Q)) (sessionId : string)
    (audioBlob : Blob) (form : TranscribeForm) :
  transcribeAudio_request fl acs rd dec sessionId audioBlob = Some form ->
  form = {| form_audio := Some audioBlob; form_sessionId := Some sessionId |}.
Proof.
  unfold transcribeAudio_request.
  destruct (blob_size audioBlob =? 0)%nat; [discriminate|].
  destruct (negb _); [discriminate|]. now intros [= <-].
Qed.

(** The save route never stores a confidence of 0: a missing or zero
    confidence is replaced by 0.95. *)
Lemma saved_confidence_is_not_zero (c : option Q) :
  ~ (or_number c (95 # 100) == 0)%Q.
Proof.
  unfold or_number. destruct c as [q|]; [|discriminate].
  destruct (Qeq_bool q 0) eqn:E; [discriminate|].
  intros H. apply Qeq_bool_neq in E. contradiction.
Qed.

(** C1, as amended. For every chunk whose transcription is flagged, the
    transcribe route answers with the empty string as text (not null) and
    confidence 0, and the chunk's audio, once the bucket accepted it, stays
    in the blob store under the chunk's key; the recorder, which saves only
    non-empty text, persists no transcription record for that chunk and
    hands nothing to the interface. *)
Theorem flagged_chunk_answered_empty_and_not_recorded
    (fl : Q -> Q) (acs : bool) (rd : Blob -> option (list byte))
    (dec : list byte -> option (list Q))
    (latency : Call -> N) (whisper : Blob -> option Transcription)
    (userId sessionId : string) (audioBlob : Blob) (hook : Hook) (w : World)
    (form : TranscribeForm) (t : Transcription) :
  JS.truthy sessionId = true ->
  transcribeAudio_request fl acs rd dec sessionId audioBlob = Some form ->
  whisper audioBlob = Some t ->
  isLikelyHallucination (tr_text t) = true ->
  let key := audioFileName_of sessionId (w_now w) in
  let chunk := transcribeAudio fl acs rd dec latency whisper (Some userId) sessionId
                 audioBlob hook in
  (exists r,
      value_of (transcribe_POST latency whisper (Some userId) form) w = Ok (Json200 r)
      /\ res_text r = ""
      /\ res_confidence r = 0%Q
      /\ audioUrl (res_debug r) = if upload_accepted w key then Some key else None)
  /\ value_of chunk w = Ok hook
  /\ w_transcriptions (world_after chunk w) = w_transcriptions w
  /\ w_blobs (world_after chunk w) =
       (if upload_accepted w key
        then <[key := blob_bytes audioBlob]> (w_blobs w)
        else w_blobs w).
Proof.
  intros Hsid Hreq Hw Hflag key chunk.
  pose proof (transcribeAudio_request_form _ _ _ _ _ _ _ Hreq) as ->.
  pose proof (transcribe_POST_response latency whisper userId sessionId audioBlob w Hsid)
    as Hresp.
  rewrite Hw in Hresp. cbv zeta in Hresp. rewrite Hflag in Hresp.
  split.
  { eexists. split; [exact Hresp|]. repeat split; reflexivity. }
  subst chunk. unfold transcribeAudio, value_of at 1, world_after at 1 2.
  rewrite Hreq. unfold bind at 1 2 3. rewrite run_eq, Hresp.
  unfold transcribeAudio_response, ret. simpl.
  split; [reflexivity|]. split.
  - apply (transcribe_POST_tables latency whisper userId sessionId audioBlob w Hsid).
  - apply (transcribe_POST_blobs latency whisper userId sessionId audioBlob w Hsid).
Qed.

Lemma flagged_chunk_answered_empty_and_not_recorded_witness :
  let key := audioFileName_of "s1" (w_now Lab.world0) in
  let chunk := transcribeAudio Lab.fl true Lab.readAsArrayBuffer Lab.decodeAudioData
                 Lab.latency (Lab.whisper_says "Thank you.") (Some "u1") "s1"
                 (Lab.chunk "chunk-a") Lab.hook0 in
  (exists r,
      value_of (transcribe_POST Lab.latency (Lab.whisper_says "Thank you.") (Some "u1")
                  (Lab.form (Lab.chunk "chunk-a") "s1")) Lab.world0 = Ok (Json200 r)
      /\ res_text r = ""
      /\ res_confidence r = 0%Q
      /\ audioUrl (res_debug r) =
           if upload_accepted Lab.world0 key then Some key else None)
  /\ value_of chunk Lab.world0 = Ok Lab.hook0
  /\ w_transcriptions (world_after chunk Lab.world0) = w_transcriptions Lab.world0
  /\ w_blobs (world_after chunk Lab.world0) =
       (if upload_accepted Lab.world0 key
        then <[key := blob_bytes (Lab.chunk "chunk-a")]> (w_blobs Lab.world0)
        else w_blobs Lab.world0).
Proof.
  apply (flagged_chunk_answered_empty_and_not_recorded Lab.fl true
           Lab.readAsArrayBuffer Lab.decodeAudioData Lab.latency
           (Lab.whisper_says "Thank you.") "u1" "s1" (Lab.chunk "chunk-a")
           Lab.hook0 Lab.world0 (Lab.form (Lab.chunk "chunk-a") "s1")
           {| tr_text := "Thank you."; tr_duration := Some 3%Q; tr_words := None |}).
  - reflexivity.
  - vm_compute. reflexivity.
  - reflexivity.
  - vm_compute. reflexivity.
Defined.

(** C1, as stated, fails: a chunk heard as "Thank you." is flagged and its
    audio is stored, but after the recorder has handled the answer the
    table of transcriptions holds no record at all. *)
Lemma flagged_chunk_leaves_no_record :
  let chunk := transcribeAudio Lab.fl true Lab.readAsArrayBuffer Lab.decodeAudioData
                 Lab.latency (Lab.whisper_says "Thank you.") (Some "u1") "s1"
                 (Lab.chunk "chunk-a") Lab.hook0 in
  isLikelyHallucination "Thank you." = true
  /\ value_of chunk Lab.world0 = Ok Lab.hook0
  /\ w_blobs (world_after chunk Lab.world0) !! "s1/audio-1700000000000.webm"
     = Some (blob_bytes (Lab.chunk "chunk-a"))
  /\ w_transcriptions (world_after chunk Lab.world0) = [].
Proof. cbv zeta. repeat split; vm_compute; reflexivity. Qed.




(** ** Signal gate *)

Lemma Qgtb_true_iff (a b : Q) : Qgtb a b = true <-> (b < a)%Q.
Proof.
  unfold Qgtb. rewrite negb_true_iff. split.
  - intros H. apply Qnot_le_lt. intros Hle. apply Qle_bool_iff in Hle. congruence.
  - intros H. destruct (Qle_bool a b) eqn:E; [|reflexivity].
    apply Qle_bool_iff in E. exfalso. exact (Qlt_not_le _ _ H E).
Qed.

Lemma Math_max_l (a b : Q) : (a <= Math_max a b)%Q.
Proof.
  unfold Math_max. destruct (Qle_bool a b) eqn:E.
  - now apply Qle_bool_iff.
  - apply Qle_refl.
Qed.

Lemma Math_max_r (a b : Q) : (b <= Math_max a b)%Q.
Proof.
  unfold Math_max. destruct (Qle_bool a b) eqn:E.
  - apply Qle_refl.
  - apply Qlt_le_weak, Qnot_le_lt. intros H. apply Qle_bool_iff in H. congruence.
Qed.

Section GateProperties.

Context (fl : Q -> Q).

(** The running maximum never decreases along the loop. *)
Lemma analyse_max_mono (l : list Q) (st : VolumeStats) :
  (maxAmplitude st <= maxAmplitude (fold_left (analyse_sample fl) l st))%Q.
Proof.
  revert st. induction l as [|x l IH]; intros st; simpl.
  - apply Qle_refl.
  - eapply Qle_trans; [|apply IH]. simpl. apply Math_max_l.
Qed.

(** After the loop it bounds the absolute value of every sample. *)
Lemma analyse_max_bounds (l : list Q) (st : VolumeStats) (x : Q) :
  In x l -> (Qabs x <= maxAmplitude (fold_left (analyse_sample fl) l st))%Q.
Proof.
  revert st. induction l as [|y l IH]; intros st; simpl; [tauto|].
  intros [-> | Hin].
  - eapply Qle_trans; [|apply analyse_max_mono]. simpl. apply Math_max_r.
  - now apply IH.
Qed.

Lemma peak_passes (channelData : list Q) :
  PeakExceeds channelData (1 # 100) -> hasSignificantAudio fl channelData = PASS.
Proof.
  intros [x [Hin Hx]]. unfold hasSignificantAudio, PASS.
  assert (H : Qgtb (maxAmplitude (analyse fl channelData)) (1 # 100) = true).
  { apply Qgtb_true_iff. eapply Qlt_le_trans; [exact Hx|].
    now apply analyse_max_bounds. }
  now rewrite H.
Qed.

End GateProperties.

Example gate_rejects_silence :
  hasSignificantAudio Lab.fl [0; 1 # 1000; - (1 # 2000)]%Q = REJECT.
Proof. reflexivity. Qed.

Example gate_rejects_empty_buffer : hasSignificantAudio Lab.fl [] = REJECT.
Proof. reflexivity. Qed.

(** C6. For every decoded chunk whose peak absolute amplitude exceeds 0.01
    the gate answers PASS, whatever the mean amplitude and the share of
    samples above the low threshold are, and however the sums and
    quotients are rounded. *)
Theorem gate_passes_when_peak_exceeds
    (fl : Q -> Q) (audioContextSupported : bool)
    (readAsArrayBuffer : Blob -> option (list byte))
    (decodeAudioData : list byte -> option (list Q))
    (audioBlob : Blob) (arrayBuffer : list byte) (channelData : list Q) :
  readAsArrayBuffer audioBlob = Some arrayBuffer ->
  decodeAudioData arrayBuffer = Some channelData ->
  PeakExceeds channelData (1 # 100) ->
  checkAudioVolume fl audioContextSupported readAsArrayBuffer decodeAudioData audioBlob
  = PASS.
Proof.
  intros Hread Hdec Hpeak. unfold checkAudioVolume.
  destruct audioContextSupported; simpl; [|reflexivity].
  rewrite Hread, Hdec. now apply peak_passes.
Qed.

Lemma gate_passes_when_peak_exceeds_witness :
  checkAudioVolume Lab.fl true Lab.readAsArrayBuffer
    (fun _ => Some [0; 2 # 100; 0; 0; 0; 0; 0; 0; 0; 0; 0; 0; 0; 0; 0; 0; 0; 0; 0; 0;
                    0; 0; 0; 0; 0; 0; 0; 0; 0; 0; 0; 0; 0; 0; 0; 0; 0; 0; 0; 0;
                    0; 0; 0; 0; 0; 0; 0; 0; 0; 0; 0; 0; 0; 0; 0; 0; 0; 0; 0; 0;
                    0; 0; 0; 0; 0; 0; 0; 0; 0; 0; 0; 0; 0; 0; 0; 0; 0; 0; 0; 0;
                    0; 0; 0; 0; 0; 0; 0; 0; 0; 0; 0; 0; 0; 0; 0; 0; 0; 0; 0; 0;
                    0; 0; 0; 0; 0; 0; 0; 0; 0; 0; 0; 0; 0; 0; 0; 0; 0; 0; 0; 0]%Q)
    (Lab.chunk "chunk-a") = PASS.
Proof.
  eapply (gate_passes_when_peak_exceeds Lab.fl true Lab.readAsArrayBuffer _
            (Lab.chunk "chunk-a")).
  - reflexivity.
  - reflexivity.
  - exists (2 # 100)%Q. split; [simpl; tauto | reflexivity].
Defined.

(** C5. Whenever the decoding or the analysis of a chunk fails with an
    error (no audio context, the reader fails, or the decoder rejects the
    bytes) the gate answers PASS: the chunk is sent for transcription. *)
Theorem gate_passes_when_analysis_fails
    (fl : Q -> Q) (audioContextSupported : bool)
    (readAsArrayBuffer : Blob -> option (list byte))
    (decodeAudioData : list byte -> option (list Q)) (audioBlob : Blob) :
  AnalysisFails audioContextSupported readAsArrayBuffer decodeAudioData audioBlob ->
  checkAudioVolume fl audioContextSupported readAsArrayBuffer decodeAudioData audioBlob
  = PASS.
Proof.
  unfold checkAudioVolume, PASS.
  intros [-> | [Hread | [arrayBuffer [Hread Hdec]]]].
  - reflexivity.
  - rewrite Hread. now destruct audioContextSupported.
  - rewrite Hread, Hdec. now destruct audioContextSupported.
Qed.

Lemma gate_passes_when_analysis_fails_witness :
  checkAudioVolume Lab.fl true Lab.readAsArrayBuffer (fun _ => None)
    (Lab.chunk "not-audio") = PASS.
Proof.
  apply (gate_passes_when_analysis_fails Lab.fl true Lab.readAsArrayBuffer
           (fun _ => None) (Lab.chunk "not-audio")).
  right. right. exists (blob_bytes (Lab.chunk "not-audio")). split; reflexivity.
Defined.

(** ** Listing a session's transcript records *)

#[local] Instance timestamp_le_total : Total timestamp_le.
Proof. intros a b. unfold timestamp_le. lia. Qed.

Lemma order_by_timestamp_sorted (rows : list TranscriptionRow) :
  Sorted timestamp_le (order_by_timestamp rows).
Proof. apply Sorted_merge_sort. apply _. Qed.

Lemma order_by_timestamp_perm (rows : list TranscriptionRow) :
  order_by_timestamp rows ≡ₚ rows.
Proof. apply merge_sort_Permutation. Qed.

Lemma order_by_timestamp_length (rows : list TranscriptionRow) :
  List.length (order_by_timestamp rows) = List.length rows.
Proof. apply Permutation_length, order_by_timestamp_perm. Qed.

Section OrderAndIndex.

Context (g : TranscriptionRow -> TranscriptionRow).
Hypothesis g_timestamp : forall r, timestamp (g r) = timestamp r.

Lemma list_merge_map (l1 l2 : list TranscriptionRow) :
  list_merge timestamp_le (List.map g l1) (List.map g l2)
  = List.map g (list_merge timestamp_le l1 l2).
Proof.
  revert l2. induction l1 as [|x1 l1 IH1]; intros l2.
  - destruct l2; reflexivity.
  - induction l2 as [|x2 l2 IH2]; [reflexivity|].
    cbn [List.map list_merge].
    destruct (decide (timestamp_le (g x1) (g x2))) as [H1|H1];
      destruct (decide (timestamp_le x1 x2)) as [H2|H2];
      unfold timestamp_le in H1, H2; rewrite ?g_timestamp in H1; try lia.
    + cbn [List.map]. f_equal. apply (IH1 (x2 :: l2)).
    + cbn [List.map]. f_equal. exact IH2.
Qed.

Lemma merge_list_to_stack_map (st : list (option (list TranscriptionRow)))
    (l : list TranscriptionRow) :
  merge_list_to_stack timestamp_le (List.map (option_map (List.map g)) st) (List.map g l)
  = List.map (option_map (List.map g)) (merge_list_to_stack timestamp_le st l).
Proof.
  revert l. induction st as [|[l'|] st IH]; intros l; simpl; [reflexivity| |reflexivity].
  f_equal. rewrite list_merge_map. apply IH.
Qed.

Lemma merge_stack_map (st : list (option (list TranscriptionRow))) :
  merge_stack timestamp_le (List.map (option_map (List.map g)) st)
  = List.map g (merge_stack timestamp_le st).
Proof.
  induction st as [|[l|] st IH]; simpl; [reflexivity| |exact IH].
  rewrite IH. apply list_merge_map.
Qed.

Lemma merge_sort_aux_map (st : list (option (list TranscriptionRow)))
    (l : list TranscriptionRow) :
  merge_sort_aux timestamp_le (List.map (option_map (List.map g)) st) (List.map g l)
  = List.map g (merge_sort_aux timestamp_le st l).
Proof.
  revert st. induction l as [|x l IH]; intros st; simpl.
  - apply merge_stack_map.
  - rewrite <- IH. f_equal. apply (merge_list_to_stack_map st [x]).
Qed.

(** A change of the rows that keeps their time stamps does not change the
    order of the listing. *)
Lemma order_by_timestamp_map (rows : list TranscriptionRow) :
  order_by_timestamp (List.map g rows) = List.map g (order_by_timestamp rows).
Proof. apply (merge_sort_aux_map [] rows). Qed.

End OrderAndIndex.

Lemma select_transcriptions_run (sessionId : string) (w : World) :
  select_transcriptions sessionId w = (Ok (order_by_timestamp (rows_of w sessionId)), w).
Proof. reflexivity. Qed.

Lemma select_session_owned (w : World) (sessionId userId : string) (s : SessionRow) :
  w_sessions w !! sessionId = Some s -> clerk_user_id s = userId ->
  select_session sessionId userId w = (Ok (Some s), w).
Proof.
  intros Hs Hu. unfold select_session, gets. rewrite Hs, Hu, String.eqb_refl.
  reflexivity.
Qed.

Lemma select_session_not_owned (w : World) (sessionId userId : string) :
  NotOwned w sessionId userId -> select_session sessionId userId w = (Ok None, w).
Proof.
  intros H. unfold select_session, gets.
  destruct (w_sessions w !! sessionId) as [s|] eqn:E; [|reflexivity].
  destruct (String.eqb_spec (clerk_user_id s) userId) as [Heq|]; [|reflexivity].
  now destruct (H s E).
Qed.

(** What the listing answers to a signed-in caller. *)
Lemma transcriptions_GET_run (userId sessionId : string) (w : World) :
  transcriptions_GET (Some userId) sessionId w =
  (Ok (let rows := order_by_timestamp (rows_of w sessionId) in
       match rows_of w sessionId with
       | [] => Json200 rows
       | _ :: _ =>
           match w_sessions w !! sessionId with
           | Some s =>
               if String.eqb (clerk_user_id s) userId then Json200 rows
               else JsonError 404 "Session not found or unauthorized"
           | None => JsonError 404 "Session not found or unauthorized"
           end
       end), w).
Proof.
  unfold transcriptions_GET, try_catch, bind. rewrite select_transcriptions_run.
  pose proof (order_by_timestamp_length (rows_of w sessionId)) as Hlen.
  cbv zeta. destruct (rows_of w sessionId) as [|r rows'] eqn:E.
  - destruct (order_by_timestamp []); [reflexivity | discriminate].
  - destruct (order_by_timestamp (r :: rows')) as [|x l] eqn:E'; [discriminate|].
    cbn [List.length Nat.ltb Nat.leb].
    unfold select_session, gets, ret.
    destruct (w_sessions w !! sessionId) as [s|]; [|reflexivity].
    now destruct (String.eqb (clerk_user_id s) userId).
Qed.

(** C4, as amended. When the session does not exist or is not owned by the
    caller, the listing answers NotFound exactly when at least one
    transcript record carries the session's id; when none does it answers
    with success and an empty list, whether the session exists or not. In
    neither case is a record handed out, and the store is left as it was. *)
Theorem listing_of_foreign_session
    (userId sessionId : string) (w : World) :
  NotOwned w sessionId userId ->
  value_of (transcriptions_GET (Some userId) sessionId) w =
    Ok (match rows_of w sessionId with
        | [] => Json200 []
        | _ :: _ => JsonError 404 "Session not found or unauthorized"
        end)
  /\ world_after (transcriptions_GET (Some userId) sessionId) w = w.
Proof.
  intros Hno. unfold value_of, world_after. rewrite transcriptions_GET_run.
  split; [|reflexivity]. cbv zeta. simpl.
  destruct (rows_of w sessionId) as [|r rows'] eqn:E; [reflexivity|].
  destruct (w_sessions w !! sessionId) as [s|] eqn:Es; [|reflexivity].
  destruct (String.eqb_spec (clerk_user_id s) userId) as [Heq|]; [|reflexivity].
  now destruct (Hno s Es).
Qed.

Lemma listing_of_foreign_session_witness :
  value_of (transcriptions_GET (Some "u1") "s2") Lab.world_rows =
    Ok (match rows_of Lab.world_rows "s2" with
        | [] => Json200 []
        | _ :: _ => JsonError 404 "Session not found or unauthorized"
        end)
  /\ world_after (transcriptions_GET (Some "u1") "s2") Lab.world_rows = Lab.world_rows.
Proof.
  apply (listing_of_foreign_session "u1" "s2" Lab.world_rows).
  intros s Hs. vm_compute in Hs. injection Hs as <-. discriminate.
Defined.

(** C4, as stated, fails: for a session that does not exist the listing
    answers with success and an empty list, while for the session of
    another user that has a record it answers NotFound; the caller tells
    the two apart. *)
Lemma listing_of_absent_session_succeeds :
  w_sessions Lab.world_rows !! "ghost" = None
  /\ value_of (transcriptions_GET (Some "u1") "ghost") Lab.world_rows = Ok (Json200 [])
  /\ value_of (transcriptions_GET (Some "u1") "s2") Lab.world_rows
     = Ok (JsonError 404 "Session not found or unauthorized").
Proof. repeat split; vm_compute; reflexivity. Qed.

(** ** Parsing the model's answer *)

Lemma take_drop (n : nat) (s : string) : JS.take n s ++ JS.drop n s = s.
Proof.
  revert s. induction n as [|n IH]; intros s; [reflexivity|].
  destruct s as [|c s]; [reflexivity|]. simpl. f_equal. apply IH.
Qed.

Lemma drop_drop (n m : nat) (s : string) : JS.drop n (JS.drop m s) = JS.drop (m + n) s.
Proof.
  revert s. induction m as [|m IH]; intros s; [reflexivity|].
  destruct s as [|c s]; simpl; [now destruct n | apply IH].
Qed.

Lemma startsWith_drop (p s : string) :
  JS.startsWith p s = true -> s = p ++ JS.drop (String.length p) s.
Proof.
  revert s. induction p as [|a p IH]; intros s; [reflexivity|].
  destruct s as [|c s]; simpl; [discriminate|].
  rewrite andb_true_iff, Ascii.eqb_eq. intros [-> H]. f_equal. now apply IH.
Qed.

Lemma trimStart_ws (s : string) : exists ws, s = ws ++ JS.trimStart s /\ all_ws ws.
Proof.
  unfold all_ws. induction s as [|c s [ws [IH Hws]]]; simpl.
  - now exists "".
  - destruct (JS.is_ws c) eqn:E.
    + exists (String c ws). simpl. rewrite E. split; [now f_equal | exact Hws].
    + now exists "".
Qed.

(** The lazy group ends where white space and a closing fence follow. *)
Lemma lazy_until_fence_sound (body g : string) :
  lazy_until_fence body = Some g ->
  exists ws b, body = g ++ ws ++ "```" ++ b /\ all_ws ws.
Proof.
  revert g. induction body as [|c body IH]; intros g; cbn [lazy_until_fence].
  - simpl. discriminate.
  - destruct (JS.startsWith "```" (skip_ws (String c body))) eqn:E.
    + intros [= <-]. unfold skip_ws in E.
      destruct (trimStart_ws (String c body)) as [ws [Hs Hws]].
      apply startsWith_drop in E. exists ws. eexists. split; [|exact Hws].
      simpl. rewrite Hs at 1. f_equal. exact E.
    + destruct (lazy_until_fence body) as [g'|]; [|discriminate].
      intros [= <-]. destruct (IH g' eq_refl) as [ws [b [-> Hws]]].
      now exists ws, b.
Qed.

(** The fence match finds a fenced block. *)
Lemma match_json_fence_sound (s g : string) :
  match_json_fence s = Some g -> FencedJson s g.
Proof.
  unfold FencedJson. induction s as [|c s IH]; cbn [match_json_fence].
  - simpl. discriminate.
  - destruct (JS.startsWith "```json" (String c s)) eqn:E.
    + destruct (lazy_until_fence (skip_ws (JS.drop 7 (String c s)))) as [g'|] eqn:L.
      * intros [= <-]. apply lazy_until_fence_sound in L as [ws2 [b [Hb Hws2]]].
        destruct (trimStart_ws (JS.drop 7 (String c s))) as [ws1 [H1 Hws1]].
        apply startsWith_drop in E. change (String.length "```json") with 7%nat in E.
        exists "", ws1, ws2, b. split; [|split; assumption].
        unfold skip_ws in Hb. rewrite Hb in H1. rewrite H1 in E. exact E.
      * intros H. destruct (IH H) as [a [ws1 [ws2 [b [-> Hw]]]]].
        now exists (String c a), ws1, ws2, b.
    + intros H. destruct (IH H) as [a [ws1 [ws2 [b [-> Hw]]]]].
      now exists (String c a), ws1, ws2, b.
Qed.

(** [indexOf] finds the first occurrence. *)
Lemma indexOf_spec (s p : string) (i : nat) :
  JS.indexOf s p = Some i ->
  s = JS.take i s ++ p ++ JS.drop (i + String.length p) s
  /\ (p <> "" -> ~ Contains (JS.take i s) p).
Proof.
  revert i. induction s as [|c s IH]; intros i; cbn [JS.indexOf].
  - destruct (JS.startsWith p "") eqn:E; [|discriminate].
    intros [= <-]. split.
    + simpl. now apply startsWith_drop.
    + intros Hp [a [b H]]. destruct a; [destruct p|]; simpl in H; congruence.
  - destruct (JS.startsWith p (String c s)) eqn:E.
    + intros [= <-]. split.
      * simpl. now apply startsWith_drop.
      * intros Hp [a [b H]]. destruct a; [destruct p|]; simpl in H; congruence.
    + destruct (JS.indexOf s p) as [k|] eqn:Ek; [|discriminate].
      simpl. intros [= <-]. destruct (IH k eq_refl) as [Hs Hno]. split.
      * simpl. f_equal. exact Hs.
      * intros Hp [a [b H]]. destruct a as [|x a].
        -- simpl in H. assert (JS.startsWith p (String c s) = true); [|congruence].
           apply startsWith_iff. exists (b ++ JS.drop k s).
           rewrite <- (take_drop k s) at 1.
           change (String c (JS.take k s ++ JS.drop k s))
             with (String c (JS.take k s) ++ JS.drop k s).
           rewrite H. simpl. now rewrite append_assoc.
        -- simpl in H. injection H as _ H. apply (Hno Hp). now exists a, b.
Qed.

(** [lastIndexOf] finds the last occurrence. *)
Lemma lastIndexOf_spec (s p : string) (j : nat) :
  JS.lastIndexOf s p = Some j ->
  s = JS.take j s ++ p ++ JS.drop (j + String.length p) s
  /\ (p <> "" -> ~ Contains (JS.drop (S j) s) p).
Proof.
  revert j. induction s as [|c s IH]; intros j; cbn [JS.lastIndexOf].
  - destruct (JS.startsWith p "") eqn:E; [|discriminate].
    intros [= <-]. split.
    + simpl. now apply startsWith_drop.
    + simpl. intros Hp [a [b H]]. destruct a; [destruct p|]; simpl in *; congruence.
  - destruct (JS.lastIndexOf s p) as [k|] eqn:Ek.
    + intros [= <-]. destruct (IH k eq_refl) as [Hs Hno]. split.
      * simpl. f_equal. exact Hs.
      * simpl. exact Hno.
    + destruct (JS.startsWith p (String c s)) eqn:E; [|discriminate].
      intros [= <-]. split.
      * simpl. now apply startsWith_drop.
      * simpl. intros _ Hc. apply includes_iff in Hc.
        clear -Ek Hc. induction s as [|x s IHs]; cbn [JS.lastIndexOf JS.includes] in *.
        -- rewrite orb_false_r in Hc. rewrite Hc in Ek. discriminate.
        -- destruct (JS.lastIndexOf s p); [discriminate|].
           destruct (JS.startsWith p (String x s)); [discriminate|].
           simpl in Hc. auto.
Qed.

Lemma append_inv_head (a x y : string) : a ++ x = a ++ y -> x = y.
Proof. induction a as [|c a IH]; simpl; [easy|]. intros [= H]. now apply IH. Qed.

Lemma take_S_drop (n : nat) (t r : string) (x : ascii) :
  JS.drop n t = String x r -> JS.take (S n) t = JS.take n t ++ String x "".
Proof.
  revert t. induction n as [|n IH]; intros t.
  - simpl. intros ->. reflexivity.
  - destruct t as [|c t]; [discriminate|]. intros H.
    change (JS.take (S (S n)) (String c t)) with (String c (JS.take (S n) t)).
    rewrite (IH t H). reflexivity.
Qed.

(** The brace fallback takes the text from the first opening brace to the
    last closing brace. *)
Lemma brace_substring_sound (s c : string) :
  brace_substring s = Some c -> BraceDelimited s c.
Proof.
  unfold brace_substring, BraceDelimited.
  destruct (JS.indexOf s "{") as [i|] eqn:Ei; [|discriminate].
  destruct (JS.lastIndexOf s "}") as [j|] eqn:Ej; [|discriminate].
  destruct (Nat.ltb_spec i j) as [Hij|]; [|discriminate].
  intros [= <-].
  apply indexOf_spec in Ei as [Hi Hfirst].
  apply lastIndexOf_spec in Ej as [Hj Hlast].
  simpl in Hi, Hj.
  assert (Hdi : JS.drop i s = String "{" (JS.drop (i + 1) s)).
  { apply (append_inv_head (JS.take i s)). now rewrite take_drop. }
  assert (Hdj : JS.drop j s = String "}" (JS.drop (j + 1) s)).
  { apply (append_inv_head (JS.take j s)). now rewrite take_drop. }
  exists (JS.take i s), (JS.take (j - i - 1) (JS.drop (i + 1) s)), (JS.drop (j + 1) s).
  split; [|split; [|split]].
  - unfold JS.slice. rewrite <- (take_drop i s) at 1. f_equal.
    rewrite <- (take_drop (j + 1 - i) (JS.drop i s)) at 1. f_equal.
    rewrite drop_drop. f_equal. lia.
  - unfold JS.slice. rewrite Hdi.
    replace (j + 1 - i)%nat with (S (S (j - i - 1))) by lia.
    change (JS.take (S (S (j - i - 1))) (String "{" (JS.drop (i + 1) s)))
      with (String "{" (JS.take (S (j - i - 1)) (JS.drop (i + 1) s))).
    simpl. f_equal. apply take_S_drop with (r := JS.drop (j + 1) s).
    rewrite drop_drop. replace (i + 1 + (j - i - 1))%nat with j by lia. exact Hdj.
  - apply Hfirst. discriminate.
  - replace (j + 1)%nat with (S j) by lia. apply Hlast. discriminate.
Qed.

Section ParseStrategy.

Context (JSON_parse : string -> option Json).

Let invalid : Res Json := Throw "Invalid response format from AI".

Lemma parse_strict_first (aiResponse : string) (v : Json) :
  JSON_parse aiResponse = Some v -> parseAIResponse JSON_parse aiResponse = Ok v.
Proof. intros H. unfold parseAIResponse, parse_json. now rewrite H. Qed.

Lemma parse_fence_second (aiResponse g : string) :
  JSON_parse aiResponse = None ->
  match_json_fence aiResponse = Some g -> JS.truthy g = true ->
  parseAIResponse JSON_parse aiResponse =
  match JSON_parse g with Some v => Ok v | None => invalid end.
Proof.
  intros H Hf Hg. unfold parseAIResponse, parse_fallback, parse_json.
  rewrite H, Hf, Hg. now destruct (JSON_parse g).
Qed.

Lemma parse_braces_otherwise (aiResponse : string) :
  JSON_parse aiResponse = None ->
  match_json_fence aiResponse = None \/ match_json_fence aiResponse = Some "" ->
  parseAIResponse JSON_parse aiResponse =
  match brace_substring aiResponse with
  | Some c => match JSON_parse c with Some v => Ok v | None => invalid end
  | None => invalid
  end.
Proof.
  intros H Hf. unfold parseAIResponse, parse_fallback, parse_json. rewrite H.
  destruct Hf as [-> | ->]; simpl;
    (destruct (brace_substring aiResponse) as [c|]; [|reflexivity]);
    now destruct (JSON_parse c).
Qed.

End ParseStrategy.

(** ** The summary route *)

Section SummaryRoute.

Context (latency : Call -> N) (chat : string -> option (option string))
        (JSON_parse : string -> option Json)
        (promptText : string -> Z -> string -> string).

Let POST := summary_POST latency chat JSON_parse promptText.

(** The parsing throws one error only. *)
Lemma parseAIResponse_error (aiResponse msg : string) :
  parseAIResponse JSON_parse aiResponse = Throw msg ->
  msg = "Invalid response format from AI".
Proof.
  unfold parseAIResponse. destruct (parse_json JSON_parse aiResponse); [discriminate|].
  destruct (parse_fallback JSON_parse aiResponse); [discriminate|]. now intros [= <-].
Qed.

(** With a stored summary the service returns it and does nothing else. *)
Lemma generate_returns_existing (sessionId userId transcript : string) (n : nat)
    (w : World) (s : SessionRow) (existing : SummaryRow) :
  w_sessions w !! sessionId = Some s -> clerk_user_id s = userId ->
  w_summaries w !! sessionId = Some existing ->
  generateSessionSummaryFromTranscript latency chat JSON_parse promptText
    sessionId userId transcript n w = (Ok existing, w).
Proof.
  intros Hs Hu He. unfold generateSessionSummaryFromTranscript, bind.
  rewrite (select_session_owned w sessionId userId s Hs Hu).
  unfold gets. now rewrite He.
Qed.

(** With a stored summary the service never changes the world. *)
Lemma generate_existing_frame (sessionId userId transcript : string) (n : nat)
    (w : World) (existing : SummaryRow) :
  w_summaries w !! sessionId = Some existing ->
  world_after (generateSessionSummaryFromTranscript latency chat JSON_parse promptText
                 sessionId userId transcript n) w = w.
Proof.
  intros He. unfold world_after, generateSessionSummaryFromTranscript, bind,
    select_session, gets, throw, ret.
  destruct (w_sessions w !! sessionId) as [s|]; [|reflexivity].
  destruct (String.eqb (clerk_user_id s) userId); [|reflexivity].
  now rewrite He.
Qed.

(** A forced request never changes the world when a summary is stored:
    no text-generation call, no write. *)
Lemma forced_request_frame (userId : option string) (sessionId : string)
    (req : SummaryRequest) (w : World) (existing : SummaryRow) :
  w_summaries w !! sessionId = Some existing ->
  world_after (POST userId sessionId req) w = w.
Proof.
  intros He. subst POST. unfold world_after, summary_POST, try_catch.
  destruct userId as [userId|]; [|reflexivity].
  destruct (negb (JS.truthy sessionId)); [reflexivity|].
  assert (Hgen : forall w0, w0 = w ->
            snd (match summary_generate latency chat JSON_parse promptText
                         userId sessionId w0 with
                 | (Ok a, w') => (Ok a, w')
                 | (Throw e, w') => ret (JsonError 500 e) w'
                 end) = w).
  { intros w0 ->. unfold summary_generate, bind. rewrite select_transcriptions_run.
    destruct (negb (JS.truthy _)); [reflexivity|].
    pose proof (generate_existing_frame sessionId userId
                  (fullTranscript_of (order_by_timestamp (rows_of w sessionId)))
                  (List.length (order_by_timestamp (rows_of w sessionId)))
                  w existing He) as Hf.
    unfold world_after in Hf.
    destruct (generateSessionSummaryFromTranscript _ _ _ _ _ _ _ _ w) as [[r|e] w1];
      simpl in *; exact Hf. }
  destruct (negb (default false (forceRegenerate req))); [|now apply Hgen].
  unfold bind at 1, getSessionSummary, bind, select_session, gets, throw, ret.
  destruct (w_sessions w !! sessionId) as [s|]; [|reflexivity].
  destruct (String.eqb (clerk_user_id s) userId); [|reflexivity].
  now rewrite He.
Qed.

(** Whatever comes back, [callOpenAIWithTranscript] makes one call, with the
    prompt built from the transcript it was given. *)
Lemma callOpenAIWithTranscript_world (session : SessionRow) (transcript : string)
    (w : World) :
  world_after (callOpenAIWithTranscript latency chat JSON_parse promptText
                 session transcript) w
  = after_chat latency (buildSummaryPrompt promptText (scenario_type session) transcript 0) w.
Proof.
  unfold world_after, callOpenAIWithTranscript, bind at 1, chat_create, bind at 1,
    external, modify, after_chat.
  destruct (chat _) as [[aiResponse|]|]; simpl; try reflexivity.
  destruct (JS.truthy aiResponse); simpl; [|reflexivity].
  unfold bind, lift_res.
  destruct (parseAIResponse JSON_parse aiResponse) as [parsed|]; [|reflexivity].
  destruct (Json_set parsed _ _) as [p1|]; [|reflexivity].
  destruct (Json_set p1 _ _); reflexivity.
Qed.

(** Saving a summary makes no call. *)
Lemma saveSummary_calls (sessionId : string) (summary : Json) (n : nat) (w : World) :
  w_calls (world_after (saveSummary sessionId summary n) w) = w_calls w.
Proof.
  unfold world_after, saveSummary, bind, Date_now, gets, modify, ret, throw.
  destruct (summary_row summary n (w_now w)); [|reflexivity].
  destruct (w_summaries w !! sessionId); reflexivity.
Qed.

(** When the route generates a summary, the one call it makes carries the
    prompt built from the session's rows in the order of the listing. *)
Lemma summary_POST_prompt (userId sessionId : string) (req : SummaryRequest)
    (w : World) (s : SessionRow) :
  JS.truthy sessionId = true ->
  w_sessions w !! sessionId = Some s -> clerk_user_id s = userId ->
  w_summaries w !! sessionId = None ->
  JS.truthy (fullTranscript_of (order_by_timestamp (rows_of w sessionId))) = true ->
  w_calls (world_after (POST (Some userId) sessionId req) w) =
  (w_calls w ++
   [ChatCompletion
      (buildSummaryPrompt promptText (scenario_type s)
         (fullTranscript_of (order_by_timestamp (rows_of w sessionId))) 0)])%list.
Proof.
  intros Hsid Hs Hu Hnone Ht. subst POST.
  set (transcript := fullTranscript_of (order_by_timestamp (rows_of w sessionId))) in *.
  set (prompt := buildSummaryPrompt promptText (scenario_type s) transcript 0).
  assert (Hgen : w_calls (snd (summary_generate latency chat JSON_parse promptText
                                 userId sessionId w))
                 = (w_calls w ++ [ChatCompletion prompt])%list).
  { unfold summary_generate, bind at 1. rewrite select_transcriptions_run.
    fold transcript. rewrite Ht. simpl.
    unfold bind at 1, generateSessionSummaryFromTranscript, bind at 1.
    rewrite (select_session_owned w sessionId userId s Hs Hu).
    unfold bind at 1, gets at 1. rewrite Hnone. unfold bind at 1.
    pose proof (callOpenAIWithTranscript_world s transcript w) as Hcall.
    unfold world_after in Hcall. fold prompt in Hcall.
    destruct (callOpenAIWithTranscript latency chat JSON_parse promptText s transcript w)
      as [[aiSummary|e] w1]; simpl in Hcall; subst w1; [|reflexivity].
    pose proof (saveSummary_calls sessionId aiSummary
                  (List.length (order_by_timestamp (rows_of w sessionId)))
                  (after_chat latency prompt w)) as Hsave.
    unfold world_after in Hsave.
    destruct (saveSummary sessionId aiSummary _ (after_chat latency prompt w)) as [[row|e] w2];
      simpl in *; exact Hsave. }
  unfold world_after, summary_POST, try_catch. rewrite Hsid. simpl.
  destruct (negb (default false (forceRegenerate req))).
  - unfold bind at 1, getSessionSummary, bind at 1.
    rewrite (select_session_owned w sessionId userId s Hs Hu).
    unfold gets at 1. rewrite Hnone.
    destruct (summary_generate latency chat JSON_parse promptText userId sessionId w)
      as [[r|e] w1]; exact Hgen.
  - destruct (summary_generate latency chat JSON_parse promptText userId sessionId w)
      as [[r|e] w1]; exact Hgen.
Qed.

End SummaryRoute.

Section SummaryRequests.

Context (latency : Call -> N) (chat : string -> option (option string))
        (JSON_parse : string -> option Json)
        (promptText : string -> Z -> string -> string).
Context (userId sessionId : string) (w : World) (s : SessionRow).
Hypothesis session_given : JS.truthy sessionId = true.
Hypothesis session_found : w_sessions w !! sessionId = Some s.
Hypothesis session_owned : clerk_user_id s = userId.

Let POST := summary_POST latency chat JSON_parse promptText (Some userId) sessionId.
Let transcript := fullTranscript_of (order_by_timestamp (rows_of w sessionId)).

Lemma forced_request_value (req : SummaryRequest) (existing : SummaryRow) :
  forceRegenerate req = Some true ->
  w_summaries w !! sessionId = Some existing ->
  value_of (POST req) w =
  Ok (if JS.truthy transcript
      then Json200 {| success := true; summary := existing;
                      message := None; metadata := None |}
      else JsonError 500 "No transcriptions available for summary generation").
Proof.
  intros Hf He. subst POST transcript. unfold value_of, summary_POST, try_catch.
  rewrite session_given, Hf. simpl.
  unfold summary_generate, bind. rewrite select_transcriptions_run.
  destruct (JS.truthy (fullTranscript_of _)); simpl; [|reflexivity].
  now rewrite (generate_returns_existing latency chat JSON_parse promptText
                 sessionId userId _ _ w s existing session_found session_owned He).
Qed.

Lemma unforced_request_value (req : SummaryRequest) (existing : SummaryRow) :
  default false (forceRegenerate req) = false ->
  w_summaries w !! sessionId = Some existing ->
  value_of (POST req) w =
  Ok (Json200 {| success := true; summary := existing;
                 message := Some "Summary already exists";
                 metadata := summary_metadata req sessionId |}).
Proof.
  intros Hf He. subst POST. unfold value_of, summary_POST, try_catch.
  rewrite session_given, Hf. simpl.
  unfold bind at 1, getSessionSummary, bind.
  rewrite (select_session_owned w sessionId userId s session_found session_owned).
  unfold gets. now rewrite He.
Qed.

(** When the answer of the model cannot be parsed, the request fails with
    a 500 and, the call apart, the world is as before. *)
Lemma unparsable_answer_is_local (req : SummaryRequest) (aiResponse msg : string) :
  w_summaries w !! sessionId = None ->
  JS.truthy transcript = true ->
  chat (buildSummaryPrompt promptText (scenario_type s) transcript 0)
    = Some (Some aiResponse) ->
  JS.truthy aiResponse = true ->
  parseAIResponse JSON_parse aiResponse = Throw msg ->
  let w' := world_after (POST req) w in
  value_of (POST req) w = Ok (JsonError 500 "Invalid response format from AI")
  /\ w_summaries w' = w_summaries w
  /\ w_transcriptions w' = w_transcriptions w
  /\ w_sessions w' = w_sessions w
  /\ w_blobs w' = w_blobs w
  /\ w_calls w' =
       (w_calls w ++ [ChatCompletion
                        (buildSummaryPrompt promptText (scenario_type s) transcript 0)])%list.
Proof.
  intros Hnone Ht Hchat Hresp Hparse.
  pose proof (parseAIResponse_error JSON_parse _ _ Hparse) as ->.
  subst POST transcript. cbv zeta.
  assert (Hgen :
    summary_generate latency chat JSON_parse promptText userId sessionId w =
    (Throw "Invalid response format from AI",
     set_now (w_now w + Z.of_N (latency (ChatCompletion
                (buildSummaryPrompt promptText (scenario_type s)
                   (fullTranscript_of (order_by_timestamp (rows_of w sessionId))) 0))))
       (set_calls (w_calls w ++ [ChatCompletion
                (buildSummaryPrompt promptText (scenario_type s)
                   (fullTranscript_of (order_by_timestamp (rows_of w sessionId))) 0)]) w))).
  { unfold summary_generate, bind at 1. rewrite select_transcriptions_run, Ht. simpl.
    unfold bind at 1, generateSessionSummaryFromTranscript, bind at 1.
    rewrite (select_session_owned w sessionId userId s session_found session_owned).
    unfold bind at 1, gets at 1. rewrite Hnone.
    unfold bind at 1, callOpenAIWithTranscript, bind at 1, chat_create, bind at 1,
      external, modify.
    rewrite Hchat. unfold ret at 1. simpl. rewrite Hresp. simpl.
    unfold bind at 1, lift_res. rewrite Hparse. reflexivity. }
  assert (Hrun :
    summary_POST latency chat JSON_parse promptText (Some userId) sessionId req w =
    (Ok (JsonError 500 "Invalid response format from AI"),
     set_now (w_now w + Z.of_N (latency (ChatCompletion
                (buildSummaryPrompt promptText (scenario_type s)
                   (fullTranscript_of (order_by_timestamp (rows_of w sessionId))) 0))))
       (set_calls (w_calls w ++ [ChatCompletion
                (buildSummaryPrompt promptText (scenario_type s)
                   (fullTranscript_of (order_by_timestamp (rows_of w sessionId))) 0)]) w))).
  { unfold summary_POST, try_catch. rewrite session_given. simpl.
    destruct (negb (default false (forceRegenerate req))).
    - unfold bind at 1, getSessionSummary, bind at 1.
      rewrite (select_session_owned w sessionId userId s session_found session_owned).
      unfold gets at 1. rewrite Hnone, Hgen. reflexivity.
    - rewrite Hgen. reflexivity. }
  unfold value_of, world_after. rewrite Hrun. simpl. repeat split; reflexivity.
Qed.

End SummaryRequests.

(** C9, as amended. The answer of the text-generation capability is parsed
    strictly first. When that fails and the answer holds a fenced
    [```json] block with non-empty content, that content alone is parsed:
    the brace-delimited substring is not tried after it. Only when there is
    no such block is the text from the first opening brace to the last
    closing brace parsed. The error "Invalid response format from AI" is
    raised when the one fallback that applies fails or none applies. In the
    summary route such a failure is answered with a 500 for that request and
    leaves every store as it was. *)
Theorem summary_answer_parsing
    (latency : Call -> N) (chat : string -> option (option string))
    (JSON_parse : string -> option Json)
    (promptText : string -> Z -> string -> string)
    (userId sessionId : string) (w : World) (s : SessionRow)
    (req : SummaryRequest) (aiResponse : string) :
  let parsed := parseAIResponse JSON_parse aiResponse in
  let invalid := Throw "Invalid response format from AI" in
  (forall v, JSON_parse aiResponse = Some v -> parsed = Ok v)
  /\ (JSON_parse aiResponse = None ->
      forall g, match_json_fence aiResponse = Some g -> JS.truthy g = true ->
        FencedJson aiResponse g
        /\ parsed = match JSON_parse g with Some v => Ok v | None => invalid end)
  /\ (JSON_parse aiResponse = None ->
      match_json_fence aiResponse = None \/ match_json_fence aiResponse = Some "" ->
        parsed = match brace_substring aiResponse with
                 | Some c => match JSON_parse c with Some v => Ok v | None => invalid end
                 | None => invalid
                 end
        /\ forall c, brace_substring aiResponse = Some c -> BraceDelimited aiResponse c)
  /\ (forall msg, parsed = Throw msg ->
        msg = "Invalid response format from AI"
        /\ (JS.truthy sessionId = true ->
            w_sessions w !! sessionId = Some s -> clerk_user_id s = userId ->
            w_summaries w !! sessionId = None ->
            let transcript := fullTranscript_of (order_by_timestamp (rows_of w sessionId)) in
            JS.truthy transcript = true ->
            chat (buildSummaryPrompt promptText (scenario_type s) transcript 0)
              = Some (Some aiResponse) ->
            JS.truthy aiResponse = true ->
            let route := summary_POST latency chat JSON_parse promptText
                           (Some userId) sessionId req in
            value_of route w = Ok (JsonError 500 "Invalid response format from AI")
            /\ w_summaries (world_after route w) = w_summaries w
            /\ w_transcriptions (world_after route w) = w_transcriptions w
            /\ w_sessions (world_after route w) = w_sessions w
            /\ w_blobs (world_after route w) = w_blobs w)).
Proof.
  cbv zeta. split; [|split; [|split]].
  - intros v. apply parse_strict_first.
  - intros Hstrict g Hg Hne. split.
    + now apply match_json_fence_sound.
    + now apply parse_fence_second.
  - intros Hstrict Hfence. split.
    + now apply parse_braces_otherwise.
    + intros c. apply brace_substring_sound.
  - intros msg Hmsg. split; [now apply (parseAIResponse_error JSON_parse aiResponse)|].
    intros Hsid Hs Hu Hnone Ht Hchat Hresp.
    destruct (unparsable_answer_is_local latency chat JSON_parse promptText userId
                sessionId w s Hsid Hs Hu req aiResponse msg Hnone Ht Hchat Hresp Hmsg)
      as (Hv & H1 & H2 & H3 & H4 & _).
    repeat split; assumption.
Qed.

(** C9, as stated, fails: the answer holds a fenced block that is not JSON
    and, after it, a brace-delimited text that is; the fenced block is
    parsed, the braces are never tried, and the error is raised. *)
Lemma fenced_block_preempts_braces :
  let aiResponse := "```json nope ``` {}" in
  JsonText.json_parse aiResponse = None
  /\ match_json_fence aiResponse = Some "nope"
  /\ JsonText.json_parse "nope" = None
  /\ brace_substring aiResponse = Some "{}"
  /\ JsonText.json_parse "{}" = Some (JObject [])
  /\ parseAIResponse JsonText.json_parse aiResponse
     = Throw "Invalid response format from AI"
  /\ value_of (summary_POST Lab.latency (Lab.chat_says aiResponse) JsonText.json_parse
                 Lab.promptText (Some "u1") "s1" Lab.unforced) Lab.world_transcript
     = Ok (JsonError 500 "Invalid response format from AI").
Proof. cbv zeta. repeat split; vm_compute; reflexivity. Qed.

Example fenced_answer_is_parsed :
  parseAIResponse JsonText.json_parse "Here you are: ```json
 { }
``` Anything else?" = Ok (JObject []).
Proof. vm_compute. reflexivity. Qed.

Example braced_answer_is_parsed :
  parseAIResponse JsonText.json_parse "Sure! {} Hope this helps." = Ok (JObject []).
Proof. vm_compute. reflexivity. Qed.

(** A caller who does not own the session gets the same refusal from the
    forced and from the unforced request. *)
Lemma foreign_summary_requests
    (latency : Call -> N) (chat : string -> option (option string))
    (JSON_parse : string -> option Json)
    (promptText : string -> Z -> string -> string)
    (userId sessionId : string) (w : World) (req : SummaryRequest) :
  JS.truthy sessionId = true ->
  NotOwned w sessionId userId ->
  let POST := summary_POST latency chat JSON_parse promptText (Some userId) sessionId in
  let transcript := fullTranscript_of (order_by_timestamp (rows_of w sessionId)) in
  (default false (forceRegenerate req) = false ->
   value_of (POST req) w = Ok (JsonError 500 "Session not found or unauthorized"))
  /\ (forceRegenerate req = Some true -> JS.truthy transcript = true ->
      value_of (POST req) w = Ok (JsonError 500 "Session not found or unauthorized")).
Proof.
  intros Hsid Hno POST transcript. subst POST transcript. split.
  - intros Hf. unfold value_of, summary_POST, try_catch. rewrite Hsid, Hf. simpl.
    unfold bind at 1, getSessionSummary, bind.
    now rewrite (select_session_not_owned w sessionId userId Hno).
  - intros Hf Ht. unfold value_of, summary_POST, try_catch. rewrite Hsid, Hf. simpl.
    unfold summary_generate, bind at 1. rewrite select_transcriptions_run, Ht. simpl.
    unfold bind at 1, generateSessionSummaryFromTranscript, bind.
    now rewrite (select_session_not_owned w sessionId userId Hno).
Qed.

(** C10, as amended. If a summary already exists for a session, a request
    with [forceRegenerate = true] makes no text-generation call and leaves
    the stored summary, and the whole world, unchanged. When the session has
    some non-empty transcript text the request has the outcome of a request
    without the flag: for the owner the stored summary is returned (the
    request without the flag adds a message and metadata), and any other
    caller is refused. When the session has no non-empty transcript text
    the forced request fails with "No transcriptions available for summary
    generation" instead. *)
Theorem forced_regeneration_keeps_existing_summary
    (latency : Call -> N) (chat : string -> option (option string))
    (JSON_parse : string -> option Json)
    (promptText : string -> Z -> string -> string)
    (userId sessionId : string) (w : World)
    (existing : SummaryRow) (req : SummaryRequest) :
  forceRegenerate req = Some true ->
  JS.truthy sessionId = true ->
  w_summaries w !! sessionId = Some existing ->
  let POST := summary_POST latency chat JSON_parse promptText (Some userId) sessionId in
  let transcript := fullTranscript_of (order_by_timestamp (rows_of w sessionId)) in
  let unforced := {| includeMetadata := includeMetadata req; forceRegenerate := None |} in
  world_after (POST req) w = w
  /\ world_after (POST unforced) w = w
  /\ (JS.truthy transcript = true ->
      (forall s, w_sessions w !! sessionId = Some s -> clerk_user_id s = userId ->
         value_of (POST req) w =
           Ok (Json200 {| success := true; summary := existing;
                          message := None; metadata := None |})
         /\ value_of (POST unforced) w =
              Ok (Json200 {| success := true; summary := existing;
                             message := Some "Summary already exists";
                             metadata := summary_metadata req sessionId |}))
      /\ (NotOwned w sessionId userId ->
          value_of (POST req) w = Ok (JsonError 500 "Session not found or unauthorized")
          /\ value_of (POST unforced) w
             = Ok (JsonError 500 "Session not found or unauthorized")))
  /\ (JS.truthy transcript = false ->
      value_of (POST req) w =
        Ok (JsonError 500 "No transcriptions available for summary generation")).
Proof.
  intros Hforce Hsid He POST transcript unforced.
  split; [|split; [|split]].
  - apply (forced_request_frame latency chat JSON_parse promptText (Some userId)
             sessionId req w existing He).
  - apply (forced_request_frame latency chat JSON_parse promptText (Some userId)
             sessionId unforced w existing He).
  - intros Ht. split.
    + intros s Hs Hu.
      pose proof (forced_request_value latency chat JSON_parse promptText userId
                    sessionId w s Hsid Hs Hu req existing Hforce He) as Hv.
      cbv zeta in Hv. fold transcript in Hv. rewrite Ht in Hv. split; [exact Hv|].
      apply (unforced_request_value latency chat JSON_parse promptText userId sessionId
               w s Hsid Hs Hu unforced existing eq_refl He).
    + intros Hno.
      destruct (foreign_summary_requests latency chat JSON_parse promptText userId
                  sessionId w req Hsid Hno) as [_ Hforced].
      destruct (foreign_summary_requests latency chat JSON_parse promptText userId
                  sessionId w unforced Hsid Hno) as [Hunforced _].
      split; [now apply Hforced | now apply Hunforced].
  - intros Ht. unfold value_of. subst POST. unfold summary_POST, try_catch.
    rewrite Hsid, Hforce. simpl.
    unfold summary_generate, bind at 1. rewrite select_transcriptions_run.
    fold transcript. rewrite Ht. reflexivity.
Qed.

Lemma forced_regeneration_keeps_existing_summary_witness :
  let POST := summary_POST Lab.latency (Lab.chat_says "{}") JsonText.json_parse
                Lab.promptText (Some "u1") "s1" in
  world_after (POST Lab.forced) Lab.world_summary = Lab.world_summary
  /\ value_of (POST Lab.forced) Lab.world_summary =
       Ok (Json200 {| success := true; summary := Lab.summary0;
                      message := None; metadata := None |})
  /\ value_of (POST Lab.unforced) Lab.world_summary =
       Ok (Json200 {| success := true; summary := Lab.summary0;
                      message := Some "Summary already exists";
                      metadata := Some {| isExisting := true;
                                          meta_sessionId := "s1" |} |}).
Proof.
  destruct (forced_regeneration_keeps_existing_summary Lab.latency (Lab.chat_says "{}")
              JsonText.json_parse Lab.promptText "u1" "s1" Lab.world_summary
              Lab.summary0 Lab.forced)
    as (Hworld & _ & Hsome & _).
  - reflexivity.
  - reflexivity.
  - vm_compute. reflexivity.
  - destruct Hsome as [Howner _]; [vm_compute; reflexivity|].
    destruct (Howner (Lab.session_of "u1")) as [Hf Hu];
      [vm_compute; reflexivity | reflexivity |].
    split; [exact Hworld|]. split; [exact Hf | exact Hu].
Defined.

(** C10, as stated, fails: a session has a stored summary and no transcript
    record; the request without the flag returns the summary, the forced
    request answers with an error. *)
Lemma forced_regeneration_fails_without_transcript :
  let POST := summary_POST Lab.latency (Lab.chat_says "{}") JsonText.json_parse
                Lab.promptText (Some "u1") "s1" in
  w_summaries Lab.world_summary_only !! "s1" = Some Lab.summary0
  /\ value_of (POST Lab.unforced) Lab.world_summary_only
     = Ok (Json200 {| success := true; summary := Lab.summary0;
                      message := Some "Summary already exists";
                      metadata := Some {| isExisting := true; meta_sessionId := "s1" |} |})
  /\ value_of (POST Lab.forced) Lab.world_summary_only
     = Ok (JsonError 500 "No transcriptions available for summary generation").
Proof. cbv zeta. repeat split; vm_compute; reflexivity. Qed.

(** ** Chunk indices along a recording *)





Section RecordingInvariant.

Context (fl : Q -> Q) (audioContextSupported : bool)
        (readAsArrayBuffer : Blob -> option (list byte))
        (decodeAudioData : list byte -> option (list Q))
        (latency : Call -> N) (whisper : Blob -> option Transcription)
        (token : option string) (sessionId : string).






End RecordingInvariant.





(** ** Playback order *)

(** C2, as amended. Both operations that put a session's transcript
    records in playback order (the listing route, and the summary route
    when it builds the full transcript) read the session's rows sorted by
    time stamp ascending, and by time stamp alone: the chunk index plays no
    part, and the order stays the same when the indices are replaced. The
    listing answers with that list; the full transcript joins the non-empty
    texts of that list with spaces, and it is the transcript in the prompt
    of the one text-generation call of a summary request. *)
Theorem listings_are_sorted_by_timestamp
    (latency : Call -> N) (chat : string -> option (option string))
    (JSON_parse : string -> option Json) (promptText : string -> Z -> string -> string)
    (userId sessionId : string) (w : World) :
  let listed := order_by_timestamp (rows_of w sessionId) in
  value_of (select_transcriptions sessionId) w = Ok listed
  /\ Sorted timestamp_le listed
  /\ listed ≡ₚ rows_of w sessionId
  /\ (forall f, order_by_timestamp (List.map (with_chunk_index f) (rows_of w sessionId))
                = List.map (with_chunk_index f) listed)
  /\ (forall body, value_of (transcriptions_GET (Some userId) sessionId) w
                   = Ok (Json200 body) -> body = listed)
  /\ (forall req s,
        JS.truthy sessionId = true ->
        w_sessions w !! sessionId = Some s -> clerk_user_id s = userId ->
        w_summaries w !! sessionId = None ->
        JS.truthy (fullTranscript_of listed) = true ->
        w_calls (world_after (summary_POST latency chat JSON_parse promptText
                                (Some userId) sessionId req) w) =
        (w_calls w ++
         [ChatCompletion (buildSummaryPrompt promptText (scenario_type s)
                            (fullTranscript_of listed) 0)])%list).
Proof.
  cbv zeta. split; [reflexivity|].
  split; [apply order_by_timestamp_sorted|].
  split; [apply order_by_timestamp_perm|].
  split; [intros f; now apply order_by_timestamp_map|].
  split.
  - intros body. unfold value_of. rewrite transcriptions_GET_run. cbv zeta. simpl.
    destruct (rows_of w sessionId); [now intros [= <-]|].
    destruct (w_sessions w !! sessionId) as [s|]; [|discriminate].
    destruct (String.eqb (clerk_user_id s) userId); [now intros [= <-] | discriminate].
  - intros req s. apply summary_POST_prompt.
Qed.

(** C2, as stated, fails: of two rows of a session the one with the greater
    chunk index carries the earlier time stamp; the listing and the full
    transcript put it first. *)
Lemma listing_ignores_chunk_index :
  let first := Lab.row "s1" "first" 1700000001 1700000009000 in
  let second := Lab.row "s1" "second" 1700000004 1700000006000 in
  value_of (transcriptions_GET (Some "u1") "s1") Lab.world_rows
  = Ok (Json200 [second; first])
  /\ ~ Sorted playback_le [second; first]
  /\ Sorted playback_le [first; second]
  /\ fullTranscript_of (order_by_timestamp (rows_of Lab.world_rows "s1"))
     = "second first".
Proof.
  cbv zeta. split; [vm_compute; reflexivity|]. split; [|split].
  - intros H. apply Sorted_inv in H as [_ H]. apply HdRel_inv in H.
    unfold playback_le in H. simpl in H. lia.
  - repeat constructor.
  - vm_compute. reflexivity.
Qed.


(** * Further properties *)

(** ** Requests that are turned away *)

(** X1. A request to the transcribe route without a user, without an audio
    file or without a session id is answered with 401 or 400 before
    anything happens: nothing is uploaded, the speech-to-text capability is
    not called, and the world is as before. *)
Theorem transcribe_rejects_before_any_effect
    (latency : Call -> N) (whisper : Blob -> option Transcription)
    (userId : option string) (form : TranscribeForm) (w : World) :
  userId = None \/ form_audio form = None \/ form_sessionId form = None
  \/ form_sessionId form = Some "" ->
  let route := transcribe_POST latency whisper userId form in
  value_of route w =
    Ok (match userId with
        | None => JsonError 401 "Unauthorized"
        | Some _ => JsonError 400 "Audio file and session ID are required"
        end)
  /\ world_after route w = w.
Proof.
  intros H. cbv zeta. unfold value_of, world_after, transcribe_POST, try_catch.
  destruct userId as [u|]; [|split; reflexivity].
  destruct H as [H | [H | [H | H]]]; [discriminate | | |]; rewrite H.
  - split; reflexivity.
  - destruct (form_audio form); split; reflexivity.
  - destruct (form_audio form); split; reflexivity.
Qed.

Lemma transcribe_rejects_before_any_effect_witness :
  let route := transcribe_POST Lab.latency Lab.whisper_reads (Some "u1")
                 {| form_audio := Some (Lab.chunk "chunk-a");
                    form_sessionId := Some "" |} in
  value_of route Lab.world0 = Ok (JsonError 400 "Audio file and session ID are required")
  /\ world_after route Lab.world0 = Lab.world0.
Proof.
  apply (transcribe_rejects_before_any_effect Lab.latency Lab.whisper_reads (Some "u1")
           {| form_audio := Some (Lab.chunk "chunk-a"); form_sessionId := Some "" |}
           Lab.world0).
  right. right. right. reflexivity.
Defined.

(** ** Saving and listing transcriptions *)

Lemma transcriptions_POST_foreign (userId sessionId : string) (body : SaveBody)
    (w : World) :
  NotOwned w sessionId userId ->
  transcriptions_POST (Some userId) sessionId body w
  = (Ok (JsonError 404 "Session not found or unauthorized"), w).
Proof.
  intros Hno. unfold transcriptions_POST, try_catch, bind.
  now rewrite (select_session_not_owned w sessionId userId Hno).
Qed.

(** X2. Saving a transcription for a session that does not exist or
    belongs to someone else is answered with 404, and no row is written. *)
Theorem save_to_foreign_session_writes_nothing
    (userId sessionId : string) (body : SaveBody) (w : World) :
  NotOwned w sessionId userId ->
  value_of (transcriptions_POST (Some userId) sessionId body) w
    = Ok (JsonError 404 "Session not found or unauthorized")
  /\ world_after (transcriptions_POST (Some userId) sessionId body) w = w.
Proof.
  intros Hno. unfold value_of, world_after.
  rewrite (transcriptions_POST_foreign userId sessionId body w Hno).
  split; reflexivity.
Qed.

Lemma save_to_foreign_session_writes_nothing_witness :
  let body := {| body_text := "not mine"; body_confidence := None;
                 body_timestamp := None; body_speaker := None;
                 body_duration := None; body_chunkIndex := None;
                 body_audioUrl := None |} in
  world_after (transcriptions_POST (Some "u1") "s2" body) Lab.world_rows
  = Lab.world_rows.
Proof.
  intros body.
  refine (proj2 (save_to_foreign_session_writes_nothing "u1" "s2" body Lab.world_rows _)).
  intros s Hs. vm_compute in Hs. injection Hs as <-. discriminate.
Defined.

Lemma transcriptions_POST_owned (userId sessionId : string) (body : SaveBody)
    (w : World) (s : SessionRow) :
  w_sessions w !! sessionId = Some s -> clerk_user_id s = userId ->
  transcriptions_POST (Some userId) sessionId body w
  = (let row := {| session_id := sessionId;
                   text := body_text body;
                   confidence := or_number (body_confidence body) (95 # 100);
                   timestamp := default (w_now w) (body_timestamp body);
                   speaker := or_string (body_speaker body) "user";
                   duration := body_duration body;
                   chunk_index := body_chunkIndex body;
                   audio_url := body_audioUrl body;
                   created_at := w_now w |} in
     (Ok (Json200 row), set_transcriptions (w_transcriptions w ++ [row]) w)).
Proof.
  intros Hs Hu. unfold transcriptions_POST, try_catch, bind.
  rewrite (select_session_owned w sessionId userId s Hs Hu). reflexivity.
Qed.

Lemma rows_of_append (w : World) (sessionId : string) (row : TranscriptionRow) :
  session_id row = sessionId ->
  rows_of (set_transcriptions (w_transcriptions w ++ [row]) w) sessionId
  = (rows_of w sessionId ++ [row])%list.
Proof.
  intros Hrow. unfold rows_of. simpl. rewrite List.filter_app. simpl.
  now rewrite Hrow, String.eqb_refl.
Qed.

Lemma rows_of_append_other (w : World) (sessionId : string) (row : TranscriptionRow) :
  session_id row <> sessionId ->
  rows_of (set_transcriptions (w_transcriptions w ++ [row]) w) sessionId
  = rows_of w sessionId.
Proof.
  intros Hrow. unfold rows_of. simpl. rewrite List.filter_app. simpl.
  destruct (String.eqb_spec (session_id row) sessionId); [contradiction|].
  apply app_nil_r.
Qed.

(** What the listing answers to the owner of the session. *)
Lemma transcriptions_GET_owned (userId sessionId : string) (w : World) (s : SessionRow) :
  w_sessions w !! sessionId = Some s -> clerk_user_id s = userId ->
  transcriptions_GET (Some userId) sessionId w
  = (Ok (Json200 (order_by_timestamp (rows_of w sessionId))), w).
Proof.
  intros Hs Hu. rewrite transcriptions_GET_run. cbv zeta.
  rewrite Hs, Hu, String.eqb_refl. now destruct (rows_of w sessionId).
Qed.

(** X3. When the owner saves a transcription, exactly one row is appended.
    It carries the session id, the text, the chunk index and the audio
    path of the request; a missing or zero confidence becomes 0.95, a
    missing or empty speaker "user", a missing time stamp the current time.
    The listing of the session then contains the new row next to all rows
    it listed before, and is one row longer. *)
Theorem saved_transcription_is_listed
    (userId sessionId : string) (body : SaveBody) (w : World) (s : SessionRow) :
  w_sessions w !! sessionId = Some s -> clerk_user_id s = userId ->
  let w' := world_after (transcriptions_POST (Some userId) sessionId body) w in
  exists row before after,
    value_of (transcriptions_POST (Some userId) sessionId body) w = Ok (Json200 row)
    /\ w_transcriptions w' = (w_transcriptions w ++ [row])%list
    /\ session_id row = sessionId
    /\ text row = body_text body
    /\ chunk_index row = body_chunkIndex body
    /\ audio_url row = body_audioUrl body
    /\ confidence row = or_number (body_confidence body) (95 # 100)
    /\ ~ (confidence row == 0)%Q
    /\ speaker row = or_string (body_speaker body) "user"
    /\ timestamp row = default (w_now w) (body_timestamp body)
    /\ value_of (transcriptions_GET (Some userId) sessionId) w = Ok (Json200 before)
    /\ value_of (transcriptions_GET (Some userId) sessionId) w' = Ok (Json200 after)
    /\ row ∈ after
    /\ (forall r, r ∈ before -> r ∈ after)
    /\ List.length after = S (List.length before).
Proof.
  intros Hs Hu. cbv zeta. unfold value_of, world_after.
  rewrite (transcriptions_POST_owned userId sessionId body w s Hs Hu). cbv zeta.
  set (row := {| session_id := sessionId; text := body_text body |}).
  cbn [fst snd].
  rewrite (transcriptions_GET_owned userId sessionId w s Hs Hu).
  rewrite (transcriptions_GET_owned userId sessionId
             (set_transcriptions (w_transcriptions w ++ [row]) w) s Hs Hu).
  rewrite (rows_of_append w sessionId row eq_refl).
  exists row, (order_by_timestamp (rows_of w sessionId)),
    (order_by_timestamp (rows_of w sessionId ++ [row])).
  repeat (split; [reflexivity|]).
  split; [apply saved_confidence_is_not_zero|].
  repeat (split; [reflexivity|]).
  split; [|split].
  - rewrite order_by_timestamp_perm. apply elem_of_app. right. apply list_elem_of_singleton.
    reflexivity.
  - intros r. rewrite !order_by_timestamp_perm. intros Hr.
    apply elem_of_app. now left.
  - rewrite !order_by_timestamp_length, length_app. simpl. lia.
Qed.

Lemma saved_transcription_is_listed_witness :
  let body := {| body_text := "I met the landlord on Tuesday.";
                 body_confidence := Some 0%Q; body_timestamp := None;
                 body_speaker := None; body_duration := None;
                 body_chunkIndex := Some 1700000000%Z;
                 body_audioUrl := None |} in
  let w' := world_after (transcriptions_POST (Some "u1") "s1" body) Lab.world_rows in
  exists row before after,
    value_of (transcriptions_POST (Some "u1") "s1" body) Lab.world_rows
      = Ok (Json200 row)
    /\ w_transcriptions w' = (w_transcriptions Lab.world_rows ++ [row])%list
    /\ session_id row = "s1"
    /\ text row = body_text body
    /\ chunk_index row = body_chunkIndex body
    /\ audio_url row = body_audioUrl body
    /\ confidence row = or_number (body_confidence body) (95 # 100)
    /\ ~ (confidence row == 0)%Q
    /\ speaker row = or_string (body_speaker body) "user"
    /\ timestamp row = default (w_now Lab.world_rows) (body_timestamp body)
    /\ value_of (transcriptions_GET (Some "u1") "s1") Lab.world_rows
       = Ok (Json200 before)
    /\ value_of (transcriptions_GET (Some "u1") "s1") w' = Ok (Json200 after)
    /\ row ∈ after
    /\ (forall r, r ∈ before -> r ∈ after)
    /\ List.length after = S (List.length before).
Proof.
  apply (saved_transcription_is_listed "u1" "s1" _ Lab.world_rows (Lab.session_of "u1")).
  - vm_compute. reflexivity.
  - reflexivity.
Defined.

(** X4. The listing answers the owner with the rows of that session and no
    others: every row listed carries the session's id and is in the table,
    every row of the table with that id is listed, exactly as often, and
    the world is left as it was. *)
Theorem listing_holds_the_session_rows
    (userId sessionId : string) (w : World) (s : SessionRow) :
  w_sessions w !! sessionId = Some s -> clerk_user_id s = userId ->
  exists listed,
    value_of (transcriptions_GET (Some userId) sessionId) w = Ok (Json200 listed)
    /\ world_after (transcriptions_GET (Some userId) sessionId) w = w
    /\ listed ≡ₚ List.filter (fun r => String.eqb (session_id r) sessionId)
                   (w_transcriptions w)
    /\ (forall r, r ∈ listed <-> r ∈ w_transcriptions w /\ session_id r = sessionId).
Proof.
  intros Hs Hu. exists (order_by_timestamp (rows_of w sessionId)).
  unfold value_of, world_after.
  rewrite (transcriptions_GET_owned userId sessionId w s Hs Hu).
  split; [reflexivity|]. split; [reflexivity|].
  split; [apply order_by_timestamp_perm|].
  intros r. rewrite order_by_timestamp_perm. unfold rows_of.
  rewrite !list_elem_of_In, List.filter_In, String.eqb_eq. reflexivity.
Qed.

Lemma listing_holds_the_session_rows_witness :
  exists listed,
    value_of (transcriptions_GET (Some "u1") "s1") Lab.world_rows = Ok (Json200 listed)
    /\ world_after (transcriptions_GET (Some "u1") "s1") Lab.world_rows = Lab.world_rows
    /\ listed ≡ₚ List.filter (fun r => String.eqb (session_id r) "s1")
                   (w_transcriptions Lab.world_rows)
    /\ (forall r, r ∈ listed <-> r ∈ w_transcriptions Lab.world_rows
                                 /\ session_id r = "s1").
Proof.
  apply (listing_holds_the_session_rows "u1" "s1" Lab.world_rows (Lab.session_of "u1")).
  - vm_compute. reflexivity.
  - reflexivity.
Defined.

(** ** One chunk through the recording hook *)

(** X5. A chunk that is empty, or that the signal gate rejects, is dropped
    on the spot: no request is sent, nothing is uploaded, transcribed or
    saved, and the hook's state is as before. *)
Theorem dropped_chunk_has_no_effect
    (fl : Q -> Q) (acs : bool) (rd : Blob -> option (list byte))
    (dec : list byte -> option (list Q))
    (latency : Call -> N) (whisper : Blob -> option Transcription)
    (token : option string) (sessionId : string)
    (audioBlob : Blob) (hook : Hook) (w : World) :
  blob_size audioBlob = 0%nat \/ checkAudioVolume fl acs rd dec audioBlob = REJECT ->
  let chunk := transcribeAudio fl acs rd dec latency whisper token sessionId
                 audioBlob hook in
  transcribeAudio_request fl acs rd dec sessionId audioBlob = None
  /\ value_of chunk w = Ok hook
  /\ world_after chunk w = w.
Proof.
  intros H. cbv zeta.
  assert (Hreq : transcribeAudio_request fl acs rd dec sessionId audioBlob = None).
  { unfold transcribeAudio_request. destruct H as [-> | H]; [reflexivity|].
    destruct (blob_size audioBlob =? 0)%nat; [reflexivity|]. now rewrite H. }
  unfold value_of, world_after, transcribeAudio. rewrite Hreq.
  repeat split; reflexivity.
Qed.

Lemma dropped_chunk_has_no_effect_witness :
  let chunk := transcribeAudio Lab.fl true Lab.readAsArrayBuffer
                 (fun _ => Some [0; 1 # 1000; - (1 # 2000)]%Q) Lab.latency
                 Lab.whisper_reads (Some "u1") "s1" (Lab.chunk "hum") Lab.hook0 in
  transcribeAudio_request Lab.fl true Lab.readAsArrayBuffer
    (fun _ => Some [0; 1 # 1000; - (1 # 2000)]%Q) "s1" (Lab.chunk "hum") = None
  /\ value_of chunk Lab.world0 = Ok Lab.hook0
  /\ world_after chunk Lab.world0 = Lab.world0.
Proof.
  apply (dropped_chunk_has_no_effect Lab.fl true Lab.readAsArrayBuffer
           (fun _ => Some [0; 1 # 1000; - (1 # 2000)]%Q) Lab.latency
           Lab.whisper_reads (Some "u1") "s1" (Lab.chunk "hum") Lab.hook0 Lab.world0).
  right. reflexivity.
Defined.

Lemma transcribeAudio_request_passes
    (fl : Q -> Q) (acs : bool) (rd : Blob -> option (list byte))
    (dec : list byte -> option (list Q)) (sessionId : string) (audioBlob : Blob) :
  blob_size audioBlob <> 0%nat ->
  checkAudioVolume fl acs rd dec audioBlob = PASS ->
  transcribeAudio_request fl acs rd dec sessionId audioBlob
  = Some {| form_audio := Some audioBlob; form_sessionId := Some sessionId |}.
Proof.
  intros Hsize Hgate. unfold transcribeAudio_request.
  destruct (Nat.eqb_spec (blob_size audioBlob) 0); [contradiction|].
  now rewrite Hgate.
Qed.

(** X6. A chunk that passes the gate and is heard as text that the filter
    keeps ends, for the owner of the session, as exactly one new row: it
    carries the text as transcribed, confidence 0.95, the time stamp of the
    server's answer, the Unix second of that moment as chunk index and,
    when the bucket accepted the upload, the key of the stored audio; the
    same text is handed to [onTranscription], once. *)
Theorem kept_chunk_is_saved_once
    (fl : Q -> Q) (acs : bool) (rd : Blob -> option (list byte))
    (dec : list byte -> option (list Q))
    (latency : Call -> N) (whisper : Blob -> option Transcription)
    (userId sessionId : string) (audioBlob : Blob) (hook : Hook) (w : World)
    (s : SessionRow) (t : Transcription) :
  JS.truthy sessionId = true ->
  blob_size audioBlob <> 0%nat ->
  checkAudioVolume fl acs rd dec audioBlob = PASS ->
  w_sessions w !! sessionId = Some s -> clerk_user_id s = userId ->
  whisper audioBlob = Some t ->
  isLikelyHallucination (tr_text t) = false ->
  JS.truthy (JS.trim (tr_text t)) = true ->
  let key := audioFileName_of sessionId (w_now w) in
  let chunk := transcribeAudio fl acs rd dec latency whisper (Some userId) sessionId
                 audioBlob hook in
  let w' := world_after chunk w in
  exists row shown,
    w_transcriptions w' = (w_transcriptions w ++ [row])%list
    /\ session_id row = sessionId
    /\ text row = tr_text t
    /\ confidence row = (95 # 100)%Q
    /\ timestamp row = w_now w'
    /\ chunk_index row = Some (unix_seconds (w_now w'))
    /\ audio_url row = (if upload_accepted w key then Some key else None)
    /\ duration row = tr_duration t
    /\ value_of chunk w = Ok {| hook_error := hook_error hook;
                                hook_delivered := hook_delivered hook ++ [shown] |}
    /\ ui_text shown = tr_text t
    /\ w_calls w' = (w_calls w ++ [StorageUpload key (blob_bytes audioBlob);
                                   WhisperTranscribe audioBlob])%list.
Proof.
  intros Hsid Hsize Hgate Hs Hu Hw Hkeep Htext key chunk w'.
  assert (Htruthy : JS.truthy (tr_text t) = true).
  { destruct (tr_text t); [discriminate Htext | reflexivity]. }
  pose proof (transcribe_POST_response latency whisper userId sessionId audioBlob w Hsid)
    as Hresp.
  rewrite Hw in Hresp. cbv zeta in Hresp. rewrite Hkeep in Hresp.
  pose proof (transcribe_POST_tables latency whisper userId sessionId audioBlob w Hsid)
    as (Htab & Hsess & _).
  pose proof (transcribe_POST_calls latency whisper userId sessionId audioBlob w Hsid)
    as Hcalls.
  cbv zeta in Htab, Hsess, Hcalls.
  set (route := transcribe_POST latency whisper (Some userId)
                  {| form_audio := Some audioBlob; form_sessionId := Some sessionId |}) in *.
  set (w1 := world_after route w) in *.
  assert (Hrun : chunk w =
    (let ui := {| ui_id := "transcription-" ++ JS.Z_toString (w_now w1);
                  ui_text := tr_text t;
                  ui_confidence := 95 # 100;
                  ui_timestamp := w_now w1;
                  ui_duration := tr_duration t |} in
     let row := {| session_id := sessionId; text := tr_text t;
                   confidence := 95 # 100; timestamp := w_now w1;
                   speaker := "user"; duration := tr_duration t;
                   chunk_index := Some (unix_seconds (w_now w1));
                   audio_url := if upload_accepted w key then Some key else None;
                   created_at := w_now w1 |} in
     (Ok {| hook_error := hook_error hook;
            hook_delivered := hook_delivered hook ++ [ui] |},
      set_transcriptions (w_transcriptions w1 ++ [row]) w1))).
  { subst chunk. unfold transcribeAudio.
    rewrite (transcribeAudio_request_passes fl acs rd dec sessionId audioBlob Hsize Hgate).
    fold route. unfold bind at 1. rewrite (run_eq route w). fold w1. rewrite Hresp.
    unfold transcribeAudio_response. cbn [res_text]. rewrite Htruthy, Htext.
    cbn [andb]. unfold bind at 1, Date_now, gets. unfold bind at 1, try_catch, bind at 1.
    rewrite (transcriptions_POST_owned userId sessionId _ w1 s);
      [|now rewrite Hsess | exact Hu].
    reflexivity. }
  subst w'. unfold value_of, world_after. rewrite Hrun. cbv zeta. cbn [fst snd].
  eexists. eexists.
  split; [simpl; rewrite Htab; reflexivity|].
  repeat split; try reflexivity. simpl. exact Hcalls.
Qed.

Lemma kept_chunk_is_saved_once_witness :
  let key := audioFileName_of "s1" (w_now Lab.world0) in
  let chunk := transcribeAudio Lab.fl true Lab.readAsArrayBuffer Lab.decodeAudioData
                 Lab.latency Lab.whisper_reads (Some "u1") "s1"
                 (Lab.chunk "first words") Lab.hook0 in
  let w' := world_after chunk Lab.world0 in
  exists row shown,
    w_transcriptions w' = (w_transcriptions Lab.world0 ++ [row])%list
    /\ session_id row = "s1"
    /\ text row = "first words"
    /\ confidence row = (95 # 100)%Q
    /\ timestamp row = w_now w'
    /\ chunk_index row = Some (unix_seconds (w_now w'))
    /\ audio_url row = (if upload_accepted Lab.world0 key then Some key else None)
    /\ duration row = Some 3%Q
    /\ value_of chunk Lab.world0 = Ok {| hook_error := None;
                                         hook_delivered := [] ++ [shown] |}
    /\ ui_text shown = "first words"
    /\ w_calls w' = (w_calls Lab.world0
                     ++ [StorageUpload key (blob_bytes (Lab.chunk "first words"));
                         WhisperTranscribe (Lab.chunk "first words")])%list.
Proof.
  apply (kept_chunk_is_saved_once Lab.fl true Lab.readAsArrayBuffer Lab.decodeAudioData
           Lab.latency Lab.whisper_reads "u1" "s1" (Lab.chunk "first words") Lab.hook0
           Lab.world0 (Lab.session_of "u1")
           {| tr_text := "first words"; tr_duration := Some 3%Q; tr_words := None |}).
  - reflexivity.
  - vm_compute. discriminate.
  - vm_compute. reflexivity.
  - vm_compute. reflexivity.
  - reflexivity.
  - vm_compute. reflexivity.
  - vm_compute. reflexivity.
  - vm_compute. reflexivity.
Defined.

(** X7. When the speech-to-text call fails, the hook sets its error to
    "Transcription failed: Internal Server Error", saves no row and hands
    nothing to [onTranscription]; the audio that the bucket accepted before
    the call stays stored. The failure costs that chunk only. *)
Theorem failed_transcription_costs_one_chunk
    (fl : Q -> Q) (acs : bool) (rd : Blob -> option (list byte))
    (dec : list byte -> option (list Q))
    (latency : Call -> N) (whisper : Blob -> option Transcription)
    (userId sessionId : string) (audioBlob : Blob) (hook : Hook) (w : World) :
  JS.truthy sessionId = true ->
  blob_size audioBlob <> 0%nat ->
  checkAudioVolume fl acs rd dec audioBlob = PASS ->
  whisper audioBlob = None ->
  let key := audioFileName_of sessionId (w_now w) in
  let chunk := transcribeAudio fl acs rd dec latency whisper (Some userId) sessionId
                 audioBlob hook in
  value_of chunk w
    = Ok {| hook_error := Some "Transcription failed: Internal Server Error";
            hook_delivered := hook_delivered hook |}
  /\ w_transcriptions (world_after chunk w) = w_transcriptions w
  /\ w_blobs (world_after chunk w) =
       (if upload_accepted w key
        then <[key := blob_bytes audioBlob]> (w_blobs w)
        else w_blobs w).
Proof.
  intros Hsid Hsize Hgate Hw key chunk.
  pose proof (transcribe_POST_response latency whisper userId sessionId audioBlob w Hsid)
    as Hresp.
  rewrite Hw in Hresp. cbv zeta in Hresp.
  pose proof (transcribe_POST_tables latency whisper userId sessionId audioBlob w Hsid)
    as (Htab & _ & _).
  pose proof (transcribe_POST_blobs latency whisper userId sessionId audioBlob w Hsid)
    as Hblobs.
  cbv zeta in Htab, Hblobs.
  set (route := transcribe_POST latency whisper (Some userId)
                  {| form_audio := Some audioBlob; form_sessionId := Some sessionId |}) in *.
  assert (Hrun : chunk w =
    (Ok {| hook_error := Some "Transcription failed: Internal Server Error";
           hook_delivered := hook_delivered hook |}, world_after route w)).
  { subst chunk. unfold transcribeAudio.
    rewrite (transcribeAudio_request_passes fl acs rd dec sessionId audioBlob Hsize Hgate).
    fold route. unfold bind at 1. rewrite (run_eq route w), Hresp. reflexivity. }
  unfold value_of at 1, world_after at 1 2. rewrite Hrun. cbn [fst snd].
  split; [reflexivity|]. split; [exact Htab | exact Hblobs].
Qed.

Lemma failed_transcription_costs_one_chunk_witness :
  let key := audioFileName_of "s1" (w_now Lab.world0) in
  let chunk := transcribeAudio Lab.fl true Lab.readAsArrayBuffer Lab.decodeAudioData
                 Lab.latency (fun _ => None) (Some "u1") "s1"
                 (Lab.chunk "first words") Lab.hook0 in
  value_of chunk Lab.world0
    = Ok {| hook_error := Some "Transcription failed: Internal Server Error";
            hook_delivered := [] |}
  /\ w_transcriptions (world_after chunk Lab.world0) = []
  /\ w_blobs (world_after chunk Lab.world0) =
       (if upload_accepted Lab.world0 key
        then <[key := blob_bytes (Lab.chunk "first words")]> (w_blobs Lab.world0)
        else w_blobs Lab.world0).
Proof.
  apply (failed_transcription_costs_one_chunk Lab.fl true Lab.readAsArrayBuffer
           Lab.decodeAudioData Lab.latency (fun _ => None) "u1" "s1"
           (Lab.chunk "first words") Lab.hook0 Lab.world0).
  - reflexivity.
  - vm_compute. discriminate.
  - vm_compute. reflexivity.
  - reflexivity.
Defined.

(** ** The rule of the hallucination filter *)

Lemma occurrences_pos_iff (p s : string) :
  JS.includes s p = true <-> (1 <= occurrences p s)%nat.
Proof.
  induction s as [|c s IH]; cbn [JS.includes occurrences].
  - destruct (JS.startsWith p ""); simpl; split; intros; try lia;
      try reflexivity; try discriminate.
  - rewrite orb_true_iff, IH. destruct (JS.startsWith p (String c s)); split;
      intros; try lia; auto; try (destruct H; [discriminate | lia]).
Qed.

Lemma all_ws_cons (c : ascii) (b : string) :
  all_ws (String c b) -> JS.is_ws c = true /\ all_ws b.
Proof. unfold all_ws. simpl. destruct (JS.is_ws c); [auto | discriminate]. Qed.

(** The last character of the phrase is not white space. *)
Definition ends_solid (p : string) : Prop :=
  exists z, last_char p = Some z /\ JS.is_ws z = false.

Lemma solid_spec (p : string) :
  solid p = true ->
  (exists a r, p = String a r /\ JS.is_ws a = false) /\ ends_solid p.
Proof.
  unfold solid, ends_solid. destruct p as [|a r]; [discriminate|].
  destruct (last_char (String a r)) as [z|]; [|discriminate].
  rewrite andb_true_iff, !negb_true_iff. intros [Ha Hz]. split; eauto.
Qed.

Lemma ends_solid_tail (a b : ascii) (p : string) :
  ends_solid (String a (String b p)) -> ends_solid (String b p).
Proof. intros [z [Hz Hws]]. now exists z. Qed.

Lemma ws_differs (a c : ascii) :
  JS.is_ws a = false -> JS.is_ws c = true -> Ascii.eqb a c = false.
Proof.
  intros Ha Hc. destruct (Ascii.eqb_spec a c) as [->|]; [congruence | reflexivity].
Qed.

(** White space after the text does not make a phrase start earlier. *)
Lemma startsWith_app_ws (p x b : string) :
  ends_solid p -> all_ws b -> JS.startsWith p (x ++ b) = JS.startsWith p x.
Proof.
  revert x b. induction p as [|a p IH]; intros x b Hend Hb.
  - destruct Hend as [z [Hz _]]. discriminate.
  - destruct x as [|y x].
    + cbn [append JS.startsWith]. destruct b as [|c b]; [reflexivity|].
      apply all_ws_cons in Hb as [Hc Hb]. cbn [JS.startsWith].
      destruct p as [|a' p].
      * destruct Hend as [z [Hz Hws]]. injection Hz as <-.
        now rewrite (ws_differs a c Hws Hc).
      * pose proof (IH "" b (ends_solid_tail _ _ _ Hend) Hb) as E.
        cbn [append] in E. rewrite E. simpl. apply andb_false_r.
    + cbn [append JS.startsWith]. destruct p as [|a' p]; [reflexivity|].
      now rewrite (IH x b (ends_solid_tail _ _ _ Hend) Hb).
Qed.

Lemma startsWith_ws_first (p s : string) (a c : ascii) (r : string) :
  p = String a r -> JS.is_ws a = false -> JS.is_ws c = true ->
  JS.startsWith p (String c s) = false.
Proof. intros -> Ha Hc. simpl. now rewrite (ws_differs a c Ha Hc). Qed.

Lemma occurrences_all_ws (p b : string) :
  solid p = true -> all_ws b -> occurrences p b = 0%nat.
Proof.
  intros Hp. destruct (solid_spec p Hp) as [[a [r [Hpa Ha]]] _].
  induction b as [|c b IH]; intros Hb.
  - subst p. reflexivity.
  - apply all_ws_cons in Hb as [Hc Hb]. cbn [occurrences].
    rewrite (startsWith_ws_first p b a c r Hpa Ha Hc), (IH Hb). reflexivity.
Qed.

Lemma occurrences_app_ws (p x b : string) :
  solid p = true -> all_ws b -> occurrences p (x ++ b) = occurrences p x.
Proof.
  intros Hp Hb. destruct (solid_spec p Hp) as [[a [r [Hpa Ha]]] Hend].
  induction x as [|y x IH].
  - simpl append. rewrite (occurrences_all_ws p b Hp Hb). subst p. reflexivity.
  - change (String y x ++ b) with (String y (x ++ b)). cbn [occurrences].
    change (String y (x ++ b)) with (String y x ++ b).
    now rewrite (startsWith_app_ws p (String y x) b Hend Hb), IH.
Qed.

Lemma occurrences_trimStart (p s : string) :
  solid p = true -> occurrences p (JS.trimStart s) = occurrences p s.
Proof.
  intros Hp. destruct (solid_spec p Hp) as [[a [r [Hpa Ha]]] _].
  induction s as [|c s IH]; [reflexivity|].
  cbn [JS.trimStart]. destruct (JS.is_ws c) eqn:Hc; [|reflexivity].
  cbn [occurrences]. now rewrite (startsWith_ws_first p s a c r Hpa Ha Hc), IH.
Qed.

Lemma trimEnd_ws (s : string) : exists b, s = JS.trimEnd s ++ b /\ all_ws b.
Proof.
  unfold all_ws. induction s as [|c s [b [IH Hb]]]; simpl.
  - now exists "".
  - destruct (JS.trimEnd s) as [|x t] eqn:E.
    + destruct (JS.is_ws c) eqn:Hc.
      * exists (String c s). split; [reflexivity|]. simpl. rewrite Hc.
        simpl in IH. now rewrite IH.
      * exists s. split; [reflexivity|]. simpl in IH. now rewrite IH.
    + exists b. split; [|exact Hb]. simpl. simpl in IH. now rewrite <- IH.
Qed.

(** Trimming neither adds nor removes an occurrence of a solid phrase. *)
Lemma occurrences_trim_solid (p s : string) :
  solid p = true -> occurrences p (JS.trim s) = occurrences p s.
Proof.
  intros Hp. unfold JS.trim.
  destruct (trimEnd_ws (JS.trimStart s)) as [b [Hs Hb]].
  rewrite <- (occurrences_trimStart p s Hp). rewrite Hs at 2.
  symmetry. now apply occurrences_app_ws.
Qed.

Lemma includes_lower_iff (txt p : string) :
  solid p = true -> lowered p ->
  JS.includes (transcriptionLower txt) p = true <-> ContainsPhrase txt p.
Proof.
  intros Hp Hl. unfold ContainsPhrase, transcriptionLower. rewrite Hl.
  rewrite occurrences_pos_iff, (occurrences_trim_solid p _ Hp), <- occurrences_pos_iff.
  apply includes_iff.
Qed.

(** The global match of "thank you" counts every occurrence. *)
Lemma matchAll_thank_you (s : string) (skip : nat) :
  lowered s ->
  JS.matchAll_i_from "thank you" s skip = occurrences "thank you" (JS.drop skip s).
Proof.
  revert skip. induction s as [|c r IH]; intros skip Hs.
  - now destruct skip.
  - pose proof (startsWith_i_lowered "thank you" (String c r) eq_refl Hs) as Hi.
    apply lowered_cons in Hs as [_ Hr].
    destruct skip as [|k]; [|exact (IH k Hr)].
    cbn [JS.matchAll_i_from JS.drop]. rewrite Hi.
    change (occurrences "thank you" (String c r))
      with ((if JS.startsWith "thank you" (String c r) then 1 else 0)
            + occurrences "thank you" r)%nat.
    destruct (JS.startsWith "thank you" (String c r)) eqn:E.
    + rewrite (IH _ Hr). apply startsWith_drop in E. simpl in E.
      injection E as _ E. rewrite E. reflexivity.
    + rewrite (IH 0%nat Hr). reflexivity.
Qed.

Lemma thankYouCount_is_occurrences (txt : string) :
  thankYouCount txt = occurrences "thank you" (JS.toLowerCase txt).
Proof.
  unfold thankYouCount, JS.matchCount_i, transcriptionLower.
  rewrite matchAll_thank_you by apply lowered_trim, toLowerCase_idem.
  apply (occurrences_trim_solid "thank you"). reflexivity.
Qed.

Lemma hallucinations_solid (p : string) : In p hallucinations -> solid p = true.
Proof.
  unfold hallucinations. simpl.
  intros H. repeat (destruct H as [<- | H]; [reflexivity|]). destruct H.
Qed.

(** X8. The filter flags a text exactly when its rule applies: the text is
    shorter than 100 characters and contains a listed phrase, or "thank you"
    occurs three times or more, or it contains "otter.ai" or "transcribed
    by", or ".com" together with "for all" or "go to", or "beadaholique",
    or "supplies needs". Matching ignores case and the white space around
    the text; only the length test looks at the text as it came. *)
Theorem filter_flags_exactly_by_its_rule (txt : string) :
  isLikelyHallucination txt = true <-> FilterRule txt.
Proof.
  unfold isLikelyHallucination, FilterRule, AdvertisingPattern. cbv zeta.
  rewrite !orb_true_iff, !andb_true_iff.
  rewrite Nat.ltb_lt, Nat.leb_le, thankYouCount_is_occurrences.
  rewrite !includes_lower_iff by reflexivity.
  assert (Hex : existsb (fun phrase => JS.includes (transcriptionLower txt)
                                         (JS.toLowerCase phrase)) hallucinations = true
                <-> exists phrase, In phrase hallucinations /\ ContainsPhrase txt phrase).
  { rewrite existsb_exists. split; intros [p [Hin Hp]]; exists p; (split; [exact Hin|]).
    - rewrite (hallucinations_lowered p Hin) in Hp.
      apply includes_lower_iff in Hp; auto using hallucinations_solid, hallucinations_lowered.
    - rewrite (hallucinations_lowered p Hin).
      apply includes_lower_iff; auto using hallucinations_solid, hallucinations_lowered. }
  rewrite Hex. tauto.
Qed.

Lemma length_toLowerCase (s : string) :
  String.length (JS.toLowerCase s) = String.length s.
Proof. induction s as [|c s IH]; simpl; [reflexivity | now rewrite IH]. Qed.

(** X9. The verdict of the filter does not depend on the case of the
    letters: two texts that are equal up to case are both flagged or both
    kept. *)
Theorem filter_ignores_case (a b : string) :
  JS.toLowerCase a = JS.toLowerCase b ->
  isLikelyHallucination a = isLikelyHallucination b.
Proof.
  intros H. unfold isLikelyHallucination, thankYouCount, transcriptionLower. cbv zeta.
  rewrite <- (length_toLowerCase a), <- (length_toLowerCase b), H. reflexivity.
Qed.

Lemma filter_ignores_case_witness :
  isLikelyHallucination "THANK YOU." = isLikelyHallucination "thank you.".
Proof. apply (filter_ignores_case "THANK YOU." "thank you."). reflexivity. Defined.

(** ** Reading, editing and deleting a summary *)

Lemma getSessionSummary_owned (w : World) (sessionId userId : string) (s : SessionRow) :
  w_sessions w !! sessionId = Some s -> clerk_user_id s = userId ->
  getSessionSummary sessionId userId w = (Ok (w_summaries w !! sessionId), w).
Proof.
  intros Hs Hu. unfold getSessionSummary, bind.
  now rewrite (select_session_owned w sessionId userId s Hs Hu).
Qed.

Lemma getSessionSummary_foreign (w : World) (sessionId userId : string) :
  NotOwned w sessionId userId ->
  getSessionSummary sessionId userId w = (Throw "Session not found or unauthorized", w).
Proof.
  intros H. unfold getSessionSummary, bind.
  now rewrite (select_session_not_owned w sessionId userId H).
Qed.

Lemma summary_GET_owned (w : World) (sessionId userId : string) (s : SessionRow) :
  JS.truthy sessionId = true ->
  w_sessions w !! sessionId = Some s -> clerk_user_id s = userId ->
  summary_GET (Some userId) sessionId w =
  (Ok match w_summaries w !! sessionId with
      | Some row => Json200 {| success := true; summary := row;
                               message := None; metadata := None |}
      | None => JsonError 404 "Summary not found"
      end, w).
Proof.
  intros Hid Hs Hu. unfold summary_GET, try_catch. rewrite Hid. cbn [negb].
  unfold bind. rewrite (getSessionSummary_owned w sessionId userId s Hs Hu).
  now destruct (w_summaries w !! sessionId).
Qed.

(** X10. Someone who does not own the session (or names a session that
    does not exist) can neither read, edit nor delete its summary: each of
    the three requests is answered with status 500 and the message
    "Session not found or unauthorized", and nothing is changed. *)
Theorem foreign_summary_is_out_of_reach (w : World) (sessionId userId : string)
    (updates : SummaryUpdates) :
  JS.truthy sessionId = true ->
  NotOwned w sessionId userId ->
  summary_GET (Some userId) sessionId w
    = (Ok (JsonError 500 "Session not found or unauthorized"), w)
  /\ summary_PATCH (Some userId) sessionId (Some updates) w
    = (Ok (JsonError 500 "Session not found or unauthorized"), w)
  /\ summary_DELETE (Some userId) sessionId w
    = (Ok (JsonError 500 "Session not found or unauthorized"), w).
Proof.
  intros Hid Hn. split; [|split].
  - unfold summary_GET, try_catch. rewrite Hid. cbn [negb]. unfold bind.
    now rewrite (getSessionSummary_foreign w sessionId userId Hn).
  - unfold summary_PATCH, try_catch. rewrite Hid. cbn [negb]. unfold bind at 1.
    unfold updateSessionSummary, bind.
    now rewrite (select_session_not_owned w sessionId userId Hn).
  - unfold summary_DELETE, try_catch. rewrite Hid. cbn [negb]. unfold bind at 1.
    unfold deleteSessionSummary, bind.
    now rewrite (select_session_not_owned w sessionId userId Hn).
Qed.

Lemma foreign_summary_is_out_of_reach_witness :
  summary_GET (Some "u2") "s1" Lab.world_summary
    = (Ok (JsonError 500 "Session not found or unauthorized"), Lab.world_summary).
Proof.
  refine (proj1 (foreign_summary_is_out_of_reach Lab.world_summary "s1" "u2"
                   {| upd_key_topics := None; upd_main_concerns := None;
                      upd_progress_notes := None; upd_next_steps := None;
                      upd_risk_assessment := None; upd_overall_summary := None |}
                   _ _)).
  - reflexivity.
  - intros s Hs. vm_compute in Hs. injection Hs as <-. discriminate.
Defined.

(** X11. When the owner deletes the summary of a session, the request
    succeeds whether or not a summary was stored; afterwards the session has
    no summary and a read answers 404 "Summary not found". The summaries of
    other sessions, the sessions, the transcriptions and the stored audio
    stay as they were. *)
Theorem deleted_summary_is_gone (w : World) (sessionId userId : string) (s : SessionRow) :
  JS.truthy sessionId = true ->
  w_sessions w !! sessionId = Some s -> clerk_user_id s = userId ->
  let w' := world_after (summary_DELETE (Some userId) sessionId) w in
  value_of (summary_DELETE (Some userId) sessionId) w
    = Ok (Json200 "Summary deleted successfully")
  /\ w_summaries w' = delete sessionId (w_summaries w)
  /\ w_sessions w' = w_sessions w
  /\ w_transcriptions w' = w_transcriptions w
  /\ w_blobs w' = w_blobs w
  /\ value_of (summary_GET (Some userId) sessionId) w'
     = Ok (JsonError 404 "Summary not found").
Proof.
  intros Hid Hs Hu.
  assert (Hrun : summary_DELETE (Some userId) sessionId w
                 = (Ok (Json200 "Summary deleted successfully"),
                    set_summaries (delete sessionId (w_summaries w)) w)).
  { unfold summary_DELETE, try_catch. rewrite Hid. cbn [negb].
    unfold bind at 1. unfold deleteSessionSummary, bind.
    now rewrite (select_session_owned w sessionId userId s Hs Hu). }
  cbv zeta. unfold value_of, world_after. rewrite Hrun. cbn [fst snd].
  repeat split; try reflexivity.
  rewrite (summary_GET_owned (set_summaries (delete sessionId (w_summaries w)) w)
             sessionId userId s Hid Hs Hu).
  cbn [fst w_summaries set_summaries]. now rewrite lookup_delete_eq.
Qed.

Lemma deleted_summary_is_gone_witness :
  value_of (summary_GET (Some "u1") "s1")
    (world_after (summary_DELETE (Some "u1") "s1") Lab.world_summary)
  = Ok (JsonError 404 "Summary not found").
Proof.
  refine (proj2 (proj2 (proj2 (proj2 (proj2
    (deleted_summary_is_gone Lab.world_summary "s1" "u1" (Lab.session_of "u1") _ _ _)))))).
  - reflexivity.
  - reflexivity.
  - reflexivity.
Defined.

(** X12. An edit by the owner of a session with a stored summary replaces
    the fields the edit carries (none of them null), keeps the others, keeps
    the duration, the transcript length, the transcription count, the
    confidence and the creation time, and sets the update time to the time
    of the request. The answer carries the edited summary, and a read
    afterwards returns the same. Transcriptions, sessions, stored audio and
    the summaries of other sessions are untouched. *)
Theorem edited_summary_is_read_back (w : World) (sessionId userId : string)
    (s : SessionRow) (row : SummaryRow) (updates : SummaryUpdates) :
  JS.truthy sessionId = true ->
  w_sessions w !! sessionId = Some s -> clerk_user_id s = userId ->
  w_summaries w !! sessionId = Some row ->
  updates_storable updates = true ->
  let edited := apply_updates updates (w_now w) row in
  let answer := Json200 {| success := true; summary := edited;
                           message := None; metadata := None |} in
  let w' := world_after (summary_PATCH (Some userId) sessionId (Some updates)) w in
  value_of (summary_PATCH (Some userId) sessionId (Some updates)) w = Ok answer
  /\ value_of (summary_GET (Some userId) sessionId) w' = Ok answer
  /\ w_summaries w' = <[sessionId := edited]> (w_summaries w)
  /\ w_sessions w' = w_sessions w
  /\ w_transcriptions w' = w_transcriptions w
  /\ w_blobs w' = w_blobs w
  /\ session_duration_minutes edited = session_duration_minutes row
  /\ transcript_length edited = transcript_length row
  /\ transcription_count edited = transcription_count row
  /\ summary_confidence edited = summary_confidence row
  /\ summary_created_at edited = summary_created_at row.
Proof.
  intros Hid Hs Hu Hrow Hst. cbv zeta.
  assert (Hrun : summary_PATCH (Some userId) sessionId (Some updates) w
                 = (Ok (Json200 {| success := true;
                                   summary := apply_updates updates (w_now w) row;
                                   message := None; metadata := None |}),
                    set_summaries (<[sessionId := apply_updates updates (w_now w) row]>
                                     (w_summaries w)) w)).
  { unfold summary_PATCH, try_catch. rewrite Hid. cbn [negb].
    unfold bind at 1. unfold updateSessionSummary. unfold bind at 1.
    rewrite (select_session_owned w sessionId userId s Hs Hu).
    unfold bind, Date_now, gets. rewrite Hrow, Hst. reflexivity. }
  unfold value_of, world_after. rewrite Hrun. cbn [fst snd].
  repeat split; try reflexivity.
  rewrite (summary_GET_owned
             (set_summaries (<[sessionId := apply_updates updates (w_now w) row]>
                               (w_summaries w)) w)
             sessionId userId s Hid Hs Hu).
  cbn [fst w_summaries set_summaries]. now rewrite lookup_insert_eq.
Qed.

Lemma edited_summary_is_read_back_witness :
  let updates := {| upd_key_topics := None; upd_main_concerns := None;
                    upd_progress_notes := None; upd_next_steps := None;
                    upd_risk_assessment := None;
                    upd_overall_summary := Some (JString "Edited by hand.") |} in
  value_of (summary_GET (Some "u1") "s1")
    (world_after (summary_PATCH (Some "u1") "s1" (Some updates)) Lab.world_summary)
  = Ok (Json200 {| success := true;
                   summary := apply_updates updates (w_now Lab.world_summary) Lab.summary0;
                   message := None; metadata := None |}).
Proof.
  intros updates.
  refine (proj1 (proj2 (edited_summary_is_read_back Lab.world_summary "s1" "u1"
                          (Lab.session_of "u1") Lab.summary0 updates _ _ _ _ _))).
  all: reflexivity.
Defined.

(** X13. An edit of a summary that was never generated creates nothing:
    the owner is answered with status 500 and the stores are unchanged. *)
Theorem edit_without_summary_creates_nothing (w : World) (sessionId userId : string)
    (s : SessionRow) (updates : SummaryUpdates) :
  JS.truthy sessionId = true ->
  w_sessions w !! sessionId = Some s -> clerk_user_id s = userId ->
  w_summaries w !! sessionId = None ->
  (exists msg, value_of (summary_PATCH (Some userId) sessionId (Some updates)) w
               = Ok (JsonError 500 msg))
  /\ world_after (summary_PATCH (Some userId) sessionId (Some updates)) w = w.
Proof.
  intros Hid Hs Hu Hnone.
  assert (Hrun : summary_PATCH (Some userId) sessionId (Some updates) w
                 = (Ok (JsonError 500 "Failed to update summary"), w)).
  { unfold summary_PATCH, try_catch. rewrite Hid. cbn [negb].
    unfold bind at 1. unfold updateSessionSummary. unfold bind at 1.
    rewrite (select_session_owned w sessionId userId s Hs Hu).
    unfold bind, Date_now, gets. rewrite Hnone. reflexivity. }
  unfold value_of, world_after. rewrite Hrun. eauto.
Qed.

Lemma edit_without_summary_creates_nothing_witness :
  world_after (summary_PATCH (Some "u1") "s1"
                 (Some {| upd_key_topics := None; upd_main_concerns := None;
                          upd_progress_notes := None; upd_next_steps := None;
                          upd_risk_assessment := None;
                          upd_overall_summary := Some (JString "Edited by hand.") |}))
    Lab.world_transcript
  = Lab.world_transcript.
Proof.
  refine (proj2 (edit_without_summary_creates_nothing Lab.world_transcript "s1" "u1"
                   (Lab.session_of "u1") _ _ _ _ _)).
  all: reflexivity.
Defined.

(** ** Generating a summary *)

Lemma assoc_get_set (fields : list (string * Json)) (k k' : string) (v : Json) :
  assoc_get (assoc_set fields k v) k' =
  if String.eqb k k' then Some v else assoc_get fields k'.
Proof.
  induction fields as [|[k0 v0] r IH]; simpl.
  - reflexivity.
  - destruct (String.eqb_spec k0 k) as [->|Hk]; simpl.
    + now destruct (String.eqb_spec k k').
    + rewrite IH. destruct (String.eqb_spec k0 k') as [->|Hk']; [|reflexivity].
      destruct (String.eqb_spec k k'); congruence.
Qed.

(** The row stored for an answer that has the six fields: the duration and
    the length the model may have given are overwritten. *)
Lemma summary_row_of_answer (fields : list (string * Json))
    (kt mc pn ns ra os tl : Json) (n : nat) (now : Z) :
  assoc_get fields "key_topics" = Some kt ->
  assoc_get fields "main_concerns" = Some mc ->
  assoc_get fields "progress_notes" = Some pn ->
  assoc_get fields "next_steps" = Some ns ->
  assoc_get fields "risk_assessment" = Some ra ->
  assoc_get fields "overall_summary" = Some os ->
  summary_row
    (JObject (assoc_set (assoc_set fields "session_duration_minutes" (JNumber "0"))
                "transcript_length" tl)) n now
  = Some {| key_topics := kt; main_concerns := mc; progress_notes := pn;
            next_steps := ns; risk_assessment := ra; overall_summary := os;
            session_duration_minutes := JNumber "0"; transcript_length := tl;
            transcription_count := n; summary_confidence := 90 # 100;
            summary_created_at := now; summary_updated_at := now |}.
Proof.
  intros H1 H2 H3 H4 H5 H6. unfold summary_row, Json_get.
  rewrite !assoc_get_set. simpl (String.eqb _ _). cbv iota.
  now rewrite H1, H2, H3, H4, H5, H6.
Qed.

Section SummaryGeneration.

Context (latency : Call -> N) (chat : string -> option (option string))
        (JSON_parse : string -> option Json)
        (promptText : string -> Z -> string -> string).

Let POST := summary_POST latency chat JSON_parse promptText.

Lemma try_catch_ret_world {A} (m : M A) (f : string -> A) (w : World) :
  world_after (try_catch m (fun msg => ret (f msg))) w = world_after m w.
Proof. unfold world_after, try_catch. now destruct (m w) as [[a|e] w']. Qed.

Lemma bind_ret_world {A B} (m : M A) (f : A -> B) (w : World) :
  world_after (bind m (fun a => ret (f a))) w = world_after m w.
Proof. unfold world_after, bind. now destruct (m w) as [[a|e] w']. Qed.

Lemma generate_world (sessionId userId transcript : string) (n : nat) (w : World) :
  after_generation latency sessionId w
    (world_after (generateSessionSummaryFromTranscript latency chat JSON_parse
                    promptText sessionId userId transcript n) w).
Proof.
  unfold world_after, generateSessionSummaryFromTranscript.
  unfold bind at 1. unfold select_session, gets.
  destruct (w_sessions w !! sessionId) as [s|]; [|now left].
  destruct (String.eqb (clerk_user_id s) userId); [|now left].
  cbv beta iota. unfold bind at 1. cbv beta iota.
  destruct (w_summaries w !! sessionId) as [existing|] eqn:Hnone; [now left|].
  right. exists (buildSummaryPrompt promptText (scenario_type s) transcript 0).
  pose proof (callOpenAIWithTranscript_world latency chat JSON_parse promptText
                s transcript w) as Hw.
  unfold world_after in Hw. unfold bind. cbv beta.
  destruct (callOpenAIWithTranscript latency chat JSON_parse promptText s transcript w)
    as [[aiSummary|msg] w1]; cbn [snd] in Hw; subst w1; [|now left].
  unfold saveSummary, bind, Date_now, gets.
  destruct (summary_row aiSummary n _) as [row|]; [|now left].
  change (w_summaries (after_chat latency
            (buildSummaryPrompt promptText (scenario_type s) transcript 0) w))
    with (w_summaries w).
  rewrite Hnone. right. split; [reflexivity|]. now exists row.
Qed.

Lemma summary_generate_world (userId sessionId : string) (w : World) :
  after_generation latency sessionId w
    (world_after (summary_generate latency chat JSON_parse promptText userId sessionId) w).
Proof.
  unfold summary_generate, world_after. unfold bind at 1.
  rewrite select_transcriptions_run.
  destruct (negb (JS.truthy _)); [now left|].
  apply (eq_ind_r (after_generation latency sessionId w)
           (generate_world sessionId userId _ _ w)
           (bind_ret_world _ _ w)).
Qed.

Lemma summary_POST_world (userId : option string) (sessionId : string)
    (req : SummaryRequest) (w : World) :
  after_generation latency sessionId w (world_after (POST userId sessionId req) w).
Proof.
  subst POST. unfold summary_POST. rewrite try_catch_ret_world.
  destruct userId as [userId|]; [|now left].
  destruct (negb (JS.truthy sessionId)); [now left|].
  destruct (negb (default false (forceRegenerate req)));
    [|apply summary_generate_world].
  unfold world_after. unfold bind at 1. unfold getSessionSummary, bind, select_session, gets.
  destruct (w_sessions w !! sessionId) as [s|]; [|now left].
  destruct (String.eqb (clerk_user_id s) userId); [|now left].
  destruct (w_summaries w !! sessionId); [now left | apply summary_generate_world].
Qed.

(** X14. Whatever the request and whatever the text-generation capability
    answers, a summary request changes none of the transcriptions,
    sessions and stored audio, makes at most one call to the
    text-generation capability and no other call, and leaves the stored
    summaries as they are, apart from adding one for the session of the
    request when it had none: a stored summary is never overwritten or
    removed. *)
Theorem summary_request_only_adds_a_summary (userId : option string)
    (sessionId : string) (req : SummaryRequest) (w : World) :
  let w' := world_after (POST userId sessionId req) w in
  w_transcriptions w' = w_transcriptions w
  /\ w_sessions w' = w_sessions w
  /\ w_blobs w' = w_blobs w
  /\ (w_summaries w' = w_summaries w
      \/ (w_summaries w !! sessionId = None
          /\ exists row, w_summaries w' = <[sessionId := row]> (w_summaries w)))
  /\ (w_calls w' = w_calls w
      \/ exists prompt, w_calls w' = (w_calls w ++ [ChatCompletion prompt])%list).
Proof.
  cbv zeta.
  destruct (summary_POST_world userId sessionId req w)
    as [-> | [prompt [-> | [Hnone [row ->]]]]].
  - repeat split; auto.
  - repeat split; eauto.
  - repeat split; try reflexivity; [right | right; eauto].
    split; [exact Hnone | now exists row].
Qed.

(** X15. A summary request for a session without transcript text (no
    transcription, or only empty ones) is refused when it reaches the
    generation, that is, when it is forced or the owner has no stored
    summary: the answer is status 500 with "No transcriptions available
    for summary generation", and nothing is called or changed. *)
Theorem summary_needs_transcript_text (userId sessionId : string)
    (req : SummaryRequest) (w : World) (s : SessionRow) :
  JS.truthy sessionId = true ->
  fullTranscript_of (order_by_timestamp (rows_of w sessionId)) = "" ->
  forceRegenerate req = Some true
  \/ (w_sessions w !! sessionId = Some s /\ clerk_user_id s = userId
      /\ w_summaries w !! sessionId = None) ->
  POST (Some userId) sessionId req w
  = (Ok (JsonError 500 "No transcriptions available for summary generation"), w).
Proof.
  intros Hid Hempty Hcase.
  assert (Hgen : match summary_generate latency chat JSON_parse promptText
                         userId sessionId w with
                 | (Ok a, w') => (Ok a, w')
                 | (Throw e, w') => ret (JsonError 500 e) w'
                 end
                 = (Ok (JsonError 500 "No transcriptions available for summary generation"),
                    w)).
  { unfold summary_generate. unfold bind at 1. rewrite select_transcriptions_run.
    now rewrite Hempty. }
  subst POST. unfold summary_POST, try_catch. rewrite Hid. cbn [negb].
  destruct Hcase as [Hf | [Hs [Hu Hnone]]].
  - rewrite Hf. exact Hgen.
  - destruct (negb (default false (forceRegenerate req))); [|exact Hgen].
    unfold bind at 1. rewrite (getSessionSummary_owned w sessionId userId s Hs Hu).
    rewrite Hnone. exact Hgen.
Qed.

(** X16. When the owner asks for a summary of a session that has
    transcript text and no stored summary, and the text-generation
    capability answers with a JSON object that has the six content fields,
    the summary is stored and returned with these fields as answered, a
    duration of 0 minutes, the length of the transcript, the number of the
    session's transcriptions, confidence 0.9 and the time after the call as
    creation and update time. A read afterwards returns the same summary,
    and so does a second, non-forced request, without a further call. *)
Theorem generated_summary_is_stored (userId sessionId : string) (req : SummaryRequest)
    (w : World) (s : SessionRow) (aiResponse : string)
    (fields : list (string * Json)) (kt mc pn ns ra os : Json) :
  JS.truthy sessionId = true ->
  w_sessions w !! sessionId = Some s -> clerk_user_id s = userId ->
  w_summaries w !! sessionId = None ->
  let transcript := fullTranscript_of (order_by_timestamp (rows_of w sessionId)) in
  let prompt := buildSummaryPrompt promptText (scenario_type s) transcript 0 in
  JS.truthy transcript = true ->
  chat prompt = Some (Some aiResponse) ->
  JS.truthy aiResponse = true ->
  parseAIResponse JSON_parse aiResponse = Ok (JObject fields) ->
  assoc_get fields "key_topics" = Some kt ->
  assoc_get fields "main_concerns" = Some mc ->
  assoc_get fields "progress_notes" = Some pn ->
  assoc_get fields "next_steps" = Some ns ->
  assoc_get fields "risk_assessment" = Some ra ->
  assoc_get fields "overall_summary" = Some os ->
  let saved := (w_now w + Z.of_N (latency (ChatCompletion prompt)))%Z in
  let row :=
    {| key_topics := kt; main_concerns := mc; progress_notes := pn;
       next_steps := ns; risk_assessment := ra; overall_summary := os;
       session_duration_minutes := JNumber "0";
       transcript_length := JNumber (JS.decimal (N.of_nat (String.length transcript)));
       transcription_count := List.length (rows_of w sessionId);
       summary_confidence := 90 # 100;
       summary_created_at := saved; summary_updated_at := saved |} in
  let w' := world_after (POST (Some userId) sessionId req) w in
  value_of (POST (Some userId) sessionId req) w
    = Ok (Json200 {| success := true; summary := row;
                     message := None; metadata := None |})
  /\ w_summaries w' = <[sessionId := row]> (w_summaries w)
  /\ w_calls w' = (w_calls w ++ [ChatCompletion prompt])%list
  /\ value_of (summary_GET (Some userId) sessionId) w'
     = Ok (Json200 {| success := true; summary := row;
                      message := None; metadata := None |})
  /\ POST (Some userId) sessionId
       {| includeMetadata := Some false; forceRegenerate := None |} w'
     = (Ok (Json200 {| success := true; summary := row;
                       message := Some "Summary already exists";
                       metadata := None |}), w').
Proof.
  intros Hid Hs Hu Hnone transcript prompt Htr Hchat Hans Hparse H1 H2 H3 H4 H5 H6
         saved row.
  assert (Hcall : callOpenAIWithTranscript latency chat JSON_parse promptText s transcript w
                  = (Ok (JObject (assoc_set
                                    (assoc_set fields "session_duration_minutes"
                                       (JNumber "0"))
                                    "transcript_length"
                                    (JNumber (JS.decimal
                                                (N.of_nat (String.length transcript)))))),
                     after_chat latency prompt w)).
  { unfold callOpenAIWithTranscript. fold prompt. unfold bind at 1.
    unfold chat_create, bind, external, modify. rewrite Hchat. cbn [ret from_option]. unfold id.
    rewrite Hans. cbn [negb]. unfold lift_res. rewrite Hparse. reflexivity. }
  assert (Hgen : generateSessionSummaryFromTranscript latency chat JSON_parse promptText
                   sessionId userId transcript
                   (List.length (order_by_timestamp (rows_of w sessionId))) w
                 = (Ok row, set_summaries (<[sessionId := row]> (w_summaries w))
                              (after_chat latency prompt w))).
  { unfold generateSessionSummaryFromTranscript. unfold bind at 1.
    rewrite (select_session_owned w sessionId userId s Hs Hu).
    unfold bind at 1. unfold gets at 1. rewrite Hnone.
    unfold bind at 1. rewrite Hcall.
    unfold saveSummary, bind, Date_now, gets.
    rewrite (summary_row_of_answer fields kt mc pn ns ra os _ _ _ H1 H2 H3 H4 H5 H6).
    change (w_summaries (after_chat latency prompt w)) with (w_summaries w).
    rewrite Hnone, order_by_timestamp_length. reflexivity. }
  assert (Hrun : POST (Some userId) sessionId req w
                 = (Ok (Json200 {| success := true; summary := row;
                                   message := None; metadata := None |}),
                    set_summaries (<[sessionId := row]> (w_summaries w))
                      (after_chat latency prompt w))).
  { assert (Hsg : summary_generate latency chat JSON_parse promptText userId sessionId w
                  = (Ok (Json200 {| success := true; summary := row;
                                    message := None; metadata := None |}),
                     set_summaries (<[sessionId := row]> (w_summaries w))
                       (after_chat latency prompt w))).
    { unfold summary_generate. unfold bind at 1. rewrite select_transcriptions_run.
      fold transcript. rewrite Htr. cbn [negb]. unfold bind. now rewrite Hgen. }
    subst POST. unfold summary_POST, try_catch. rewrite Hid. cbn [negb].
    destruct (negb (default false (forceRegenerate req))).
    - unfold bind at 1. rewrite (getSessionSummary_owned w sessionId userId s Hs Hu).
      rewrite Hnone. now rewrite Hsg.
    - now rewrite Hsg. }
  cbv zeta. unfold value_of, world_after. rewrite Hrun. cbn [fst snd].
  set (w' := set_summaries _ _).
  assert (Hrow' : w_summaries w' !! sessionId = Some row).
  { subst w'. cbn [w_summaries set_summaries]. apply lookup_insert_eq. }
  repeat split.
  - rewrite (summary_GET_owned w' sessionId userId s Hid Hs Hu). cbn [fst].
    now rewrite Hrow'.
  - subst POST. unfold summary_POST, try_catch. rewrite Hid. cbn.
    unfold bind. rewrite (getSessionSummary_owned w' sessionId userId s Hs Hu).
    now rewrite Hrow'.
Qed.

End SummaryGeneration.

Lemma summary_needs_transcript_text_witness :
  summary_POST Lab.latency (Lab.chat_says Examples.answer) JsonText.json_parse
    Lab.promptText (Some "u1") "s1" Lab.unforced Lab.world0
  = (Ok (JsonError 500 "No transcriptions available for summary generation"),
     Lab.world0).
Proof.
  apply (summary_needs_transcript_text Lab.latency (Lab.chat_says Examples.answer)
           JsonText.json_parse Lab.promptText "u1" "s1" Lab.unforced Lab.world0
           (Lab.session_of "u1")).
  - reflexivity.
  - reflexivity.
  - right. repeat split; reflexivity.
Defined.

Lemma generated_summary_is_stored_witness :
  let POST := summary_POST Lab.latency (Lab.chat_says Examples.answer)
                JsonText.json_parse Lab.promptText (Some "u1") "s1" Lab.unforced in
  value_of (summary_GET (Some "u1") "s1") (world_after POST Lab.world_transcript)
  = Ok (Json200
          {| success := true;
             summary :=
               {| key_topics := JArray [JString "housing"];
                  main_concerns := JArray [JString "rent arrears"];
                  progress_notes := JString "Client met the landlord.";
                  next_steps := JArray [JString "Call the housing office"];
                  risk_assessment := JString "Low";
                  overall_summary := JString "A first meeting about housing.";
                  session_duration_minutes := JNumber "0";
                  transcript_length := JNumber "30";
                  transcription_count := 1;
                  summary_confidence := 90 # 100;
                  summary_created_at := 1700000022500;
                  summary_updated_at := 1700000022500 |};
             message := None; metadata := None |}).
Proof.
  cbv zeta.
  refine (proj1 (proj2 (proj2 (proj2
    (generated_summary_is_stored Lab.latency (Lab.chat_says Examples.answer)
       JsonText.json_parse Lab.promptText "u1" "s1" Lab.unforced Lab.world_transcript
       (Lab.session_of "u1") Examples.answer Examples.answer_fields
       (JArray [JString "housing"]) (JArray [JString "rent arrears"])
       (JString "Client met the landlord.") (JArray [JString "Call the housing office"])
       (JString "Low") (JString "A first meeting about housing.")
       _ _ _ _ _ _ _ _ _ _ _ _ _ _))))).
  all: reflexivity.
Defined.
